(** * A rock-paper-scissors session manager over socket.io

    Shallow embedding of the three successive versions of the socket module
    of the game back end:

    - [Lobby]  : [src/socket.js] (joining and leaving rooms, no game yet);
    - [Game]   : the second listing of [src/unnamed/part_000], with rounds,
                 a round timeout ([setTimeout]) and a reconnection grace;
    - [Paused] : the first listing of [src/unnamed/part_000], with the
                 pause flag and the one-second countdown ([setInterval]).

    Modelling conventions.

    - Message fields and the values stored under them are JavaScript values
      restricted to [undefined], [null] and strings ([value]); scores are
      JavaScript numbers restricted to integers and [NaN] ([num]).
    - Objects used as dictionaries whose enumeration order is irrelevant
      ([roomStates], [scores], [choices]) are finite maps keyed by the
      property name.  [roomStates] is read under a name chosen by the
      client in [handlePlayerChoice] only, where the members inherited
      from [Object.prototype] are modelled; [scores] and [choices] are
      modelled with their own properties only.  Under a username that is
      the name of an inherited member, the read of a missing key and the
      assignment to [__proto__] differ from the model: usernames are
      meant to be other names, and the theorems whose outcome depends on
      it say so by hypothesis.  Socket ids are generated by the server
      and are no such names either.
    - The registry [connectedUsers], whose first matching key is
      searched, is an insertion-ordered association list (socket ids are
      never array-index strings).
    - Room state objects live in a heap: the round timer closure captures
      the object, while the handlers look it up by name in [roomStates].
    - Handlers run in a state monad with one error, the uncaught
      [TypeError] raised by a property access on [undefined].
    - Timers are entries of a pending list; firing removes the entry of a
      timeout and runs its callback, clearing removes the entry.  String
      lengths are counted on ASCII text. *)

From stdpp Require Import gmap strings list fin_maps.

Local Open Scope Z_scope.

(** ** JavaScript values *)

Inductive value : Type :=
| Undefined
| Null
| Str (s : string).

Definition value_eqb (a b : value) : bool :=
  match a, b with
  | Undefined, Undefined => true
  | Null, Null => true
  | Str x, Str y => String.eqb x y
  | _, _ => false
  end.

(** [!!v] *)
Definition truthy (v : value) : bool :=
  match v with
  | Str s => negb (String.eqb s "")
  | _ => false
  end.

(** Conversion of a value used as a property name. *)
Definition key (v : value) : string :=
  match v with
  | Undefined => "undefined"
  | Null => "null"
  | Str s => s
  end.

(** Scores: integers, or [NaN] once [undefined] has been incremented. *)
Inductive num : Type :=
| Num (z : Z)
| NaN.

(** [o[k]++] on a number-valued property that may be missing. *)
Definition incr (old : option num) : num :=
  match old with
  | Some (Num z) => Num (z + 1)
  | _ => NaN
  end.

(** [a === b] on two score lookups. *)
Definition num_strict_eq (a b : option num) : bool :=
  match a, b with
  | None, None => true
  | Some (Num x), Some (Num y) => Z.eqb x y
  | _, _ => false
  end.

(** [a === 5] *)
Definition is5 (a : option num) : bool := num_strict_eq a (Some (Num 5)).

(** [m[k]] on a dictionary of values. *)
Definition prop (m : gmap string value) (k : value) : value :=
  default Undefined (m !! key k).

(** ** Insertion-ordered objects *)

Module Obj.
Section Obj.
Context {V : Type}.

Definition t := list (string * V).

Definition get (k : string) (o : list (string * V)) : option V :=
  snd <$> List.find (fun p => String.eqb (fst p) k) o.

Fixpoint replace (k : string) (v : V) (o : list (string * V)) : list (string * V) :=
  match o with
  | [] => []
  | p :: o' => if String.eqb (fst p) k then (k, v) :: o' else p :: replace k v o'
  end.

(** [o[k] = v]: in place when [k] is there, appended otherwise. *)
Definition set (k : string) (v : V) (o : list (string * V)) : list (string * V) :=
  match get k o with
  | Some _ => replace k v o
  | None => o ++ [(k, v)]
  end.

(** [delete o[k]] *)
Definition del (k : string) (o : list (string * V)) : list (string * V) :=
  List.filter (fun p => negb (String.eqb (fst p) k)) o.

Definition keys (o : list (string * V)) : list string := map fst o.
Definition values (o : list (string * V)) : list V := map snd o.
End Obj.
End Obj.

(** ** The state and error monad of the handlers *)

Inductive Outcome (S A : Type) : Type :=
| Ok (a : A) (s : S)
| TypeError.
Arguments Ok {S A} a s.
Arguments TypeError {S A}.

Definition M (S A : Type) : Type := S -> Outcome S A.

Definition ret {S A} (a : A) : M S A := fun s => Ok a s.
Definition bind {S A B} (m : M S A) (k : A -> M S B) : M S B :=
  fun s => match m s with
           | Ok a s' => k a s'
           | TypeError => TypeError
           end.
Definition throw {S A} : M S A := fun _ => TypeError.
Definition get {S} : M S S := fun s => Ok s s.
Definition modify {S} (f : S -> S) : M S unit := fun s => Ok tt (f s).

Notation "'let!' x ':=' m 'in' k" := (bind m (fun x => k))
  (at level 10, x name, m at level 200, k at level 200).
Notation "m ;; k" := (bind m (fun _ => k))
  (at level 100, k at level 200, right associativity).

(** [if (c) body] without an else branch. *)
Definition when {S} (c : bool) (body : M S unit) : M S unit :=
  if c then body else ret tt.

(** [list.forEach(f)] *)
Fixpoint forEach {S A} (l : list A) (f : A -> M S unit) : M S unit :=
  match l with
  | [] => ret tt
  | x :: l' => f x ;; forEach l' f
  end.

(** ** Timers *)

Section Timers.
Context {C : Type}.

(** [clearTimeout(h)] / [clearInterval(h)]; [null] clears nothing. *)
Definition clearTimer (h : option nat) (ts : list (nat * C)) : list (nat * C) :=
  match h with
  | Some t => List.filter (fun p => negb (Nat.eqb (fst p) t)) ts
  | None => ts
  end.

Definition pending (t : nat) (ts : list (nat * C)) : option C :=
  snd <$> List.find (fun p => Nat.eqb (fst p) t) ts.
End Timers.

(** ** Outbound events *)

Inductive Result : Type := tie | player1 | player2.

Inductive Payload : Type :=
| Text (s : string)
| RoundResult (round : Z) (choices : gmap string value) (result : Result)
              (scores : gmap string num)
| StartRound (round : Z) (timer : Z)
| RoundTimer (remainingTime : Z)
| GameOver (winner : value).

Inductive Emit : Type :=
| ToSocket (socket : string) (event : string) (p : Payload)   (* socket.emit *)
| ToRoom (room : string) (event : string) (p : Payload).      (* io.to(room).emit *)

(** ** The round resolver (identical in [Game] and [Paused]) *)

(** Property names every object literal inherits from [Object.prototype];
    their values are functions or objects, never equal to a message value. *)
Definition inherited : list string :=
  [ "constructor"; "__defineGetter__"; "__defineSetter__"; "hasOwnProperty";
    "__lookupGetter__"; "__lookupSetter__"; "isPrototypeOf";
    "propertyIsEnumerable"; "toString"; "valueOf"; "__proto__";
    "toLocaleString" ]%string.

Inductive member : Type :=
| Own (v : value)
| Inherited
| Absent.

(** [const winMap = { rock: 'scissors', paper: 'rock', scissors: 'paper' }] *)
Definition winMap (k : string) : member :=
  if String.eqb k "rock" then Own (Str "scissors")
  else if String.eqb k "paper" then Own (Str "rock")
  else if String.eqb k "scissors" then Own (Str "paper")
  else if existsb (String.eqb k) inherited then Inherited
  else Absent.

(** [m === v] for a looked-up member [m]. *)
Definition member_strict_eq (m : member) (v : value) : bool :=
  match m with
  | Own x => value_eqb x v
  | Inherited => false
  | Absent => value_eqb Undefined v
  end.

Definition determineRoundWinner (choice1 choice2 : value) : Result :=
  if value_eqb choice1 choice2 then tie
  else if member_strict_eq (winMap (key choice1)) choice2 then player1
  else player2.

(** [['rock', 'paper', 'scissors'].includes(choice)] *)
Definition validChoice (choice : value) : bool :=
  existsb (value_eqb choice) [Str "rock"; Str "paper"; Str "scissors"].

(** ** The game module with a round timeout ([part_000], second listing) *)

Module Game.

Definition CHOICE_TIME : Z := 20000.
Definition RECONNECTION_TIME : Z := 20000.

(** Entry of the module-level [connectedUsers]: [{ username, room, socketId }]. *)
Module User.
Record t : Type := mk { username : string; room : string; socketId : string }.
End User.

(** Entry of a room's [connectedUsers]: [{ username, socketId }]. *)
Module Seat.
Record t : Type := mk { username : string; socketId : string }.
End Seat.

Module RoomState.
Record t : Type := mk {
  connectedUsers : list Seat.t;
  scores : gmap string num;
  round : Z;
  choices : gmap string value;
  roundTimeout : option nat }.

Definition set_connectedUsers (f : list Seat.t -> list Seat.t) (r : t) : t :=
  mk (f (connectedUsers r)) (scores r) (round r) (choices r) (roundTimeout r).
Definition set_scores (f : gmap string num -> gmap string num) (r : t) : t :=
  mk (connectedUsers r) (f (scores r)) (round r) (choices r) (roundTimeout r).
Definition set_round (f : Z -> Z) (r : t) : t :=
  mk (connectedUsers r) (scores r) (f (round r)) (choices r) (roundTimeout r).
Definition set_choices (f : gmap string value -> gmap string value) (r : t) : t :=
  mk (connectedUsers r) (scores r) (round r) (f (choices r)) (roundTimeout r).
Definition set_roundTimeout (h : option nat) (r : t) : t :=
  mk (connectedUsers r) (scores r) (round r) (choices r) h.
End RoomState.

(** The two closures handed to [setTimeout]: the round timer of
    [startNextRound], which captures the room state object and the room
    name, and the grace timer of [markUserForReconnection]. *)
Inductive Callback : Type :=
| RoundExpiry (roomState : nat) (ROOM_NAME : string)
| GraceExpiry (username room : string).

Record World : Type := mkWorld {
  connectedUsers : list (string * User.t);   (* const connectedUsers = {} *)
  roomStates : gmap string nat;              (* const roomStates = {} *)
  heap : gmap nat RoomState.t;               (* the room state objects *)
  nextObject : nat;
  timers : list (nat * Callback);            (* pending timeouts *)
  nextTimer : nat;
  rooms : gmap string (list string);         (* rooms joined by each socket *)
  emitted : list Emit }.

Definition init : World := mkWorld [] ∅ ∅ 0 [] 0 ∅ [].

Definition set_connectedUsers (f : list (string * User.t) -> list (string * User.t))
    (w : World) : World :=
  mkWorld (f (connectedUsers w)) (roomStates w) (heap w) (nextObject w) (timers w)
          (nextTimer w) (rooms w) (emitted w).
Definition set_roomStates (f : gmap string nat -> gmap string nat) (w : World) : World :=
  mkWorld (connectedUsers w) (f (roomStates w)) (heap w) (nextObject w) (timers w)
          (nextTimer w) (rooms w) (emitted w).
Definition set_heap (f : gmap nat RoomState.t -> gmap nat RoomState.t) (w : World) : World :=
  mkWorld (connectedUsers w) (roomStates w) (f (heap w)) (nextObject w) (timers w)
          (nextTimer w) (rooms w) (emitted w).
Definition set_timers (f : list (nat * Callback) -> list (nat * Callback)) (w : World) : World :=
  mkWorld (connectedUsers w) (roomStates w) (heap w) (nextObject w) (f (timers w))
          (nextTimer w) (rooms w) (emitted w).
Definition set_rooms (f : gmap string (list string) -> gmap string (list string))
    (w : World) : World :=
  mkWorld (connectedUsers w) (roomStates w) (heap w) (nextObject w) (timers w)
          (nextTimer w) (f (rooms w)) (emitted w).

Definition emit (e : Emit) : M World unit :=
  modify (fun w => mkWorld (connectedUsers w) (roomStates w) (heap w) (nextObject w)
                           (timers w) (nextTimer w) (rooms w) (emitted w ++ [e])).

(** Reading and updating a room state object through a reference. *)
Definition readRoom (l : nat) : M World RoomState.t :=
  fun w => match heap w !! l with
           | Some rs => Ok rs w
           | None => TypeError
           end.

Definition updRoom (l : nat) (f : RoomState.t -> RoomState.t) : M World unit :=
  modify (set_heap (alter f l)).

Definition newRoom (rs : RoomState.t) : M World nat :=
  fun w => Ok (nextObject w)
              (mkWorld (connectedUsers w) (roomStates w) (<[nextObject w := rs]> (heap w))
                       (S (nextObject w)) (timers w) (nextTimer w) (rooms w) (emitted w)).

Definition setTimeout (cb : Callback) : M World nat :=
  fun w => Ok (nextTimer w)
              (mkWorld (connectedUsers w) (roomStates w) (heap w) (nextObject w)
                       (timers w ++ [(nextTimer w, cb)]) (S (nextTimer w)) (rooms w)
                       (emitted w)).

Definition clearTimeout (h : option nat) : M World unit :=
  modify (set_timers (clearTimer h)).

(** [socket.join(room)]; [socket.rooms] holds the socket's own id, the
    room every socket is in from its connection on, followed by the rooms
    it joined. *)
Definition join (socket room : string) : M World unit :=
  modify (set_rooms (fun m =>
    let joined := default [] (m !! socket) in
    if existsb (String.eqb room) joined then m else <[socket := joined ++ [room]]> m)).

Definition socket_rooms (socket : string) (w : World) : list string :=
  socket :: default [] (rooms w !! socket).

(** [roomState.connectedUsers.map(user => user.username)], destructured
    into [[player1, player2]]. *)
Definition playerAt (i : nat) (rs : RoomState.t) : value :=
  match RoomState.connectedUsers rs !! i with
  | Some s => Str (Seat.username s)
  | None => Undefined
  end.

(** [cleanupGame] *)
Definition cleanupGame (ROOM_NAME : string) : M World unit :=
  let! w := get in
  match roomStates w !! ROOM_NAME with
  | Some l =>
      let! roomState := readRoom l in
      clearTimeout (RoomState.roundTimeout roomState) ;;
      modify (set_roomStates (delete ROOM_NAME))
  | None => ret tt
  end.

(** [startNextRound]; the timer callback is [roundExpiry] below. *)
Definition startNextRound (ROOM_NAME : string) : M World unit :=
  let! w := get in
  match roomStates w !! ROOM_NAME with
  | Some l =>
      let! roomState := readRoom l in
      clearTimeout (RoomState.roundTimeout roomState) ;;
      let! h := setTimeout (RoundExpiry l ROOM_NAME) in
      updRoom l (RoomState.set_roundTimeout (Some h)) ;;
      let! roomState := readRoom l in
      emit (ToRoom ROOM_NAME "start-round"
              (StartRound (RoomState.round roomState) (CHOICE_TIME / 1000)))
  | None => throw
  end.

(** The body of [if (Object.keys(roomState.choices).length === 2) { ... }]
    in [handlePlayerChoice]. *)
Definition processRound (l : nat) (room : string) : M World unit :=
  let! roomState := readRoom l in
  let player1 := playerAt 0 roomState in
  let player2 := playerAt 1 roomState in
  let result := determineRoundWinner (prop (RoomState.choices roomState) player1)
                                     (prop (RoomState.choices roomState) player2) in
  let bump (p : value) :=
    updRoom l (RoomState.set_scores (fun sc => <[key p := incr (sc !! key p)]> sc)) in
  when (match result with player1 => true | _ => false end) (bump player1) ;;
  when (match result with player2 => true | _ => false end) (bump player2) ;;
  when (match result with tie => true | _ => false end) (bump player1 ;; bump player2) ;;
  let! roomState := readRoom l in
  emit (ToRoom room "round-result"
          (RoundResult (RoomState.round roomState) (RoomState.choices roomState) result
                       (RoomState.scores roomState))) ;;
  updRoom l (RoomState.set_choices (fun _ => ∅)) ;;
  updRoom l (RoomState.set_round (fun r => r + 1)) ;;
  let! roomState := readRoom l in
  let s1 := RoomState.scores roomState !! key player1 in
  let s2 := RoomState.scores roomState !! key player2 in
  if is5 s1 || is5 s2 then
    let winner := if is5 s1 then player1 else player2 in
    let winner := if num_strict_eq s1 s2 then Str "tie" else winner in
    emit (ToRoom room "game-over" (GameOver winner)) ;;
    cleanupGame room
  else
    startNextRound room.

(** [handlePlayerChoice]; [socket] is [None] for the call made by the
    round timer. *)
Definition handlePlayerChoice (socket : option string) (username : value) (room : string)
    (choice : value) : M World unit :=
  let! w := get in
  let roomState := roomStates w !! room in
  (* [roomStates[room]] is truthy for a listed room and for a name that
     [roomStates] inherits from [Object.prototype]; the [choices] of such
     a member are [undefined], so both uses of it below throw. *)
  let member := bool_decide (is_Some roomState) || existsb (String.eqb room) inherited in
  let rest : M World unit :=
    match roomState with
    | Some l =>
        when (truthy username)
             (updRoom l (RoomState.set_choices (<[key username := choice]>))) ;;
        let! rs := readRoom l in
        when (Nat.eqb (size (RoomState.choices rs)) 2) (processRound l room)
    | None => throw
    end in
  if negb member || negb (validChoice choice) then
    match socket with
    | Some s => emit (ToSocket s "exception" (Text "invalid choice or room"))
    | None => rest
    end
  else rest.

(** The callback of the round timer set by [startNextRound]. *)
Definition roundExpiry (l : nat) (ROOM_NAME : string) : M World unit :=
  let! roomState := readRoom l in
  let player1 := playerAt 0 roomState in
  let player2 := playerAt 1 roomState in
  when (negb (truthy (prop (RoomState.choices roomState) player1)))
       (updRoom l (RoomState.set_choices (<[key player1 := Str "rock"]>))) ;;
  let! roomState := readRoom l in
  when (negb (truthy (prop (RoomState.choices roomState) player2)))
       (updRoom l (RoomState.set_choices (<[key player2 := Str "rock"]>))) ;;
  handlePlayerChoice None Null ROOM_NAME Null.

(** The callback of the grace timer set by [markUserForReconnection]. *)
Definition graceExpiry (username room : string) : M World unit :=
  let! w := get in
  let roomToDisconnectFrom := roomStates w !! room in
  let seated (l : nat) : bool :=
    match heap w !! l with
    | Some rs => existsb (fun user => String.eqb (Seat.username user) username)
                         (RoomState.connectedUsers rs)
    | None => false
    end in
  if negb (from_option seated false roomToDisconnectFrom) then
    modify (set_connectedUsers
              (List.filter (fun e => negb (String.eqb (User.username (snd e)) username)))) ;;
    match roomToDisconnectFrom with
    | Some l =>
        let! rs := readRoom l in
        match RoomState.connectedUsers rs with
        | first :: _ =>
            emit (ToRoom room "game-over" (GameOver (Str (Seat.username first))))
        | [] => ret tt
        end ;;
        cleanupGame room
    | None => ret tt
    end
  else ret tt.

(** [markUserForReconnection] *)
Definition markUserForReconnection (username room : string) : M World unit :=
  let! w := get in
  match roomStates w !! room with
  | Some l =>
      updRoom l (RoomState.set_connectedUsers
                   (List.filter (fun user => negb (String.eqb (Seat.username user) username))))
  | None => ret tt
  end ;;
  let! _ := setTimeout (GraceExpiry username room) in
  ret tt.

(** The arrow function [handleDisconnecting] runs on each room of the
    socket. *)
Definition disconnectingFrom (socket room : string) : M World unit :=
  let! w := get in
  match Obj.get socket (connectedUsers w) with
  | Some user =>
      emit (ToRoom room "room-event:disconnect"
              (Text (User.username user +:+ " disconnected from " +:+ room))) ;;
      markUserForReconnection (User.username user) room
  | None => ret tt
  end.

(** [handleDisconnecting] *)
Definition handleDisconnecting (socket : string) : M World unit :=
  let! w := get in
  forEach (socket_rooms socket w) (disconnectingFrom socket).

(** [handleConnectToRoom] *)
Definition handleConnectToRoom (socket : string) (username room : value) : M World unit :=
  if negb (truthy username) || negb (truthy room)
     || (Z.of_nat (String.length (key room)) <=? 4) then
    emit (ToSocket socket "exception" (Text "invalid room or username"))
  else
    let username := key username in
    let room := key room in
    let ROOM_NAME := "room:" +:+ room in
    let fresh := User.mk username room socket in
    let rest : M World unit :=
      let! w := get in
      let isReconnecting :=
        existsb (fun user => String.eqb (User.username user) username
                             && String.eqb (User.room user) room)
                (Obj.values (connectedUsers w)) in
      (if isReconnecting then
         let oldSocketId :=
           List.find (fun id => match Obj.get id (connectedUsers w) with
                                | Some user => String.eqb (User.username user) username
                                | None => false
                                end)
                     (Obj.keys (connectedUsers w)) in
         match oldSocketId with
         | Some id => when (negb (String.eqb id ""))
                            (modify (set_connectedUsers (Obj.del id)))
         | None => ret tt
         end ;;
         modify (set_connectedUsers (Obj.set socket fresh)) ;;
         emit (ToSocket socket "room-event:reconnect"
                 (Text (username +:+ " rejoined " +:+ ROOM_NAME)))
       else
         modify (set_connectedUsers (Obj.set socket fresh))) ;;
      let! w := get in
      match roomStates w !! ROOM_NAME with
      | None =>
          let! l := newRoom (RoomState.mk [Seat.mk username socket] {[ username := Num 0 ]}
                                          1 ∅ None) in
          modify (set_roomStates (<[ROOM_NAME := l]>))
      | Some l =>
          updRoom l (RoomState.set_connectedUsers
                       (fun us => us ++ [Seat.mk username socket])) ;;
          updRoom l (RoomState.set_scores (<[username := Num 0]>))
      end ;;
      emit (ToRoom ROOM_NAME "room-event:join"
              (Text (username +:+ " joined " +:+ ROOM_NAME))) ;;
      let! w := get in
      match roomStates w !! ROOM_NAME with
      | Some l =>
          let! rs := readRoom l in
          when (Nat.eqb (length (RoomState.connectedUsers rs)) 2)
               (emit (ToRoom ROOM_NAME "room-event:ready"
                        (Text "players are ready, waiting for choice")) ;;
                startNextRound ROOM_NAME)
      | None => throw
      end in
    join socket ROOM_NAME ;;
    let! w := get in
    match roomStates w !! ROOM_NAME with
    | Some l =>
        let! rs := readRoom l in
        match RoomState.connectedUsers rs with
        | first :: _ => if String.eqb (Seat.socketId first) socket then ret tt else rest
        | [] => throw
        end
    | None => rest
    end.

(** *** The event loop *)

Inductive Event : Type :=
| ConnectToRoom (socket : string) (username room : value)
| PlayerChoice (socket : string) (username : value) (room : string) (choice : value)
| Disconnecting (socket : string)
| Fire (timer : nat).

Definition runCallback (cb : Callback) : M World unit :=
  match cb with
  | RoundExpiry l ROOM_NAME => roundExpiry l ROOM_NAME
  | GraceExpiry username room => graceExpiry username room
  end.

(** One turn of the event loop.  A timeout that is no longer pending does
    not fire; the transport empties [socket.rooms] after the
    ["disconnecting"] listeners have run. *)
Definition step (e : Event) : M World unit :=
  match e with
  | ConnectToRoom socket username room => handleConnectToRoom socket username room
  | PlayerChoice socket username room choice =>
      handlePlayerChoice (Some socket) username room choice
  | Disconnecting socket =>
      handleDisconnecting socket ;; modify (set_rooms (delete socket))
  | Fire t =>
      let! w := get in
      match pending t (timers w) with
      | Some cb => clearTimeout (Some t) ;; runCallback cb
      | None => ret tt
      end
  end.

Definition run (es : list Event) : M World unit := forEach es step.

End Game.

(** ** The game module with the pause flag and countdown ([part_000], first listing) *)

Module Paused.

Definition CHOICE_TIME : Z := 1000.
Definition RECONNECTION_TIME : Z := 20000.

Module User.
Record t : Type := mk { username : string; room : string; socketId : string }.
End User.

Module Seat.
Record t : Type := mk { username : string; socketId : string }.
End Seat.

Module RoomState.
Record t : Type := mk {
  connectedUsers : list Seat.t;
  scores : gmap string num;
  round : Z;
  choices : gmap string value;
  roundTimeout : option nat;
  paused : bool }.

Definition set_connectedUsers (f : list Seat.t -> list Seat.t) (r : t) : t :=
  mk (f (connectedUsers r)) (scores r) (round r) (choices r) (roundTimeout r) (paused r).
Definition set_scores (f : gmap string num -> gmap string num) (r : t) : t :=
  mk (connectedUsers r) (f (scores r)) (round r) (choices r) (roundTimeout r) (paused r).
Definition set_round (f : Z -> Z) (r : t) : t :=
  mk (connectedUsers r) (scores r) (f (round r)) (choices r) (roundTimeout r) (paused r).
Definition set_choices (f : gmap string value -> gmap string value) (r : t) : t :=
  mk (connectedUsers r) (scores r) (round r) (f (choices r)) (roundTimeout r) (paused r).
Definition set_roundTimeout (h : option nat) (r : t) : t :=
  mk (connectedUsers r) (scores r) (round r) (choices r) h (paused r).
Definition set_paused (b : bool) (r : t) : t :=
  mk (connectedUsers r) (scores r) (round r) (choices r) (roundTimeout r) b.
End RoomState.

(** The closure handed to [setInterval] by [startNextRound], with the
    current value of its variable [remainingTime], and the grace timer. *)
Inductive Callback : Type :=
| Countdown (roomState : nat) (ROOM_NAME : string) (remainingTime : Z)
| GraceExpiry (username room : string).

Record World : Type := mkWorld {
  connectedUsers : list (string * User.t);
  roomStates : gmap string nat;
  heap : gmap nat RoomState.t;
  nextObject : nat;
  timers : list (nat * Callback);            (* pending intervals and timeouts *)
  nextTimer : nat;
  rooms : gmap string (list string);
  emitted : list Emit }.

Definition init : World := mkWorld [] ∅ ∅ 0 [] 0 ∅ [].

Definition set_connectedUsers (f : list (string * User.t) -> list (string * User.t))
    (w : World) : World :=
  mkWorld (f (connectedUsers w)) (roomStates w) (heap w) (nextObject w) (timers w)
          (nextTimer w) (rooms w) (emitted w).
Definition set_roomStates (f : gmap string nat -> gmap string nat) (w : World) : World :=
  mkWorld (connectedUsers w) (f (roomStates w)) (heap w) (nextObject w) (timers w)
          (nextTimer w) (rooms w) (emitted w).
Definition set_heap (f : gmap nat RoomState.t -> gmap nat RoomState.t) (w : World) : World :=
  mkWorld (connectedUsers w) (roomStates w) (f (heap w)) (nextObject w) (timers w)
          (nextTimer w) (rooms w) (emitted w).
Definition set_timers (f : list (nat * Callback) -> list (nat * Callback)) (w : World) : World :=
  mkWorld (connectedUsers w) (roomStates w) (heap w) (nextObject w) (f (timers w))
          (nextTimer w) (rooms w) (emitted w).
Definition set_rooms (f : gmap string (list string) -> gmap string (list string))
    (w : World) : World :=
  mkWorld (connectedUsers w) (roomStates w) (heap w) (nextObject w) (timers w)
          (nextTimer w) (f (rooms w)) (emitted w).

Definition emit (e : Emit) : M World unit :=
  modify (fun w => mkWorld (connectedUsers w) (roomStates w) (heap w) (nextObject w)
                           (timers w) (nextTimer w) (rooms w) (emitted w ++ [e])).

Definition readRoom (l : nat) : M World RoomState.t :=
  fun w => match heap w !! l with
           | Some rs => Ok rs w
           | None => TypeError
           end.

Definition updRoom (l : nat) (f : RoomState.t -> RoomState.t) : M World unit :=
  modify (set_heap (alter f l)).

Definition newRoom (rs : RoomState.t) : M World nat :=
  fun w => Ok (nextObject w)
              (mkWorld (connectedUsers w) (roomStates w) (<[nextObject w := rs]> (heap w))
                       (S (nextObject w)) (timers w) (nextTimer w) (rooms w) (emitted w)).

(** [setInterval] and [setTimeout] both add a pending entry. *)
Definition setTimer (cb : Callback) : M World nat :=
  fun w => Ok (nextTimer w)
              (mkWorld (connectedUsers w) (roomStates w) (heap w) (nextObject w)
                       (timers w ++ [(nextTimer w, cb)]) (S (nextTimer w)) (rooms w)
                       (emitted w)).

Definition clearInterval (h : option nat) : M World unit :=
  modify (set_timers (clearTimer h)).

Definition join (socket room : string) : M World unit :=
  modify (set_rooms (fun m =>
    let joined := default [] (m !! socket) in
    if existsb (String.eqb room) joined then m else <[socket := joined ++ [room]]> m)).

Definition socket_rooms (socket : string) (w : World) : list string :=
  socket :: default [] (rooms w !! socket).

Definition playerAt (i : nat) (rs : RoomState.t) : value :=
  match RoomState.connectedUsers rs !! i with
  | Some s => Str (Seat.username s)
  | None => Undefined
  end.

(** [!scores[username]]: a missing entry, [0] and [NaN] are falsy. *)
Definition score_falsy (s : option num) : bool :=
  match s with
  | Some (Num z) => Z.eqb z 0
  | _ => true
  end.

(** [cleanupGame] *)
Definition cleanupGame (ROOM_NAME : string) : M World unit :=
  let! w := get in
  match roomStates w !! ROOM_NAME with
  | Some l =>
      let! roomState := readRoom l in
      clearInterval (RoomState.roundTimeout roomState) ;;
      forEach (RoomState.connectedUsers roomState) (fun user =>
        modify (set_connectedUsers (Obj.del (Seat.socketId user)))) ;;
      modify (set_roomStates (delete ROOM_NAME))
  | None => ret tt
  end.

(** [startNextRound]; the interval callback is [countdown] below. *)
Definition startNextRound (ROOM_NAME : string) : M World unit :=
  let! w := get in
  match roomStates w !! ROOM_NAME with
  | Some l =>
      let! roomState := readRoom l in
      if RoomState.paused roomState then ret tt
      else
        let remainingTime := CHOICE_TIME / 1000 in
        clearInterval (RoomState.roundTimeout roomState) ;;
        let! h := setTimer (Countdown l ROOM_NAME remainingTime) in
        updRoom l (RoomState.set_roundTimeout (Some h))
  | None => throw
  end.

Definition processRound (l : nat) (room : string) : M World unit :=
  let! roomState := readRoom l in
  let player1 := playerAt 0 roomState in
  let player2 := playerAt 1 roomState in
  let result := determineRoundWinner (prop (RoomState.choices roomState) player1)
                                     (prop (RoomState.choices roomState) player2) in
  let bump (p : value) :=
    updRoom l (RoomState.set_scores (fun sc => <[key p := incr (sc !! key p)]> sc)) in
  when (match result with player1 => true | _ => false end) (bump player1) ;;
  when (match result with player2 => true | _ => false end) (bump player2) ;;
  when (match result with tie => true | _ => false end) (bump player1 ;; bump player2) ;;
  let! roomState := readRoom l in
  emit (ToRoom room "room-event:round-result"
          (RoundResult (RoomState.round roomState) (RoomState.choices roomState) result
                       (RoomState.scores roomState))) ;;
  updRoom l (RoomState.set_choices (fun _ => ∅)) ;;
  updRoom l (RoomState.set_round (fun r => r + 1)) ;;
  let! roomState := readRoom l in
  let s1 := RoomState.scores roomState !! key player1 in
  let s2 := RoomState.scores roomState !! key player2 in
  if is5 s1 || is5 s2 then
    let winner := if is5 s1 then player1 else player2 in
    let winner := if num_strict_eq s1 s2 then Str "tie" else winner in
    emit (ToRoom room "room-event:game-over" (GameOver winner)) ;;
    cleanupGame room
  else
    startNextRound room.

Definition handlePlayerChoice (socket : option string) (username : value) (room : string)
    (choice : value) : M World unit :=
  let! w := get in
  let roomState := roomStates w !! room in
  (* [roomStates[room]] is truthy for a listed room and for a name that
     [roomStates] inherits from [Object.prototype]; the [choices] of such
     a member are [undefined], so both uses of it below throw. *)
  let member := bool_decide (is_Some roomState) || existsb (String.eqb room) inherited in
  let rest : M World unit :=
    match roomState with
    | Some l =>
        when (truthy username)
             (updRoom l (RoomState.set_choices (<[key username := choice]>))) ;;
        let! rs := readRoom l in
        when (Nat.eqb (size (RoomState.choices rs)) 2) (processRound l room)
    | None => throw
    end in
  if negb member || negb (validChoice choice) then
    match socket with
    | Some s => emit (ToSocket s "exception" (Text "invalid choice or room"))
    | None => rest
    end
  else rest.

(** One tick of the interval [t] set by [startNextRound]; the decrement
    of [remainingTime] is written back to the pending entry. *)
Definition countdown (t l : nat) (ROOM_NAME : string) (remainingTime : Z) : M World unit :=
  let! roomState := readRoom l in
  if RoomState.paused roomState then ret tt
  else
    emit (ToRoom ROOM_NAME "room-event:round-timer" (RoundTimer remainingTime)) ;;
    let remainingTime := remainingTime - 1 in
    modify (set_timers (map (fun p =>
      if Nat.eqb (fst p) t then (t, Countdown l ROOM_NAME remainingTime) else p))) ;;
    when (remainingTime <=? 0)
      (clearInterval (RoomState.roundTimeout roomState) ;;
       let player1 := playerAt 0 roomState in
       let player2 := playerAt 1 roomState in
       when (negb (truthy (prop (RoomState.choices roomState) player1)))
            (updRoom l (RoomState.set_choices (<[key player1 := Str "rock"]>))) ;;
       let! roomState := readRoom l in
       when (negb (truthy (prop (RoomState.choices roomState) player2)))
            (updRoom l (RoomState.set_choices (<[key player2 := Str "rock"]>))) ;;
       handlePlayerChoice None Null ROOM_NAME Null).

Definition graceExpiry (username room : string) : M World unit :=
  let! w := get in
  let roomToDisconnectFrom := roomStates w !! room in
  let seated (l : nat) : bool :=
    match heap w !! l with
    | Some rs => existsb (fun user => String.eqb (Seat.username user) username)
                         (RoomState.connectedUsers rs)
    | None => false
    end in
  let isUserStillDisconnected := negb (from_option seated false roomToDisconnectFrom) in
  if isUserStillDisconnected then
    modify (set_connectedUsers
              (List.filter (fun e => negb (String.eqb (User.username (snd e)) username)))) ;;
    match roomToDisconnectFrom with
    | Some l =>
        let! rs := readRoom l in
        match RoomState.connectedUsers rs with
        | first :: _ =>
            emit (ToRoom room "room-event:game-over" (GameOver (Str (Seat.username first))))
        | [] => ret tt
        end ;;
        cleanupGame room
    | None => ret tt
    end
  else ret tt.

Definition markUserForReconnection (username room : string) : M World unit :=
  let! w := get in
  match roomStates w !! room with
  | Some l =>
      updRoom l (RoomState.set_connectedUsers
                   (List.filter (fun user => negb (String.eqb (Seat.username user) username))))
  | None => ret tt
  end ;;
  let! _ := setTimer (GraceExpiry username room) in
  ret tt.

(** The arrow function [handleDisconnecting] runs on each room of the
    socket. *)
Definition disconnectingFrom (socket room : string) : M World unit :=
  let! w := get in
  match Obj.get socket (connectedUsers w) with
  | Some user =>
      emit (ToRoom room "room-event:disconnect"
              (Text (User.username user +:+ " disconnected from " +:+ room))) ;;
      match roomStates w !! room with
      | Some l =>
          updRoom l (RoomState.set_paused true) ;;
          let! roomState := readRoom l in
          clearInterval (RoomState.roundTimeout roomState) ;;
          markUserForReconnection (User.username user) room
      | None => ret tt
      end
  | None => ret tt
  end.

Definition handleDisconnecting (socket : string) : M World unit :=
  let! w := get in
  forEach (socket_rooms socket w) (disconnectingFrom socket).

Definition handleConnectToRoom (socket : string) (username room : value) : M World unit :=
  if negb (truthy username) || negb (truthy room)
     || (Z.of_nat (String.length (key room)) <=? 4) then
    emit (ToSocket socket "exception" (Text "invalid room or username"))
  else
    let username := key username in
    let room := key room in
    let ROOM_NAME := "room:" +:+ room in
    let fresh := User.mk username room socket in
    let rest : M World unit :=
      let! w := get in
      let isReconnecting :=
        existsb (fun user => String.eqb (User.username user) username
                             && String.eqb (User.room user) room)
                (Obj.values (connectedUsers w)) in
      (if isReconnecting then
         let oldSocketId :=
           List.find (fun id => match Obj.get id (connectedUsers w) with
                                | Some user => String.eqb (User.username user) username
                                | None => false
                                end)
                     (Obj.keys (connectedUsers w)) in
         match oldSocketId with
         | Some id => when (negb (String.eqb id ""))
                            (modify (set_connectedUsers (Obj.del id)))
         | None => ret tt
         end ;;
         modify (set_connectedUsers (Obj.set socket fresh)) ;;
         emit (ToSocket socket "room-event:reconnect"
                 (Text (username +:+ " rejoined " +:+ ROOM_NAME))) ;;
         let! w := get in
         match roomStates w !! ROOM_NAME with
         | Some l => updRoom l (RoomState.set_paused false)
         | None => throw
         end
       else
         modify (set_connectedUsers (Obj.set socket fresh))) ;;
      let! w := get in
      match roomStates w !! ROOM_NAME with
      | None =>
          let! l := newRoom (RoomState.mk [Seat.mk username socket] {[ username := Num 0 ]}
                                          1 ∅ None false) in
          modify (set_roomStates (<[ROOM_NAME := l]>))
      | Some l =>
          updRoom l (RoomState.set_connectedUsers
                       (fun us => us ++ [Seat.mk username socket])) ;;
          let! rs := readRoom l in
          when (score_falsy (RoomState.scores rs !! username))
               (updRoom l (RoomState.set_scores (<[username := Num 0]>)))
      end ;;
      emit (ToRoom ROOM_NAME "room-event:join"
              (Text (username +:+ " joined " +:+ ROOM_NAME))) ;;
      let! w := get in
      match roomStates w !! ROOM_NAME with
      | Some l =>
          let! rs := readRoom l in
          when (Nat.eqb (length (RoomState.connectedUsers rs)) 2)
               (emit (ToRoom ROOM_NAME "room-event:ready"
                        (Text "players are ready, waiting for choice")) ;;
                startNextRound ROOM_NAME)
      | None => throw
      end in
    join socket ROOM_NAME ;;
    let! w := get in
    match roomStates w !! ROOM_NAME with
    | Some l =>
        let! rs := readRoom l in
        match RoomState.connectedUsers rs with
        | first :: _ => if String.eqb (Seat.socketId first) socket then ret tt else rest
        | [] => rest
        end
    | None => rest
    end.

Inductive Event : Type :=
| ConnectToRoom (socket : string) (username room : value)
| PlayerChoice (socket : string) (username : value) (room : string) (choice : value)
| Disconnecting (socket : string)
| Fire (timer : nat).

(** One turn of the event loop: an interval stays pending after a tick
    unless its callback clears it, a timeout is removed before it runs. *)
Definition step (e : Event) : M World unit :=
  match e with
  | ConnectToRoom socket username room => handleConnectToRoom socket username room
  | PlayerChoice socket username room choice =>
      handlePlayerChoice (Some socket) username room choice
  | Disconnecting socket =>
      handleDisconnecting socket ;; modify (set_rooms (delete socket))
  | Fire t =>
      let! w := get in
      match pending t (timers w) with
      | Some (Countdown l ROOM_NAME remainingTime) => countdown t l ROOM_NAME remainingTime
      | Some (GraceExpiry username room) =>
          clearInterval (Some t) ;; graceExpiry username room
      | None => ret tt
      end
  end.

Definition run (es : list Event) : M World unit := forEach es step.

End Paused.

(** ** The lobby of [socket.js] *)

Module Lobby.

Module User.
Record t : Type := mk { username : string; room : string }.
End User.

(** A room state is [{ connected_users: [...] }], a list of socket ids. *)
Record World : Type := mkWorld {
  connectedUsers : gmap string User.t;
  roomStates : gmap string (list string);
  rooms : gmap string (list string);
  emitted : list Emit }.

Definition init : World := mkWorld ∅ ∅ ∅ [].

Definition set_connectedUsers (f : gmap string User.t -> gmap string User.t)
    (w : World) : World :=
  mkWorld (f (connectedUsers w)) (roomStates w) (rooms w) (emitted w).
Definition set_roomStates (f : gmap string (list string) -> gmap string (list string))
    (w : World) : World :=
  mkWorld (connectedUsers w) (f (roomStates w)) (rooms w) (emitted w).
Definition set_rooms (f : gmap string (list string) -> gmap string (list string))
    (w : World) : World :=
  mkWorld (connectedUsers w) (roomStates w) (f (rooms w)) (emitted w).

Definition emit (e : Emit) : M World unit :=
  modify (fun w => mkWorld (connectedUsers w) (roomStates w) (rooms w) (emitted w ++ [e])).

Definition join (socket room : string) : M World unit :=
  modify (set_rooms (fun m =>
    let joined := default [] (m !! socket) in
    if existsb (String.eqb room) joined then m else <[socket := joined ++ [room]]> m)).

Definition socket_rooms (socket : string) (w : World) : list string :=
  socket :: default [] (rooms w !! socket).

(** [removeUserFromRoom] *)
Definition removeUserFromRoom (socketId room : string) : M World unit :=
  let! w := get in
  match roomStates w !! room with
  | Some connected_users =>
      let connected_users :=
        List.filter (fun id => negb (String.eqb id socketId)) connected_users in
      modify (set_roomStates (<[room := connected_users]>)) ;;
      when (Nat.eqb (length connected_users) 0) (modify (set_roomStates (delete room)))
  | None => ret tt
  end.

(** [handleConnectToRoom]; [msg.room.length] throws on a missing room. *)
Definition handleConnectToRoom (socket : string) (username room : value) : M World unit :=
  let reject (text : string) := emit (ToSocket socket "exception" (Text text)) in
  let checked : M World unit :=
    let ROOM_NAME := "room:" +:+ key room in
    let! w := get in
    if bool_decide (is_Some (connectedUsers w !! socket)) then reject "already in a room"
    else if Nat.leb 2 (length (default [] (roomStates w !! ROOM_NAME))) then reject "room full"
    else
      join socket ROOM_NAME ;;
      modify (set_connectedUsers (<[socket := User.mk (key username) (key room)]>)) ;;
      modify (set_roomStates (fun m => <[ROOM_NAME := default [] (m !! ROOM_NAME)]> m)) ;;
      modify (set_roomStates (fun m =>
        <[ROOM_NAME := default [] (m !! ROOM_NAME) ++ [socket]]> m)) ;;
      emit (ToRoom ROOM_NAME "room-event:join"
              (Text (key username +:+ " joined " +:+ ROOM_NAME))) ;;
      let! w := get in
      when (Nat.eqb (length (default [] (roomStates w !! ROOM_NAME))) 2)
           (emit (ToRoom ROOM_NAME "room-event:ready"
                    (Text "players are ready, waiting for choice"))) in
  if negb (truthy username) then reject "something went wrong"
  else
    match room with
    | Str s => if Z.of_nat (String.length s) <=? 4 then reject "something went wrong"
               else checked
    | _ => throw
    end.

(** The arrow function [handleDisconnecting] runs on each room of the
    socket. *)
Definition disconnectingFrom (socket room : string) : M World unit :=
  let! w := get in
  match connectedUsers w !! socket with
  | Some user =>
      emit (ToRoom room "room-event:disconnect"
              (Text (User.username user +:+ " left " +:+ room))) ;;
      removeUserFromRoom socket room
  | None => ret tt
  end.

(** [handleDisconnecting] *)
Definition handleDisconnecting (socket : string) : M World unit :=
  let! w := get in
  forEach (socket_rooms socket w) (disconnectingFrom socket) ;;
  modify (set_connectedUsers (delete socket)).

Inductive Event : Type :=
| ConnectToRoom (socket : string) (username room : value)
| Disconnecting (socket : string).

Definition step (e : Event) : M World unit :=
  match e with
  | ConnectToRoom socket username room => handleConnectToRoom socket username room
  | Disconnecting socket =>
      handleDisconnecting socket ;; modify (set_rooms (delete socket))
  end.

Definition run (es : list Event) : M World unit := forEach es step.

End Lobby.

(** ** Vocabulary of the statements *)

(** The three valid choices and the beats relation of the rules: rock
    beats scissors, scissors beats paper, paper beats rock. *)
Inductive Choice : Type := rock | paper | scissors.

Definition choice_value (c : Choice) : value :=
  match c with
  | rock => Str "rock"
  | paper => Str "paper"
  | scissors => Str "scissors"
  end.

Definition beats (a b : Choice) : bool :=
  match a, b with
  | rock, scissors | scissors, paper | paper, rock => true
  | _, _ => false
  end.

(** A handler preserves a predicate on the state when every run that
    returns leaves it established. *)
Definition preserves {S A} (P : S -> Prop) (m : M S A) : Prop :=
  forall s a s', P s -> m s = Ok a s' -> P s'.

(** Closed forms of one round of [Game]. *)
Module GameRound.
Import Game.

(** The room state once [roomState.choices[username] = choice] has run
    (it is skipped for a falsy username). *)
Definition recorded (u c : value) (rs : RoomState.t) : RoomState.t :=
  if truthy u then RoomState.set_choices (<[key u := c]>) rs else rs.

Definition withChoices (ch : gmap string value) (rs : RoomState.t) : RoomState.t :=
  RoomState.set_choices (fun _ => ch) rs.

(** The scoreboard after the increments of a round. *)
Definition bump (p : value) (sc : gmap string num) : gmap string num :=
  <[key p := incr (sc !! key p)]> sc.

Definition scoresAfter (result : Result) (p1 p2 : value) (sc : gmap string num)
    : gmap string num :=
  match result with
  | player1 => bump p1 sc
  | player2 => bump p2 sc
  | tie => bump p2 (bump p1 sc)
  end.

Definition roundResult (rs : RoomState.t) : Result :=
  determineRoundWinner (prop (RoomState.choices rs) (playerAt 0 rs))
                       (prop (RoomState.choices rs) (playerAt 1 rs)).

Definition roundWinner (s1 s2 : option num) (p1 p2 : value) : value :=
  if num_strict_eq s1 s2 then Str "tie" else if is5 s1 then p1 else p2.

Definition announced (r : string) (rs : RoomState.t) : Emit :=
  ToRoom r "round-result"
    (RoundResult (RoomState.round rs) (RoomState.choices rs) (roundResult rs)
       (scoresAfter (roundResult rs) (playerAt 0 rs) (playerAt 1 rs) (RoomState.scores rs))).

(** The world [processRound] leaves behind. *)
Definition roundOutcome (r : string) (l : nat) (rs : RoomState.t) (w : World) : World :=
  let p1 := playerAt 0 rs in
  let p2 := playerAt 1 rs in
  let sc := scoresAfter (roundResult rs) p1 p2 (RoomState.scores rs) in
  let rs' := RoomState.mk (RoomState.connectedUsers rs) sc (RoomState.round rs + 1) ∅
                          (RoomState.roundTimeout rs) in
  if is5 (sc !! key p1) || is5 (sc !! key p2) then
    mkWorld (connectedUsers w) (delete r (roomStates w)) (<[l := rs']> (heap w))
            (nextObject w) (clearTimer (RoomState.roundTimeout rs) (timers w))
            (nextTimer w) (rooms w)
            (emitted w ++ [announced r rs;
               ToRoom r "game-over"
                 (GameOver (roundWinner (sc !! key p1) (sc !! key p2) p1 p2))])
  else
    mkWorld (connectedUsers w) (roomStates w)
            (<[l := RoomState.set_roundTimeout (Some (nextTimer w)) rs']> (heap w))
            (nextObject w)
            (clearTimer (RoomState.roundTimeout rs) (timers w)
               ++ [(nextTimer w, RoundExpiry l r)])
            (S (nextTimer w)) (rooms w)
            (emitted w ++ [announced r rs;
               ToRoom r "start-round" (StartRound (RoomState.round rs + 1) 20)]).

(** The choices once the round timer has filled in ["rock"] for the
    seats without one. *)
Definition withDefaults (rs : RoomState.t) : gmap string value :=
  let ch := RoomState.choices rs in
  let ch := if truthy (prop ch (playerAt 0 rs)) then ch
            else <[key (playerAt 0 rs) := Str "rock"]> ch in
  if truthy (prop ch (playerAt 1 rs)) then ch
  else <[key (playerAt 1 rs) := Str "rock"]> ch.


(** [connectedUsers.some(user => user.username === username)] *)
Definition seatedAs (username : string) (rs : RoomState.t) : bool :=
  existsb (fun user => String.eqb (Seat.username user) username)
          (RoomState.connectedUsers rs).

(** The registry without the entries of a username. *)
Definition purge (username : string) (reg : list (string * User.t))
    : list (string * User.t) :=
  List.filter (fun e => negb (String.eqb (User.username (snd e)) username)) reg.

(** The game-over broadcast of a grace expiry: the first remaining seat
    wins, nothing is sent to an empty room. *)
Definition forfeit (room : string) (rs : RoomState.t) : list Emit :=
  match RoomState.connectedUsers rs with
  | first :: _ => [ToRoom room "game-over" (GameOver (Str (Seat.username first)))]
  | [] => []
  end.

(** The world a list of events leaves behind, the starting world itself
    when a handler throws. *)
Definition after (es : list Event) (w : World) : World :=
  match run es w with
  | Ok _ w' => w'
  | TypeError => w
  end.

End GameRound.

(** Scenarios: alice and bob join room ["abcde"] on sockets ["sa"] and
    ["sb"].  The worlds are the results of running the events. *)
Module Scenario.
Import Game GameRound.

Definition room : string := "room:abcde".

Definition joins : list Event :=
  [ConnectToRoom "sa" (Str "alice") (Str "abcde");
   ConnectToRoom "sb" (Str "bob") (Str "abcde")].

(** Both players are seated and round 1 is running. *)
Definition seated : World := Eval vm_compute in after joins init.

Definition seatedRoom : RoomState.t :=
  RoomState.mk [Seat.mk "alice" "sa"; Seat.mk "bob" "sb"]
               {[ "alice" := Num 0; "bob" := Num 0 ]} 1 ∅ (Some 0%nat).

(** Alice has submitted rock, bob has not chosen yet. *)
Definition aliceChose : World :=
  Eval vm_compute in after [PlayerChoice "sa" (Str "alice") room (Str "rock")] seated.

Definition aliceChoseRoom : RoomState.t :=
  RoomState.mk [Seat.mk "alice" "sa"; Seat.mk "bob" "sb"]
               {[ "alice" := Num 0; "bob" := Num 0 ]} 1 {[ "alice" := Str "rock" ]}
               (Some 0%nat).

(** Alice leads 4 to 0 after four rounds of rock against scissors and
    has submitted rock again. *)
Definition aliceWins : list Event :=
  [PlayerChoice "sa" (Str "alice") room (Str "rock");
   PlayerChoice "sb" (Str "bob") room (Str "scissors")].

Definition matchPoint : World :=
  Eval vm_compute in
    after (aliceWins ++ aliceWins ++ aliceWins ++ aliceWins
           ++ [PlayerChoice "sa" (Str "alice") room (Str "rock")]) seated.

Definition matchPointRoom : RoomState.t :=
  RoomState.mk [Seat.mk "alice" "sa"; Seat.mk "bob" "sb"]
               {[ "alice" := Num 4; "bob" := Num 0 ]} 5 {[ "alice" := Str "rock" ]}
               (Some 4%nat).

Definition gameOver : World :=
  Eval vm_compute in after [PlayerChoice "sb" (Str "bob") room (Str "scissors")] matchPoint.

(** Bob has left and his grace period is running; then the round timer
    fires. *)
Definition bobLeft : World := Eval vm_compute in after [Disconnecting "sb"] seated.

Definition bobLeftRoom : RoomState.t :=
  RoomState.mk [Seat.mk "alice" "sa"] {[ "alice" := Num 0; "bob" := Num 0 ]} 1 ∅
               (Some 0%nat).

Definition resolvedAlone : World := Eval vm_compute in after [Fire 0] bobLeft.

(** A third player joins the running game. *)
Definition thirdJoin : Event := ConnectToRoom "sc" (Str "carol") (Str "abcde").

Definition crowded : World := Eval vm_compute in after [thirdJoin] seated.

(** Alice wins round 1, loses her connection and comes back on a new
    socket. *)
Definition aliceLeft : World :=
  Eval vm_compute in after (aliceWins ++ [Disconnecting "sa"]) seated.

Definition rejoin : Event := ConnectToRoom "sa2" (Str "alice") (Str "abcde").

Definition rejoined : World := Eval vm_compute in after [rejoin] aliceLeft.

(** Both players leave; the round timer and the grace timers of bob fire
    (timers 0, 1 and 2), which tears the room down.  Then carol and dave
    open a room of the same name and the grace timers of alice fire
    (timers 3 and 4). *)
Definition bothLeave : list Event :=
  [Disconnecting "sb"; Disconnecting "sa"; Fire 0; Fire 1; Fire 2].

Definition tornDown : World := Eval vm_compute in after bothLeave seated.

Definition newGame : list Event :=
  [ConnectToRoom "sc" (Str "carol") (Str "abcde");
   ConnectToRoom "sd" (Str "dave") (Str "abcde");
   Fire 3].

Definition reopened : World := Eval vm_compute in after newGame tornDown.

Definition staleGrace : World := Eval vm_compute in after [Fire 4] reopened.

End Scenario.

(** The same scenarios on the module with the pause flag. *)
Module PausedScenario.
Import Paused.

Definition after (es : list Event) (w : World) : World :=
  match run es w with
  | Ok _ w' => w'
  | TypeError => w
  end.

Definition room : string := "room:abcde".

Definition joins : list Event :=
  [ConnectToRoom "sa" (Str "alice") (Str "abcde");
   ConnectToRoom "sb" (Str "bob") (Str "abcde")].

Definition seated : World := Eval vm_compute in after joins init.

Definition aliceWins : list Event :=
  [PlayerChoice "sa" (Str "alice") room (Str "rock");
   PlayerChoice "sb" (Str "bob") room (Str "scissors")].

Definition aliceLeft : World :=
  Eval vm_compute in after (aliceWins ++ [Disconnecting "sa"]) seated.

Definition rejoin : Event := ConnectToRoom "sa2" (Str "alice") (Str "abcde").

Definition rejoined : World := Eval vm_compute in after [rejoin] aliceLeft.

Definition bobLeft : World := Eval vm_compute in after [Disconnecting "sb"] seated.

End PausedScenario.

(** The first two joins of the scenarios in the lobby. *)
Module LobbyScenario.
Import Lobby.

Definition joins : list Event :=
  [ConnectToRoom "sa" (Str "alice") (Str "abcde");
   ConnectToRoom "sb" (Str "bob") (Str "abcde")].

Definition seated : World :=
  Eval vm_compute in
    match run joins init with
    | Ok _ w => w
    | TypeError => init
    end.

End LobbyScenario.

Module PausedInv.
Import Paused.

(** Room [R] is the object [l] and its scoreboard is [sc]. *)
Definition keeps (R : string) (l : nat) (sc : gmap string num) (w : World) : Prop :=
  roomStates w !! R = Some l
  /\ exists rs, heap w !! l = Some rs /\ RoomState.scores rs = sc.

End PausedInv.

Module LobbyInv.
Import Lobby.

(** No room of the lobby lists more than two sockets. *)
Definition bounded (w : World) : Prop :=
  forall r us, roomStates w !! r = Some us -> (length us <= 2)%nat.

End LobbyInv.

(** Closed forms of a join in [Game]. *)
Module GameJoin.
Import Game.

(** [Object.values(connectedUsers).some(user => user.username === username
    && user.room === room)] *)
Definition isReconnecting (username room : string) (reg : list (string * User.t)) : bool :=
  existsb (fun user => String.eqb (User.username user) username
                       && String.eqb (User.room user) room)
          (Obj.values reg).

(** [Object.keys(connectedUsers).find(id => connectedUsers[id].username
    === username)] *)
Definition oldSocketId (username : string) (reg : list (string * User.t)) : option string :=
  List.find (fun id => match Obj.get id reg with
                       | Some user => String.eqb (User.username user) username
                       | None => false
                       end)
            (Obj.keys reg).

(** The registry once the socket is entered: a reconnecting user loses
    the first entry under the username. *)
Definition registered (socket username room : string) (reg : list (string * User.t))
    : list (string * User.t) :=
  let fresh := User.mk username room socket in
  if isReconnecting username room reg then
    Obj.set socket fresh
      match oldSocketId username reg with
      | Some id => if negb (String.eqb id "") then Obj.del id reg else reg
      | None => reg
      end
  else Obj.set socket fresh reg.

(** What the joiner is told before the room hears of the join. *)
Definition greeting (socket username room : string) (reg : list (string * User.t))
    : list Emit :=
  if isReconnecting username room reg then
    [ToSocket socket "room-event:reconnect"
       (Text (username +:+ " rejoined " +:+ "room:" +:+ room))]
  else [].

Definition joinedRooms (socket room : string) (m : gmap string (list string))
    : gmap string (list string) :=
  let joined := default [] (m !! socket) in
  if existsb (String.eqb room) joined then m else <[socket := joined ++ [room]]> m.

Definition joinNotice (username room : string) : Emit :=
  ToRoom ("room:" +:+ room) "room-event:join"
    (Text (username +:+ " joined " +:+ "room:" +:+ room)).

(** The world after the first join of a room. *)
Definition opened (socket username room : string) (w : World) : World :=
  mkWorld (registered socket username room (connectedUsers w))
          (<["room:" +:+ room := nextObject w]> (roomStates w))
          (<[nextObject w := RoomState.mk [Seat.mk username socket] {[ username := Num 0 ]}
                                          1 ∅ None]> (heap w))
          (S (nextObject w)) (timers w) (nextTimer w)
          (joinedRooms socket ("room:" +:+ room) (rooms w))
          (emitted w ++ greeting socket username room (connectedUsers w)
             ++ [joinNotice username room]).

(** The room state with one more seat and the joiner's score at 0. *)
Definition seatAdded (socket username : string) (rs : RoomState.t) : RoomState.t :=
  RoomState.mk (RoomState.connectedUsers rs ++ [Seat.mk username socket])
               (<[username := Num 0]> (RoomState.scores rs))
               (RoomState.round rs) (RoomState.choices rs) (RoomState.roundTimeout rs).

(** The world after a join of the existing room [l]: when the new seat is
    the second one the round timer is replaced and the round announced. *)
Definition seatedIn (socket username room : string) (l : nat) (rs : RoomState.t)
    (w : World) : World :=
  let R := "room:" +:+ room in
  let rs' := seatAdded socket username rs in
  let said := emitted w ++ greeting socket username room (connectedUsers w)
                ++ [joinNotice username room] in
  if Nat.eqb (length (RoomState.connectedUsers rs')) 2 then
    mkWorld (registered socket username room (connectedUsers w)) (roomStates w)
            (<[l := RoomState.set_roundTimeout (Some (nextTimer w)) rs']> (heap w))
            (nextObject w)
            (clearTimer (RoomState.roundTimeout rs) (timers w)
               ++ [(nextTimer w, RoundExpiry l R)])
            (S (nextTimer w))
            (joinedRooms socket R (rooms w))
            (said ++ [ToRoom R "room-event:ready"
                        (Text "players are ready, waiting for choice");
                      ToRoom R "start-round" (StartRound (RoomState.round rs) 20)])
  else
    mkWorld (registered socket username room (connectedUsers w)) (roomStates w)
            (<[l := rs']> (heap w)) (nextObject w) (timers w) (nextTimer w)
            (joinedRooms socket R (rooms w)) said.

End GameJoin.


(** Closed forms of a disconnect and of the grace timer in [Game]. *)
Module GameLeave.
Import Game.

(** The room state without the seats of [username]. *)
Definition unseat (username : string) (rs : RoomState.t) : RoomState.t :=
  RoomState.set_connectedUsers
    (List.filter (fun user => negb (String.eqb (Seat.username user) username))) rs.

(** The world after [handleDisconnecting] has treated one room of the
    socket of [username]. *)
Definition departed (username room : string) (w : World) : World :=
  mkWorld (connectedUsers w) (roomStates w)
          (match roomStates w !! room with
           | Some l => alter (unseat username) l (heap w)
           | None => heap w
           end)
          (nextObject w)
          (timers w ++ [(nextTimer w, GraceExpiry username room)])
          (S (nextTimer w)) (rooms w)
          (emitted w ++ [ToRoom room "room-event:disconnect"
                           (Text (username +:+ " disconnected from " +:+ room))]).

(** [w'] differs from [w] by removed seats, added grace timers and
    emissions only. *)
Definition onlyUnseats (w w' : World) : Prop :=
  connectedUsers w' = connectedUsers w
  /\ roomStates w' = roomStates w
  /\ (exists ts, timers w' = timers w ++ ts
                 /\ Forall (fun p => exists username room, snd p = GraceExpiry username room) ts)
  /\ forall l rs, heap w !! l = Some rs ->
       exists rs', heap w' !! l = Some rs'
         /\ RoomState.scores rs' = RoomState.scores rs
         /\ RoomState.round rs' = RoomState.round rs
         /\ RoomState.choices rs' = RoomState.choices rs
         /\ RoomState.roundTimeout rs' = RoomState.roundTimeout rs
         /\ forall s, In s (RoomState.connectedUsers rs') -> In s (RoomState.connectedUsers rs).

End GameLeave.

(** Well-formed worlds of [Game]. *)
Module GameInv.
Import Game.

Record wf (w : World) : Prop := mkWf {
  (* every listed room is an allocated object *)
  wf_table : forall r l, roomStates w !! r = Some l -> is_Some (heap w !! l);
  wf_alloc : forall l, is_Some (heap w !! l) -> (l < nextObject w)%nat;
  (* timer handles are distinct and were handed out by [setTimeout] *)
  wf_handles : forall t cb, In (t, cb) (timers w) -> (t < nextTimer w)%nat;
  wf_distinct : NoDup (map fst (timers w));
  (* a pending round timer is the one its room holds *)
  wf_round : forall t l r, In (t, RoundExpiry l r) (timers w) ->
    roomStates w !! r = Some l
    /\ exists rs, heap w !! l = Some rs /\ RoomState.roundTimeout rs = Some t;
  (* a stored handle is never the handle of a grace timer *)
  wf_stored : forall l rs t, heap w !! l = Some rs -> RoomState.roundTimeout rs = Some t ->
    (t < nextTimer w)%nat /\ forall username room, ~ In (t, GraceExpiry username room) (timers w) }.

(** The worlds the event loop can reach from the empty one. *)
Definition reachable (w : World) : Prop := exists es, run es init = Ok tt w.

(** [w'] is well formed and still holds every grace timer of [w]. *)
Definition evolves (w w' : World) : Prop :=
  wf w'
  /\ forall t username room,
       In (t, GraceExpiry username room) (timers w) ->
       In (t, GraceExpiry username room) (timers w').

End GameInv.

(** Further scenarios on [Game]. *)
Module Edge.
Import Game GameRound.

(** Alice opened the room alone and lost her connection: the room is
    listed without a seat while her grace period runs. *)
Definition aloneLeaves : list Event :=
  [ConnectToRoom "sa" (Str "alice") (Str "abcde"); Disconnecting "sa"].

Definition vacated : World := Eval vm_compute in after aloneLeaves init.

Definition comeback : Event := ConnectToRoom "sa2" (Str "alice") (Str "abcde").

(** Bob has left the running game (timers 1 and 2 are his grace timers). *)
Definition bobLeaves : list Event := Scenario.joins ++ [Disconnecting "sb"].

(** With both players seated, a submission arrives under the name of
    nobody in the room; then the round timer fires. *)
Definition strangerThenTimer : list Event :=
  Scenario.joins ++ [PlayerChoice "sx" (Str "zed") Scenario.room (Str "paper"); Fire 0].

Definition stalled : World := Eval vm_compute in after strangerThenTimer init.



(** A submission that names a member of [Object.prototype] as its room. *)
Definition foreignChoice : Event := PlayerChoice "sa" (Str "alice") "toString" (Str "rock").

Definition stalledRoom : RoomState.t :=
  RoomState.mk [Seat.mk "alice" "sa"; Seat.mk "bob" "sb"]
               {[ "alice" := Num 0; "bob" := Num 0 ]} 1
               {[ "alice" := Str "rock"; "bob" := Str "rock"; "zed" := Str "paper" ]}
               (Some 0%nat).

End Edge.

(** The state of the lobby. *)
Module LobbyState.
Import Lobby.

(** A room's list once [removeUserFromRoom] has run on it: the socket is
    filtered out and a list that becomes empty is deleted. *)
Definition pruned (socketId : string) (o : option (list string)) : option (list string) :=
  match o with
  | Some us =>
      let us' := List.filter (fun id => negb (String.eqb id socketId)) us in
      if Nat.eqb (length us') 0 then None else Some us'
  | None => None
  end.

Definition removed (socketId room : string) (m : gmap string (list string))
    : gmap string (list string) :=
  match m !! room with
  | Some us =>
      let us' := List.filter (fun id => negb (String.eqb id socketId)) us in
      if Nat.eqb (length us') 0 then delete room (<[room := us']> m) else <[room := us']> m
  | None => m
  end.

(** The world after an accepted join. *)
Definition entered (socket username room : string) (w : World) : World :=
  let R := "room:" +:+ room in
  let us := default [] (roomStates w !! R) ++ [socket] in
  mkWorld (<[socket := User.mk username room]> (connectedUsers w))
          (<[R := us]> (roomStates w))
          (let joined := default [] (rooms w !! socket) in
           if existsb (String.eqb R) joined then rooms w
           else <[socket := joined ++ [R]]> (rooms w))
          (emitted w
             ++ ToRoom R "room-event:join" (Text (username +:+ " joined " +:+ R))
             :: (if Nat.eqb (length us) 2
                 then [ToRoom R "room-event:ready"
                         (Text "players are ready, waiting for choice")]
                 else [])).

(** The registry and the room lists agree. *)
Record consistent (w : World) : Prop := mkConsistent {
  c_bounded : forall r us, roomStates w !! r = Some us -> (length us <= 2)%nat;
  c_nonempty : forall r us, roomStates w !! r = Some us -> us <> [];
  c_distinct : forall r us, roomStates w !! r = Some us -> NoDup us;
  (* a listed socket is registered for that room and has joined it *)
  c_members : forall r us s, roomStates w !! r = Some us -> In s us ->
    exists user, connectedUsers w !! s = Some user
                 /\ r = "room:" +:+ User.room user
                 /\ In r (default [] (rooms w !! s));
  (* a registered socket is listed in the room it registered for *)
  c_home : forall s user, connectedUsers w !! s = Some user ->
    exists us, roomStates w !! ("room:" +:+ User.room user) = Some us /\ In s us }.

Definition reachable (w : World) : Prop := exists es, run es init = Ok tt w.

End LobbyState.

(** Closed forms of a join and of the teardown in [Paused]. *)
Module PausedJoin.
Import Paused.

Definition isReconnecting (username room : string) (reg : list (string * User.t)) : bool :=
  existsb (fun user => String.eqb (User.username user) username
                       && String.eqb (User.room user) room)
          (Obj.values reg).

Definition oldSocketId (username : string) (reg : list (string * User.t)) : option string :=
  List.find (fun id => match Obj.get id reg with
                       | Some user => String.eqb (User.username user) username
                       | None => false
                       end)
            (Obj.keys reg).

Definition registered (socket username room : string) (reg : list (string * User.t))
    : list (string * User.t) :=
  let fresh := User.mk username room socket in
  if isReconnecting username room reg then
    Obj.set socket fresh
      match oldSocketId username reg with
      | Some id => if negb (String.eqb id "") then Obj.del id reg else reg
      | None => reg
      end
  else Obj.set socket fresh reg.

Definition greeting (socket username room : string) (reg : list (string * User.t))
    : list Emit :=
  if isReconnecting username room reg then
    [ToSocket socket "room-event:reconnect"
       (Text (username +:+ " rejoined " +:+ "room:" +:+ room))]
  else [].

Definition joinedRooms (socket room : string) (m : gmap string (list string))
    : gmap string (list string) :=
  let joined := default [] (m !! socket) in
  if existsb (String.eqb room) joined then m else <[socket := joined ++ [room]]> m.

Definition joinNotice (username room : string) : Emit :=
  ToRoom ("room:" +:+ room) "room-event:join"
    (Text (username +:+ " joined " +:+ "room:" +:+ room)).

(** The world after the first join of a room by a user who is not
    registered for it. *)
Definition opened (socket username room : string) (w : World) : World :=
  mkWorld (Obj.set socket (User.mk username room socket) (connectedUsers w))
          (<["room:" +:+ room := nextObject w]> (roomStates w))
          (<[nextObject w := RoomState.mk [Seat.mk username socket] {[ username := Num 0 ]}
                                          1 ∅ None false]> (heap w))
          (S (nextObject w)) (timers w) (nextTimer w)
          (joinedRooms socket ("room:" +:+ room) (rooms w))
          (emitted w ++ [joinNotice username room]).

(** The room state with one more seat: a returning user lifts the pause,
    and a score is only initialised when it is falsy. *)
Definition seatAdded (socket username : string) (returning : bool) (rs : RoomState.t)
    : RoomState.t :=
  RoomState.mk (RoomState.connectedUsers rs ++ [Seat.mk username socket])
               (if score_falsy (RoomState.scores rs !! username)
                then <[username := Num 0]> (RoomState.scores rs)
                else RoomState.scores rs)
               (RoomState.round rs) (RoomState.choices rs) (RoomState.roundTimeout rs)
               (if returning then false else RoomState.paused rs).

(** The world after a join of the existing room [l]: the countdown is
    restarted when the new seat is the second one and the room is not
    paused. *)
Definition seatedIn (socket username room : string) (l : nat) (rs : RoomState.t)
    (w : World) : World :=
  let R := "room:" +:+ room in
  let reg := connectedUsers w in
  let rs' := seatAdded socket username (isReconnecting username room reg) rs in
  let two := Nat.eqb (length (RoomState.connectedUsers rs')) 2 in
  let said := emitted w ++ greeting socket username room reg ++ [joinNotice username room]
                ++ (if two
                    then [ToRoom R "room-event:ready"
                            (Text "players are ready, waiting for choice")]
                    else []) in
  if two && negb (RoomState.paused rs') then
    mkWorld (registered socket username room reg) (roomStates w)
            (<[l := RoomState.set_roundTimeout (Some (nextTimer w)) rs']> (heap w))
            (nextObject w)
            (clearTimer (RoomState.roundTimeout rs) (timers w)
               ++ [(nextTimer w, Countdown l R 1)])
            (S (nextTimer w)) (joinedRooms socket R (rooms w)) said
  else
    mkWorld (registered socket username room reg) (roomStates w)
            (<[l := rs']> (heap w)) (nextObject w) (timers w) (nextTimer w)
            (joinedRooms socket R (rooms w)) said.

(** The registry without the entries of the seated sockets. *)
Definition unregistered (seats : list Seat.t) (reg : list (string * User.t))
    : list (string * User.t) :=
  fold_left (fun reg user => Obj.del (Seat.socketId user) reg) seats reg.

End PausedJoin.

(** A further scenario on [Paused]: both players leave, bob's grace
    expires and tears the room down while alice is still registered. *)
Module PausedEdge.
Import Paused.

Definition bothLeave : list Event :=
  PausedScenario.joins ++ [Disconnecting "sb"; Disconnecting "sa"; Fire 1].

Definition tornDown : World := Eval vm_compute in PausedScenario.after bothLeave init.

Definition comeback : Event := ConnectToRoom "sa2" (Str "alice") (Str "abcde").

(** A submission that names a member of [Object.prototype] as its room. *)
Definition foreignChoice : Event := PlayerChoice "sa" (Str "alice") "valueOf" (Str "rock").

Definition seatedRoom : RoomState.t :=
  RoomState.mk [Seat.mk "alice" "sa"; Seat.mk "bob" "sb"]
               {[ "alice" := Num 0; "bob" := Num 0 ]} 1 ∅ (Some 0%nat) false.

Definition bobLeftRoom : RoomState.t :=
  RoomState.mk [Seat.mk "alice" "sa"] {[ "alice" := Num 0; "bob" := Num 0 ]} 1 ∅
               (Some 0%nat) true.

(** Alice has won round 1 and left: the room is paused with bob alone. *)
Definition aliceLeftRoom : RoomState.t :=
  RoomState.mk [Seat.mk "bob" "sb"] {[ "alice" := Num 1; "bob" := Num 0 ]} 2 ∅
               (Some 1%nat) true.

End PausedEdge.

(** Closed forms of one round of [Paused]. *)
Module PausedRound.
Import Paused PausedJoin.

Definition recorded (u c : value) (rs : RoomState.t) : RoomState.t :=
  if truthy u then RoomState.set_choices (<[key u := c]>) rs else rs.

Definition withChoices (ch : gmap string value) (rs : RoomState.t) : RoomState.t :=
  RoomState.set_choices (fun _ => ch) rs.

Definition roundResult (rs : RoomState.t) : Result :=
  determineRoundWinner (prop (RoomState.choices rs) (playerAt 0 rs))
                       (prop (RoomState.choices rs) (playerAt 1 rs)).

Definition announced (r : string) (rs : RoomState.t) : Emit :=
  ToRoom r "room-event:round-result"
    (RoundResult (RoomState.round rs) (RoomState.choices rs) (roundResult rs)
       (GameRound.scoresAfter (roundResult rs) (playerAt 0 rs) (playerAt 1 rs)
          (RoomState.scores rs))).

(** The room state after the bookkeeping of a resolved round. *)
Definition resolved (rs : RoomState.t) : RoomState.t :=
  RoomState.mk (RoomState.connectedUsers rs)
               (GameRound.scoresAfter (roundResult rs) (playerAt 0 rs) (playerAt 1 rs)
                  (RoomState.scores rs))
               (RoomState.round rs + 1) ∅ (RoomState.roundTimeout rs) (RoomState.paused rs).

(** The world [processRound] leaves behind: a finished game unlists the
    room and forgets the seated sockets; otherwise the countdown of the
    next round starts unless the room is paused. *)
Definition roundOutcome (r : string) (l : nat) (rs : RoomState.t) (w : World) : World :=
  let p1 := playerAt 0 rs in
  let p2 := playerAt 1 rs in
  let rs' := resolved rs in
  let sc := RoomState.scores rs' in
  if is5 (sc !! key p1) || is5 (sc !! key p2) then
    mkWorld (unregistered (RoomState.connectedUsers rs) (connectedUsers w))
            (delete r (roomStates w)) (<[l := rs']> (heap w)) (nextObject w)
            (clearTimer (RoomState.roundTimeout rs) (timers w)) (nextTimer w) (rooms w)
            (emitted w ++ [announced r rs;
               ToRoom r "room-event:game-over"
                 (GameOver (GameRound.roundWinner (sc !! key p1) (sc !! key p2) p1 p2))])
  else if RoomState.paused rs then
    mkWorld (connectedUsers w) (roomStates w) (<[l := rs']> (heap w)) (nextObject w)
            (timers w) (nextTimer w) (rooms w) (emitted w ++ [announced r rs])
  else
    mkWorld (connectedUsers w) (roomStates w)
            (<[l := RoomState.set_roundTimeout (Some (nextTimer w)) rs']> (heap w))
            (nextObject w)
            (clearTimer (RoomState.roundTimeout rs) (timers w)
               ++ [(nextTimer w, Countdown l r 1)])
            (S (nextTimer w)) (rooms w) (emitted w ++ [announced r rs]).

(** A submission that passes the validation, or the call of the
    countdown: the choice is recorded and the round resolves at exactly
    two pending choices. *)
Definition submitted (u c : value) (r : string) (l : nat) (rs : RoomState.t) (w : World)
    : World :=
  let rs1 := recorded u c rs in
  let w1 := set_heap (<[l := rs1]>) w in
  if Nat.eqb (size (RoomState.choices rs1)) 2 then roundOutcome r l rs1 w1 else w1.

Definition withDefaults (rs : RoomState.t) : gmap string value :=
  let ch := RoomState.choices rs in
  let ch := if truthy (prop ch (playerAt 0 rs)) then ch
            else <[key (playerAt 0 rs) := Str "rock"]> ch in
  if truthy (prop ch (playerAt 1 rs)) then ch
  else <[key (playerAt 1 rs) := Str "rock"]> ch.

(** The pending list once a tick has written [remainingTime] back. *)
Definition ticked (t l : nat) (R : string) (remainingTime : Z)
    (ts : list (nat * Callback)) : list (nat * Callback) :=
  map (fun p => if Nat.eqb (fst p) t then (t, Countdown l R remainingTime) else p) ts.

(** The world after a tick of the countdown of a room that is not
    paused: the last tick clears the interval, fills in the defaults and
    resolves the round. *)
Definition tick (t l : nat) (R : string) (remainingTime : Z) (rs : RoomState.t) (w : World)
    : World :=
  let w0 := mkWorld (connectedUsers w) (roomStates w) (heap w) (nextObject w)
                    (ticked t l R (remainingTime - 1) (timers w)) (nextTimer w) (rooms w)
                    (emitted w ++ [ToRoom R "room-event:round-timer"
                                     (RoundTimer remainingTime)]) in
  if remainingTime - 1 <=? 0 then
    submitted Null Null R l (withChoices (withDefaults rs) rs)
              (set_timers (clearTimer (RoomState.roundTimeout rs)) w0)
  else w0.

Definition seatedAs (username : string) (rs : RoomState.t) : bool :=
  existsb (fun user => String.eqb (Seat.username user) username)
          (RoomState.connectedUsers rs).

Definition purge (username : string) (reg : list (string * User.t))
    : list (string * User.t) :=
  List.filter (fun e => negb (String.eqb (User.username (snd e)) username)) reg.

Definition forfeit (room : string) (rs : RoomState.t) : list Emit :=
  match RoomState.connectedUsers rs with
  | first :: _ => [ToRoom room "room-event:game-over" (GameOver (Str (Seat.username first)))]
  | [] => []
  end.

(** The world after the grace timer of a user who has not come back to
    the listed room [l]. *)
Definition expired (username room : string) (rs : RoomState.t) (w : World) : World :=
  mkWorld (unregistered (RoomState.connectedUsers rs) (purge username (connectedUsers w)))
          (delete room (roomStates w)) (heap w) (nextObject w)
          (clearTimer (RoomState.roundTimeout rs) (timers w)) (nextTimer w) (rooms w)
          (emitted w ++ forfeit room rs).

End PausedRound.

(** Well-formed worlds of [Paused]. *)
Module PausedWf.
Import Paused.

Record wf (w : World) : Prop := mkWf {
  (* every listed room is an allocated object *)
  wf_table : forall r l, roomStates w !! r = Some l -> is_Some (heap w !! l);
  wf_alloc : forall l, is_Some (heap w !! l) -> (l < nextObject w)%nat;
  (* timer handles are distinct and were handed out by the timer calls *)
  wf_handles : forall t cb, In (t, cb) (timers w) -> (t < nextTimer w)%nat;
  wf_distinct : NoDup (map fst (timers w));
  (* a pending countdown is the one its room holds, and the room is not
     paused *)
  wf_round : forall t l r n, In (t, Countdown l r n) (timers w) ->
    roomStates w !! r = Some l
    /\ exists rs, heap w !! l = Some rs /\ RoomState.roundTimeout rs = Some t
                  /\ RoomState.paused rs = false;
  (* a stored handle is never the handle of a grace timer *)
  wf_stored : forall l rs t, heap w !! l = Some rs -> RoomState.roundTimeout rs = Some t ->
    (t < nextTimer w)%nat /\ forall username room, ~ In (t, GraceExpiry username room) (timers w) }.

Definition reachable (w : World) : Prop := exists es, run es init = Ok tt w.

(** [w'] is well formed and still holds every grace timer of [w]. *)
Definition evolves (w w' : World) : Prop :=
  wf w'
  /\ forall t username room,
       In (t, GraceExpiry username room) (timers w) ->
       In (t, GraceExpiry username room) (timers w').

End PausedWf.

(** * Properties *)

(** ** The round resolver *)

Lemma value_eqb_eq a b : value_eqb a b = true <-> a = b.
Proof.
  destruct a, b; simpl; try (split; congruence).
  rewrite String.eqb_eq. split; congruence.
Qed.

(** C9. On the three valid choices the resolver follows the beats
    relation: the first side wins when its choice beats the second
    (rock over scissors, scissors over paper, paper over rock), the
    second side wins in the mirrored cases, and the result is a tie
    exactly when the two choices are equal. *)
Theorem resolver_beats_relation (a b : Choice) :
  determineRoundWinner (choice_value a) (choice_value b)
  = (if beats a b then player1 else if beats b a then player2 else tie)
  /\ (determineRoundWinner (choice_value a) (choice_value b) = tie <-> a = b).
Proof.
  destruct a, b; (split; [reflexivity | vm_compute; split; congruence]).
Qed.

(** C10. The resolver is a total function on arbitrary strings; it
    answers tie if and only if the two strings are equal, and any unequal
    pair is a win for one of the two sides. *)
Theorem resolver_total_on_strings (a b : string) :
  (determineRoundWinner (Str a) (Str b) = tie <-> a = b)
  /\ (a <> b ->
      determineRoundWinner (Str a) (Str b) = player1
      \/ determineRoundWinner (Str a) (Str b) = player2).
Proof.
  unfold determineRoundWinner. simpl.
  destruct (String.eqb_spec a b) as [->|Hne].
  - split; [tauto | congruence].
  - split.
    + split; [| congruence].
      destruct (member_strict_eq _ _); discriminate.
    + intros _. destruct (member_strict_eq _ _); auto.
Qed.


Lemma str_truthy (s : string) : s <> ""%string -> truthy (Str s) = true.
Proof. intros H. simpl. by destruct (String.eqb_spec s "")%string. Qed.

Lemma is5_true (x : option num) : is5 x = true <-> x = Some (Num 5).
Proof.
  unfold is5. destruct x as [[z|]|]; simpl; try (split; congruence).
  rewrite Z.eqb_eq. split; congruence.
Qed.

Lemma is5_false (x : option num) : is5 x = false <-> x <> Some (Num 5).
Proof. rewrite <- is5_true. destruct (is5 x); split; congruence. Qed.

Lemma num_strict_eq_5_l (y : option num) :
  y <> Some (Num 5) -> num_strict_eq (Some (Num 5)) y = false.
Proof.
  destruct y as [[z|]|]; unfold num_strict_eq; try done.
  intros H. destruct (Z.eqb_spec 5 z); congruence.
Qed.

Lemma num_strict_eq_5_r (x : option num) :
  x <> Some (Num 5) -> num_strict_eq x (Some (Num 5)) = false.
Proof.
  destruct x as [[z|]|]; unfold num_strict_eq; try done.
  intros H. destruct (Z.eqb_spec z 5); congruence.
Qed.

(** ** Stepping through the monad *)
Lemma bind_Ok {S A B} (m : M S A) (k : A -> M S B) s a s' :
  m s = Ok a s' -> bind m k s = k a s'.
Proof. unfold bind. by intros ->. Qed.

Lemma Ok_inj {S A} (a a' : A) (s s' : S) : Ok a s = Ok a' s' -> s = s'.
Proof. by intros [= _ ->]. Qed.

Lemma bind_assoc {S A B C} (m : M S A) (f : A -> M S B) (g : B -> M S C) s :
  bind (bind m f) g s = bind m (fun x => bind (f x) g) s.
Proof. unfold bind. by destruct (m s). Qed.

Lemma bind_when_true {S B} (m : M S unit) (k : unit -> M S B) s :
  bind (when true m) k s = bind m k s.
Proof. reflexivity. Qed.

Lemma bind_when_false {S B} (m : M S unit) (k : unit -> M S B) s :
  bind (when false m) k s = k tt s.
Proof. reflexivity. Qed.

Lemma bind_ret_r {S} (m : M S unit) s : bind m (fun _ => ret tt) s = m s.
Proof. unfold bind, ret. by destruct (m s) as [[] ?|]. Qed.

Lemma alter_lookup_insert {A} (f : A -> A) (m : gmap nat A) l x :
  m !! l = Some x -> alter f l m = <[l := f x]> m.
Proof.
  intros H. apply map_eq. intros i. destruct (decide (l = i)) as [->|Hne].
  - by rewrite lookup_alter_eq, lookup_insert_eq, H.
  - by rewrite lookup_alter_ne, lookup_insert_ne.
Qed.


Lemma pending_clearTimer {C} t (ts : list (nat * C)) :
  pending t (clearTimer (Some t) ts) = None.
Proof.
  unfold pending. simpl. induction ts as [|p ts IH]; simpl; [done |].
  destruct (fst p =? t)%nat eqn:E; simpl; rewrite ?E; done.
Qed.

Lemma pending_clearTimer_ne {C} t h (ts : list (nat * C)) :
  h <> Some t -> pending t (clearTimer h ts) = pending t ts.
Proof.
  intros Hne. destruct h as [t'|]; [| done].
  assert (t' <> t) by congruence.
  unfold pending. simpl. induction ts as [|p ts IH]; simpl; [done |].
  destruct (fst p =? t')%nat eqn:E; simpl.
  - apply Nat.eqb_eq in E. destruct (fst p =? t)%nat eqn:E'; [| done].
    apply Nat.eqb_eq in E'. congruence.
  - destruct (fst p =? t)%nat; [done | apply IH].
Qed.

(** ** Preservation of state predicates *)

Lemma preserves_ret {S A} (P : S -> Prop) (a : A) : preserves P (ret a).
Proof. intros s a' s' H [= _ <-]. exact H. Qed.

Lemma preserves_throw {S A} (P : S -> Prop) : preserves P (@throw S A).
Proof. intros s a s' _ [=]. Qed.

Lemma preserves_bind {S A B} (P : S -> Prop) (m : M S A) (k : A -> M S B) :
  preserves P m -> (forall a, preserves P (k a)) -> preserves P (bind m k).
Proof.
  intros Hm Hk s b s' HP. unfold bind. destruct (m s) as [a s1|] eqn:E; [| done].
  intros Hks. eapply Hk; [| exact Hks]. eapply Hm; eauto.
Qed.

Lemma preserves_modify {S} (P : S -> Prop) (f : S -> S) :
  (forall s, P s -> P (f s)) -> preserves P (modify f).
Proof. intros H s a s' HP [= _ <-]. auto. Qed.

Lemma preserves_when {S} (P : S -> Prop) (c : bool) (m : M S unit) :
  preserves P m -> preserves P (when c m).
Proof. destruct c; [done | intros _; apply preserves_ret]. Qed.

Lemma preserves_forEach {S A} (P : S -> Prop) (l : list A) (f : A -> M S unit) :
  (forall x, preserves P (f x)) -> preserves P (forEach l f).
Proof.
  intros H. induction l as [|x l IH]; simpl.
  - apply preserves_ret.
  - apply preserves_bind; [apply H | intros _; exact IH].
Qed.

Ltac map_lookups :=
  repeat first
    [ rewrite lookup_insert_eq
    | rewrite lookup_singleton_eq
    | rewrite lookup_empty
    | rewrite lookup_insert_ne by congruence
    | rewrite lookup_singleton_ne by congruence ].

(** ** The game module: closed forms of the handlers *)

Module GameFacts.
Import Game GameRound.

Lemma readRoom_Ok w l rs : heap w !! l = Some rs -> readRoom l w = Ok rs w.
Proof. unfold readRoom. by intros ->. Qed.

Lemma updRoom_Ok w l rs f :
  heap w !! l = Some rs -> updRoom l f w = Ok tt (set_heap (<[l := f rs]>) w).
Proof.
  intros H. unfold updRoom, modify, set_heap. do 2 f_equal.
  by apply alter_lookup_insert.
Qed.

Ltac wnorm :=
  cbv beta delta [set_heap set_roomStates set_timers set_connectedUsers set_rooms
       RoomState.set_connectedUsers RoomState.set_scores RoomState.set_round
       RoomState.set_choices RoomState.set_roundTimeout];
  cbn [heap roomStates timers emitted nextTimer nextObject connectedUsers rooms
       RoomState.connectedUsers RoomState.scores RoomState.round RoomState.choices
       RoomState.roundTimeout];
  rewrite ?insert_insert_eq.

Ltac side :=
  wnorm; rewrite ?lookup_insert_eq; first [eassumption | reflexivity].

Ltac mstep :=
  first
    [ rewrite bind_assoc
    | rewrite bind_when_true
    | rewrite bind_when_false
    | erewrite (bind_Ok (readRoom _)) by (apply readRoom_Ok; side)
    | erewrite (bind_Ok (updRoom _ _)) by (apply updRoom_Ok; side)
    | erewrite (bind_Ok get) by reflexivity
    | erewrite (bind_Ok (emit _)) by reflexivity
    | erewrite (bind_Ok (modify _)) by reflexivity
    | erewrite (bind_Ok (clearTimeout _)) by reflexivity
    | erewrite (bind_Ok (setTimeout _)) by reflexivity
    | erewrite (bind_Ok (ret _)) by reflexivity ];
  cbv beta.

Lemma cleanupGame_eq (r : string) (l : nat) (rs : RoomState.t) (w : World) :
  roomStates w !! r = Some l ->
  heap w !! l = Some rs ->
  cleanupGame r w
  = Ok tt (set_roomStates (delete r) (set_timers (clearTimer (RoomState.roundTimeout rs)) w)).
Proof.
  intros Hr Hl. unfold cleanupGame. mstep. rewrite Hr. repeat mstep. reflexivity.
Qed.

Lemma cleanupGame_absent (r : string) (w : World) :
  roomStates w !! r = None -> cleanupGame r w = Ok tt w.
Proof. intros Hr. unfold cleanupGame. mstep. by rewrite Hr. Qed.

Lemma startNextRound_eq (r : string) (l : nat) (rs : RoomState.t) (w : World) :
  roomStates w !! r = Some l ->
  heap w !! l = Some rs ->
  startNextRound r w
  = Ok tt (mkWorld (connectedUsers w) (roomStates w)
             (<[l := RoomState.set_roundTimeout (Some (nextTimer w)) rs]> (heap w))
             (nextObject w)
             (clearTimer (RoomState.roundTimeout rs) (timers w)
                ++ [(nextTimer w, RoundExpiry l r)])
             (S (nextTimer w)) (rooms w)
             (emitted w ++ [ToRoom r "start-round" (StartRound (RoomState.round rs) 20)])).
Proof.
  intros Hr Hl. unfold startNextRound. mstep. rewrite Hr. repeat mstep.
  unfold emit, modify. wnorm. reflexivity.
Qed.

Lemma processRound_eq (r : string) (l : nat) (rs : RoomState.t) (w : World) :
  roomStates w !! r = Some l ->
  heap w !! l = Some rs ->
  processRound l r w = Ok tt (roundOutcome r l rs w).
Proof.
  intros Hr Hl.
  unfold processRound, roundOutcome, announced, roundResult, roundWinner. mstep.
  set (p1 := playerAt 0 rs). set (p2 := playerAt 1 rs).
  destruct (determineRoundWinner _ _); unfold scoresAfter, bump; repeat mstep; wnorm.
  all: match goal with
       | |- (if ?c then _ else _) _ = _ => destruct c
       end.
  all: repeat mstep.
  all: first [ erewrite cleanupGame_eq by side | erewrite startNextRound_eq by side ].
  all: wnorm; rewrite <- ?app_assoc; reflexivity.
Qed.

Lemma set_heap_same (l : nat) (rs : RoomState.t) (w : World) :
  heap w !! l = Some rs -> set_heap (<[l := rs]>) w = w.
Proof.
  destruct w. simpl. intros H. unfold set_heap. simpl. f_equal. by apply insert_id.
Qed.

(** [handlePlayerChoice] on an existing room, for a call that passes the
    validation: a valid choice, or the call of the round timer. *)
Lemma handlePlayerChoice_eq (socket : option string) (u c : value) (r : string) (l : nat)
    (rs : RoomState.t) (w : World) :
  roomStates w !! r = Some l ->
  heap w !! l = Some rs ->
  socket = None \/ validChoice c = true ->
  handlePlayerChoice socket u r c w
  = let rs1 := recorded u c rs in
    let w1 := set_heap (<[l := rs1]>) w in
    if (size (RoomState.choices rs1) =? 2)%nat then Ok tt (roundOutcome r l rs1 w1)
    else Ok tt w1.
Proof.
  intros Hr Hl Hv. unfold handlePlayerChoice, recorded. mstep. rewrite Hr.
  replace (bool_decide (is_Some (Some l))) with true
    by (symmetry; by apply bool_decide_eq_true).
  cbn [negb orb].
  assert (Hrest :
    (when (truthy u) (updRoom l (RoomState.set_choices <[key u:=c]>));;
     let! rs0 := readRoom l in
     when (size (RoomState.choices rs0) =? 2)%nat (processRound l r)) w
    = (let rs1 := if truthy u then RoomState.set_choices <[key u:=c]> rs else rs in
       let w1 := set_heap <[l:=rs1]> w in
       if (size (RoomState.choices rs1) =? 2)%nat then Ok () (roundOutcome r l rs1 w1)
       else Ok () w1)).
  { destruct (truthy u); repeat mstep; cbv zeta.
    - destruct (size _ =? 2)%nat; unfold when; [| reflexivity].
      by erewrite processRound_eq by side.
    - rewrite (set_heap_same _ _ _ Hl).
      destruct (size _ =? 2)%nat; unfold when; [| reflexivity].
      by erewrite processRound_eq by side. }
  destruct Hv as [-> | ->].
  - destruct (negb (validChoice c)); exact Hrest.
  - exact Hrest.
Qed.

Lemma roundExpiry_eq (r : string) (l : nat) (rs : RoomState.t) (w : World) :
  roomStates w !! r = Some l ->
  heap w !! l = Some rs ->
  roundExpiry l r w
  = let rs1 := RoomState.set_choices (fun _ => withDefaults rs) rs in
    let w1 := set_heap (<[l := rs1]>) w in
    if (size (withDefaults rs) =? 2)%nat then Ok tt (roundOutcome r l rs1 w1)
    else Ok tt w1.
Proof.
  intros Hr Hl. unfold roundExpiry, withDefaults. mstep.
  set (p1 := playerAt 0 rs). set (p2 := playerAt 1 rs).
  assert (Hid : forall w', heap w' = heap w ->
            set_heap (<[l := RoomState.set_choices (fun _ => RoomState.choices rs) rs]>) w'
            = w').
  { intros [] E. simpl in E. subst. unfold set_heap. simpl. f_equal.
    apply insert_id. rewrite Hl. by destruct rs. }
  destruct (truthy (prop (RoomState.choices rs) p1)) eqn:E1; cbn [negb]; repeat mstep.
  - destruct (truthy (prop (RoomState.choices rs) p2)) eqn:E2; cbn [negb]; repeat mstep.
    + erewrite handlePlayerChoice_eq by (side || by left). cbv zeta. unfold recorded; cbn [truthy]. rewrite !Hid by done.
      replace (RoomState.set_choices (fun _ => RoomState.choices rs) rs) with rs
        by (by destruct rs).
      by rewrite (set_heap_same _ _ _ Hl).
    + erewrite handlePlayerChoice_eq by (side || by left). unfold recorded; cbn [truthy]. wnorm. reflexivity.
  - cbn [RoomState.set_choices RoomState.choices].
    destruct (truthy (prop (<[key p1:=Str "rock"]> (RoomState.choices rs)) p2)) eqn:E2;
      cbn [negb]; repeat mstep.
    + erewrite handlePlayerChoice_eq by (side || by left). unfold recorded; cbn [truthy]. wnorm. reflexivity.
    + erewrite handlePlayerChoice_eq by (side || by left). unfold recorded; cbn [truthy]. wnorm. reflexivity.
Qed.

Lemma choice_held (socket : option string) (u c : value) (r : string) (l : nat)
    (rs : RoomState.t) (w : World) :
  roomStates w !! r = Some l ->
  heap w !! l = Some rs ->
  socket = None \/ validChoice c = true ->
  size (RoomState.choices (recorded u c rs)) <> 2%nat ->
  handlePlayerChoice socket u r c w = Ok tt (set_heap (<[l := recorded u c rs]>) w).
Proof.
  intros Hr Hl Hv Hs. rewrite (handlePlayerChoice_eq _ _ _ _ _ _ _ Hr Hl Hv). cbv zeta.
  by destruct (Nat.eqb_spec (size (RoomState.choices (recorded u c rs))) 2).
Qed.

Lemma choice_resolves (socket : option string) (u c : value) (r : string) (l : nat)
    (rs : RoomState.t) (w : World) :
  roomStates w !! r = Some l ->
  heap w !! l = Some rs ->
  socket = None \/ validChoice c = true ->
  size (RoomState.choices (recorded u c rs)) = 2%nat ->
  handlePlayerChoice socket u r c w
  = Ok tt (roundOutcome r l (recorded u c rs) (set_heap (<[l := recorded u c rs]>) w)).
Proof.
  intros Hr Hl Hv Hs. rewrite (handlePlayerChoice_eq _ _ _ _ _ _ _ Hr Hl Hv). cbv zeta.
  by rewrite Hs.
Qed.

Lemma recorded_connectedUsers u c rs :
  RoomState.connectedUsers (recorded u c rs) = RoomState.connectedUsers rs.
Proof. unfold recorded. by destruct (truthy u). Qed.

Lemma recorded_scores u c rs : RoomState.scores (recorded u c rs) = RoomState.scores rs.
Proof. unfold recorded. by destruct (truthy u). Qed.

Lemma recorded_round u c rs : RoomState.round (recorded u c rs) = RoomState.round rs.
Proof. unfold recorded. by destruct (truthy u). Qed.

Lemma recorded_roundTimeout u c rs :
  RoomState.roundTimeout (recorded u c rs) = RoomState.roundTimeout rs.
Proof. unfold recorded. by destruct (truthy u). Qed.

Lemma purge_Forall username reg :
  Forall (fun e => User.username (snd e) <> username) (purge username reg).
Proof.
  apply Forall_forall. intros e He. apply list_elem_of_In, filter_In in He as [_ He].
  apply negb_true_iff in He. by apply String.eqb_neq in He.
Qed.

Lemma graceExpiry_absent (w : World) (username room : string) :
  roomStates w !! room = None ->
  graceExpiry username room w = Ok tt (set_connectedUsers (purge username) w).
Proof.
  intros Hr. unfold graceExpiry. mstep. rewrite Hr. cbn [from_option negb].
  repeat mstep. reflexivity.
Qed.

Lemma fire_round_eq (w : World) (t l : nat) (r : string) :
  pending t (timers w) = Some (RoundExpiry l r) ->
  step (Fire t) w = roundExpiry l r (set_timers (clearTimer (Some t)) w).
Proof.
  intros Hp. unfold step. mstep. rewrite Hp. mstep. reflexivity.
Qed.


Lemma set_heap_twice (l : nat) (a b : RoomState.t) (w : World) :
  set_heap (<[l := b]>) (set_heap (<[l := a]>) w) = set_heap (<[l := b]>) w.
Proof. unfold set_heap. simpl. by rewrite insert_insert_eq. Qed.


Lemma recorded_str (u : string) (c : value) (rs : RoomState.t) :
  u <> ""%string ->
  recorded (Str u) c rs = withChoices (<[u := c]> (RoomState.choices rs)) rs.
Proof. intros Hu. unfold recorded. by rewrite (str_truthy _ Hu). Qed.


Section RoundTimer.
Variables (w : World) (r : string) (l t : nat) (rs : RoomState.t) (s1 s2 : Seat.t).
Hypothesis Hr : roomStates w !! r = Some l.
Hypothesis Hl : heap w !! l = Some rs.
Hypothesis Hcu : RoomState.connectedUsers rs = [s1; s2].
Hypothesis Hne : Seat.username s1 <> Seat.username s2.
Hypothesis Hn1 : Seat.username s1 <> ""%string.
Hypothesis Hn2 : Seat.username s2 <> ""%string.
Hypothesis Ht : RoomState.roundTimeout rs = Some t.
Hypothesis Hp : pending t (timers w) = Some (RoundExpiry l r).



End RoundTimer.

Lemma roundOutcome_facts (r : string) (l : nat) (rs : RoomState.t) (w : World) :
  exists rs' tail,
    heap (roundOutcome r l rs w) !! l = Some rs'
    /\ RoomState.scores rs'
       = scoresAfter (roundResult rs) (playerAt 0 rs) (playerAt 1 rs) (RoomState.scores rs)
    /\ emitted (roundOutcome r l rs w) = emitted w ++ announced r rs :: tail.
Proof.
  unfold roundOutcome. destruct (is5 _ || is5 _); eexists; eexists; wnorm.
  all: rewrite lookup_insert_eq; (split; [reflexivity |]); split; reflexivity.
Qed.

Section Defaults.
Variables (rs : RoomState.t) (s1 s2 : Seat.t).
Hypothesis Hcu : RoomState.connectedUsers rs = [s1; s2].
Hypothesis Hne : Seat.username s1 <> Seat.username s2.
Hypothesis Hdom :
  forall k v, RoomState.choices rs !! k = Some v ->
              (k = Seat.username s1 \/ k = Seat.username s2) /\ validChoice v = true.




End Defaults.

End GameFacts.

(** ** The game module: rounds *)

Module GameClaims.
Import Game GameRound GameFacts.

(** Two joins of room ["abcde"] seat alice and bob, announce that the
    players are ready and start round 1 with its timer. *)
Lemma two_joins_start_round_one :
  run Scenario.joins init = Ok tt Scenario.seated
  /\ roomStates Scenario.seated !! Scenario.room = Some 0%nat
  /\ heap Scenario.seated !! 0%nat = Some Scenario.seatedRoom
  /\ timers Scenario.seated = [(0%nat, RoundExpiry 0 Scenario.room)]
  /\ emitted Scenario.seated
     = [ToRoom Scenario.room "room-event:join" (Text "alice joined room:abcde");
        ToRoom Scenario.room "room-event:join" (Text "bob joined room:abcde");
        ToRoom Scenario.room "room-event:ready"
          (Text "players are ready, waiting for choice");
        ToRoom Scenario.room "start-round" (StartRound 1 20)].
Proof. repeat split; vm_compute; reflexivity. Qed.

(** The worlds of the scenarios are reached by the runs that define
    them: alice's first choice, and her fifth after four won rounds, the
    last of which ends the game. *)
Lemma scenario_runs :
  step (PlayerChoice "sa" (Str "alice") Scenario.room (Str "rock")) Scenario.seated
  = Ok tt Scenario.aliceChose
  /\ heap Scenario.aliceChose !! 0%nat = Some Scenario.aliceChoseRoom
  /\ run (Scenario.aliceWins ++ Scenario.aliceWins ++ Scenario.aliceWins
          ++ Scenario.aliceWins
          ++ [PlayerChoice "sa" (Str "alice") Scenario.room (Str "rock")]) Scenario.seated
     = Ok tt Scenario.matchPoint
  /\ heap Scenario.matchPoint !! 0%nat = Some Scenario.matchPointRoom
  /\ step (PlayerChoice "sb" (Str "bob") Scenario.room (Str "scissors")) Scenario.matchPoint
     = Ok tt Scenario.gameOver.
Proof. repeat split; vm_compute; reflexivity. Qed.

(** C1. In a room whose two seats are alice and bob, with a fresh
    scoreboard and no pending choice, alice submitting rock and bob
    submitting scissors through player-choice for that room yields one
    round-result broadcast for the current round, won by alice's seat
    (player1 when alice is seated first, player2 otherwise) with scores
    alice 1, bob 0, followed by the start of the next round; nothing is
    sent to either submitter, so no error is signalled. *)
Theorem rock_beats_scissors_round (w : World) (r : string) (l : nat) (rs : RoomState.t)
    (alice bob sa sb ia ib : string) (aliceFirst : bool) :
  roomStates w !! r = Some l ->
  heap w !! l = Some rs ->
  RoomState.connectedUsers rs
  = (if aliceFirst then [Seat.mk alice ia; Seat.mk bob ib]
     else [Seat.mk bob ib; Seat.mk alice ia]) ->
  alice <> bob -> alice <> ""%string -> bob <> ""%string ->
  RoomState.scores rs = {[ alice := Num 0; bob := Num 0 ]} ->
  RoomState.choices rs = ∅ ->
  exists w',
    run [PlayerChoice sa (Str alice) r (Str "rock");
         PlayerChoice sb (Str bob) r (Str "scissors")] w = Ok tt w'
    /\ emitted w'
       = emitted w
         ++ [ToRoom r "round-result"
               (RoundResult (RoomState.round rs)
                  {[ alice := Str "rock"; bob := Str "scissors" ]}
                  (if aliceFirst then player1 else player2)
                  {[ alice := Num 1; bob := Num 0 ]});
             ToRoom r "start-round" (StartRound (RoomState.round rs + 1) 20)].
Proof.
  intros Hr Hl Hcu Hne Ha Hb Hsc Hch.
  set (rs1 := recorded (Str alice) (Str "rock") rs).
  set (w1 := set_heap (<[l := rs1]>) w).
  set (rs2 := recorded (Str bob) (Str "scissors") rs1).
  assert (Hch1 : RoomState.choices rs1 = {[ alice := Str "rock" ]}).
  { unfold rs1, recorded. rewrite (str_truthy _ Ha). simpl. by rewrite Hch. }
  assert (Hch2 : RoomState.choices rs2 = {[ alice := Str "rock"; bob := Str "scissors" ]}).
  { unfold rs2, recorded. rewrite (str_truthy _ Hb). simpl. rewrite Hch1.
    apply insert_insert_ne. congruence. }
  assert (Hcu2 : RoomState.connectedUsers rs2 = RoomState.connectedUsers rs).
  { unfold rs2, rs1, recorded. rewrite (str_truthy _ Ha), (str_truthy _ Hb). done. }
  assert (Hsc2 : RoomState.scores rs2 = RoomState.scores rs).
  { unfold rs2, rs1, recorded. rewrite (str_truthy _ Ha), (str_truthy _ Hb). done. }
  assert (Hrd2 : RoomState.round rs2 = RoomState.round rs).
  { unfold rs2, rs1, recorded. rewrite (str_truthy _ Ha), (str_truthy _ Hb). done. }
  exists (roundOutcome r l rs2 (set_heap (<[l := rs2]>) w1)). split.
  - unfold run, forEach, step.
    erewrite bind_Ok.
    2:{ apply (choice_held _ _ _ _ _ _ _ Hr Hl); [by right |].
        fold rs1. rewrite Hch1, map_size_singleton. lia. }
    rewrite bind_ret_r. fold rs1. fold w1.
    apply choice_resolves; [done | by (unfold w1; side) | by right |].
    fold rs2. rewrite Hch2.
    rewrite map_size_insert_None, map_size_singleton; [done |].
    by rewrite lookup_singleton_ne.
  - unfold roundOutcome, announced, roundResult, scoresAfter, bump, prop, playerAt.
    rewrite Hcu2, Hsc2, Hrd2, Hch2, Hcu, Hsc.
    destruct aliceFirst; cbn [lookup list_lookup Seat.username key].
    all: map_lookups; cbn [default from_option id].
    all: change (determineRoundWinner (Str "rock") (Str "scissors")) with player1.
    all: change (determineRoundWinner (Str "scissors") (Str "rock")) with player2.
    all: cbn [incr]; map_lookups; cbn [is5 num_strict_eq Z.eqb Z.add Pos.eqb orb emitted].
    all: unfold w1; wnorm; reflexivity.
Qed.

Lemma rock_beats_scissors_round_witness :
  exists w',
    run Scenario.aliceWins Scenario.seated = Ok tt w'
    /\ emitted w'
       = emitted Scenario.seated
         ++ [ToRoom Scenario.room "round-result"
               (RoundResult 1 {[ "alice" := Str "rock"; "bob" := Str "scissors" ]} player1
                            {[ "alice" := Num 1; "bob" := Num 0 ]});
             ToRoom Scenario.room "start-round" (StartRound 2 20)].
Proof.
  apply (rock_beats_scissors_round Scenario.seated Scenario.room 0%nat Scenario.seatedRoom
           "alice" "bob" "sa" "sb" "sa" "sb" true).
  - vm_compute; reflexivity.
  - vm_compute; reflexivity.
  - reflexivity.
  - discriminate.
  - discriminate.
  - discriminate.
  - reflexivity.
  - reflexivity.
Defined.




(** C4. When a call of [handlePlayerChoice] resolves a round between the
    two seats, the scoreboard is updated first; then, if exactly one
    seat's score equals 5 the game ends with that seat's username as
    winner, if both equal 5 it ends with winner ["tie"], and in these
    cases the room is torn down; if neither equals 5 the room stays and
    the next round starts.  The call is either a submission with a valid
    choice or the call of the round timer. *)
Theorem game_over_at_five (w : World) (socket : option string) (u c : value) (r : string)
    (l : nat) (rs : RoomState.t) (s1 s2 : Seat.t) :
  roomStates w !! r = Some l ->
  heap w !! l = Some rs ->
  RoomState.connectedUsers rs = [s1; s2] ->
  socket = None \/ validChoice c = true ->
  size (RoomState.choices (recorded u c rs)) = 2%nat ->
  exists w' rs' result,
    handlePlayerChoice socket u r c w = Ok tt w'
    /\ heap w' !! l = Some rs'
    /\ let x := RoomState.scores rs' !! Seat.username s1 in
       let y := RoomState.scores rs' !! Seat.username s2 in
       let announce :=
         ToRoom r "round-result"
           (RoundResult (RoomState.round rs) (RoomState.choices (recorded u c rs)) result
                        (RoomState.scores rs')) in
       (x = Some (Num 5) /\ y <> Some (Num 5) ->
          roomStates w' !! r = None
          /\ emitted w'
             = emitted w
               ++ [announce; ToRoom r "game-over" (GameOver (Str (Seat.username s1)))])
       /\ (x <> Some (Num 5) /\ y = Some (Num 5) ->
          roomStates w' !! r = None
          /\ emitted w'
             = emitted w
               ++ [announce; ToRoom r "game-over" (GameOver (Str (Seat.username s2)))])
       /\ (x = Some (Num 5) /\ y = Some (Num 5) ->
          roomStates w' !! r = None
          /\ emitted w'
             = emitted w ++ [announce; ToRoom r "game-over" (GameOver (Str "tie"))])
       /\ (x <> Some (Num 5) /\ y <> Some (Num 5) ->
          roomStates w' !! r = Some l
          /\ emitted w'
             = emitted w
               ++ [announce;
                   ToRoom r "start-round" (StartRound (RoomState.round rs + 1) 20)]).
Proof.
  intros Hr Hl Hcu Hv Hsz.
  rewrite (choice_resolves _ _ _ _ _ _ _ Hr Hl Hv Hsz).
  set (rs1 := recorded u c rs).
  assert (H1 : playerAt 0 rs1 = Str (Seat.username s1)).
  { unfold playerAt, rs1. by rewrite recorded_connectedUsers, Hcu. }
  assert (H2 : playerAt 1 rs1 = Str (Seat.username s2)).
  { unfold playerAt, rs1. by rewrite recorded_connectedUsers, Hcu. }
  unfold roundOutcome, announced, roundWinner. rewrite H1, H2. cbn [key].
  set (sc := scoresAfter (roundResult rs1) (Str (Seat.username s1)) (Str (Seat.username s2))
                         (RoomState.scores rs1)).
  assert (Hrd : RoomState.round rs1 = RoomState.round rs) by apply recorded_round.
  rewrite Hrd.
  destruct (is5 (sc !! Seat.username s1)) eqn:E1;
    [apply is5_true in E1 | apply is5_false in E1];
    (destruct (is5 (sc !! Seat.username s2)) eqn:E2;
      [apply is5_true in E2 | apply is5_false in E2]); cbn [orb].
  all: eexists; eexists; exists (roundResult rs1).
  all: (split; [reflexivity |]).
  all: (split; [wnorm; apply lookup_insert_eq |]).
  all: cbn [RoomState.scores RoomState.set_roundTimeout]; cbv zeta.
  all: (split; [| split; [| split]]); intros [Hx Hy]; try contradiction.
  all: wnorm; rewrite ?lookup_delete_eq; (split; [try done |]); try reflexivity.
  - rewrite E1, E2. reflexivity.
  - rewrite E1, (num_strict_eq_5_l _ E2). reflexivity.
  - rewrite E2, (num_strict_eq_5_r _ E1). reflexivity.
Qed.

Lemma game_over_at_five_witness :
  exists w',
    handlePlayerChoice (Some "sb"%string) (Str "bob") Scenario.room (Str "scissors")
      Scenario.matchPoint
    = Ok tt w'
    /\ roomStates w' !! Scenario.room = None
    /\ last (emitted w') = Some (ToRoom Scenario.room "game-over" (GameOver (Str "alice"))).
Proof.
  destruct (game_over_at_five Scenario.matchPoint (Some "sb"%string) (Str "bob")
              (Str "scissors") Scenario.room 0%nat Scenario.matchPointRoom
              (Seat.mk "alice" "sa") (Seat.mk "bob" "sb"))
    as (w' & rs' & result & Hrun & Hheap & Hone & _).
  - vm_compute; reflexivity.
  - vm_compute; reflexivity.
  - reflexivity.
  - right; reflexivity.
  - vm_compute; reflexivity.
  - exists w'. split; [exact Hrun |].
    assert (E : handlePlayerChoice (Some "sb"%string) (Str "bob") Scenario.room
                  (Str "scissors") Scenario.matchPoint = Ok tt Scenario.gameOver)
      by (vm_compute; reflexivity).
    rewrite E in Hrun. apply Ok_inj in Hrun. subst w'.
    assert (E' : heap Scenario.gameOver !! 0%nat
                 = Some (RoomState.mk [Seat.mk "alice" "sa"; Seat.mk "bob" "sb"]
                           {[ "alice" := Num 5; "bob" := Num 0 ]} 6 ∅ (Some 4%nat)))
      by (vm_compute; reflexivity).
    rewrite E' in Hheap. apply (inj Some) in Hheap. subst rs'.
    destruct Hone as [Hgone Hem].
    + split; [vm_compute; reflexivity | vm_compute; discriminate].
    + split; [exact Hgone |]. vm_compute; reflexivity.
Defined.

(** C7. When the grace timer for (username, room) fires and the username
    is not among the room's seats, every registry entry of that username
    is purged; if a seat remains its username is broadcast as the winner
    of the game, and then the room is torn down ([cleanupGame]).  With no
    room under that name only the purge happens.  If the username is
    seated again, the firing changes nothing and sends nothing. *)
Theorem grace_expiry (w : World) (username room : string) :
  (forall l rs,
     roomStates w !! room = Some l -> heap w !! l = Some rs ->
     seatedAs username rs = false ->
     exists w',
       graceExpiry username room w = Ok tt w'
       /\ connectedUsers w' = purge username (connectedUsers w)
       /\ Forall (fun e => User.username (snd e) <> username) (connectedUsers w')
       /\ emitted w' = emitted w ++ forfeit room rs
       /\ cleanupGame room
            (mkWorld (purge username (connectedUsers w)) (roomStates w) (heap w)
                     (nextObject w) (timers w) (nextTimer w) (rooms w)
                     (emitted w ++ forfeit room rs))
          = Ok tt w'
       /\ roomStates w' !! room = None)
  /\ (roomStates w !! room = None ->
      graceExpiry username room w = Ok tt (set_connectedUsers (purge username) w))
  /\ (forall l rs,
        roomStates w !! room = Some l -> heap w !! l = Some rs ->
        seatedAs username rs = true ->
        graceExpiry username room w = Ok tt w).
Proof.
  split; [| split].
  - intros l rs Hr Hl Hs. unfold graceExpiry. mstep. rewrite Hr. cbn [from_option].
    rewrite Hl. unfold seatedAs in Hs. rewrite Hs. cbn [negb]. repeat mstep.
    unfold forfeit.
    destruct (RoomState.connectedUsers rs) as [|first rest] eqn:Hcu; repeat mstep.
    all: erewrite !cleanupGame_eq by side.
    all: eexists; split; [reflexivity |].
    all: wnorm; rewrite ?app_nil_r, ?lookup_delete_eq.
    all: repeat split; try done; apply purge_Forall.
  - apply graceExpiry_absent.
  - intros l rs Hr Hl Hs. unfold graceExpiry. mstep. rewrite Hr. cbn [from_option].
    rewrite Hl. unfold seatedAs in Hs. rewrite Hs. reflexivity.
Qed.

Lemma grace_expiry_witness :
  exists w',
    graceExpiry "bob" Scenario.room Scenario.bobLeft = Ok tt w'
    /\ emitted w'
       = emitted Scenario.bobLeft
         ++ [ToRoom Scenario.room "game-over" (GameOver (Str "alice"))]
    /\ roomStates w' !! Scenario.room = None.
Proof.
  destruct (proj1 (grace_expiry Scenario.bobLeft "bob" Scenario.room) 0%nat
              Scenario.bobLeftRoom)
    as (w' & Hrun & _ & _ & Hem & _ & Hgone).
  - vm_compute; reflexivity.
  - vm_compute; reflexivity.
  - reflexivity.
  - exists w'. split; [exact Hrun |]. split; [exact Hem | exact Hgone].
Defined.

(** After alice's return both grace timers of her disconnect are still
    pending.  The one for the room finds her seated and does nothing; the
    one [handleDisconnecting] started for the socket's own-id room finds
    no room of that name and purges her new registry entry. *)
Lemma grace_timers_after_rejoin :
  pending 3 (timers Scenario.rejoined) = Some (GraceExpiry "alice" Scenario.room)
  /\ graceExpiry "alice" Scenario.room Scenario.rejoined = Ok tt Scenario.rejoined
  /\ pending 2 (timers Scenario.rejoined) = Some (GraceExpiry "alice" "sa")
  /\ graceExpiry "alice" "sa" Scenario.rejoined
     = Ok tt (set_connectedUsers (fun _ => [("sb"%string, User.mk "bob" "abcde" "sb")])
                                 Scenario.rejoined).
Proof. repeat split; vm_compute; reflexivity. Qed.

(** C8 (amended). Teardown ([cleanupGame]) removes the room from the
    room table and cancels its round timer, whose later firing has no
    effect; it cancels no other timer, so the grace timers stay pending;
    it leaves the registry and the broadcasts as they are, and running it
    again changes nothing.  A grace timer of the room that fires while no
    room is registered under that name sends nothing and leaves the room
    table and the timers as they are, but still purges the registry
    entries of its username. *)
Theorem teardown_cancels_round_timer (w : World) (r : string) (l : nat) (rs : RoomState.t) :
  roomStates w !! r = Some l ->
  heap w !! l = Some rs ->
  exists w',
    cleanupGame r w = Ok tt w'
    /\ roomStates w' = delete r (roomStates w)
    /\ connectedUsers w' = connectedUsers w
    /\ emitted w' = emitted w
    /\ (forall t, RoomState.roundTimeout rs = Some t ->
          pending t (timers w') = None /\ step (Fire t) w' = Ok tt w')
    /\ (forall t, RoomState.roundTimeout rs <> Some t ->
          pending t (timers w') = pending t (timers w))
    /\ cleanupGame r w' = Ok tt w'
    /\ (forall w'' username,
          roomStates w'' !! r = None ->
          exists w3,
            graceExpiry username r w'' = Ok tt w3
            /\ emitted w3 = emitted w''
            /\ roomStates w3 = roomStates w''
            /\ timers w3 = timers w''
            /\ connectedUsers w3 = purge username (connectedUsers w'')).
Proof.
  intros Hr Hl. rewrite (cleanupGame_eq _ _ _ _ Hr Hl).
  eexists. split; [reflexivity |]. wnorm.
  repeat split; try done.
  - rewrite H. apply pending_clearTimer.
  - unfold step. mstep. wnorm. rewrite H, pending_clearTimer. reflexivity.
  - intros t Ht. by apply pending_clearTimer_ne.
  - apply cleanupGame_absent. wnorm. apply lookup_delete_eq.
  - intros w'' username Hn. rewrite (graceExpiry_absent _ _ _ Hn).
    eexists. split; [reflexivity |]. done.
Qed.

Lemma teardown_cancels_round_timer_witness :
  exists w',
    cleanupGame Scenario.room Scenario.seated = Ok tt w'
    /\ roomStates w' = delete Scenario.room (roomStates Scenario.seated)
    /\ pending 0 (timers w') = None
    /\ cleanupGame Scenario.room w' = Ok tt w'.
Proof.
  destruct (teardown_cancels_round_timer Scenario.seated Scenario.room 0%nat
              Scenario.seatedRoom)
    as (w' & Hrun & Hgone & _ & _ & Hround & _ & Hagain & _).
  - vm_compute; reflexivity.
  - vm_compute; reflexivity.
  - exists w'. split; [exact Hrun |]. split; [exact Hgone |].
    split; [| exact Hagain]. exact (proj1 (Hround 0%nat eq_refl)).
Defined.

(** C8 (counterexample). Alice and bob both leave a running game.  The
    grace of bob expires first and tears the room down, while the grace
    timer that alice's disconnect scheduled for the room is still
    pending.  Carol and dave then open a room of the same name; when the
    stale timer fires, it announces carol as winner and destroys their
    room. *)
Lemma stale_grace_timer_ends_new_game :
  run Scenario.bothLeave Scenario.seated = Ok tt Scenario.tornDown
  /\ roomStates Scenario.tornDown !! Scenario.room = None
  /\ pending 4 (timers Scenario.tornDown) = Some (GraceExpiry "alice" Scenario.room)
  /\ run Scenario.newGame Scenario.tornDown = Ok tt Scenario.reopened
  /\ roomStates Scenario.reopened !! Scenario.room = Some 1%nat
  /\ step (Fire 4) Scenario.reopened = Ok tt Scenario.staleGrace
  /\ roomStates Scenario.staleGrace !! Scenario.room = None
  /\ emitted Scenario.staleGrace
     = emitted Scenario.reopened
       ++ [ToRoom Scenario.room "game-over" (GameOver (Str "carol"))].
Proof. repeat split; vm_compute; reflexivity. Qed.

(** C2 (failing input). With alice and bob seated, a join of the same
    room by carol on a third socket is accepted: the room holds three
    seats, carol is registered, and no exception is sent. *)
Theorem third_join_is_seated :
  run Scenario.joins init = Ok tt Scenario.seated
  /\ step Scenario.thirdJoin Scenario.seated = Ok tt Scenario.crowded
  /\ RoomState.connectedUsers <$> heap Scenario.crowded !! 0%nat
     = Some [Seat.mk "alice" "sa"; Seat.mk "bob" "sb"; Seat.mk "carol" "sc"]
  /\ Obj.get "sc" (connectedUsers Scenario.crowded) = Some (User.mk "carol" "abcde" "sc")
  /\ emitted Scenario.crowded
     = emitted Scenario.seated
       ++ [ToRoom Scenario.room "room-event:join" (Text "carol joined room:abcde")].
Proof. repeat split; vm_compute; reflexivity. Qed.

(** C5 (failing input). Alice has won round 1 and lost her connection;
    when she joins again on socket ["sa2"] her registry entry and her
    seat move to the new socket, but her score drops from 1 to 0. *)
Theorem rejoin_resets_score :
  run (Scenario.aliceWins ++ [Disconnecting "sa"]) Scenario.seated = Ok tt Scenario.aliceLeft
  /\ RoomState.scores <$> heap Scenario.aliceLeft !! 0%nat
     = Some {[ "alice" := Num 1; "bob" := Num 0 ]}
  /\ step Scenario.rejoin Scenario.aliceLeft = Ok tt Scenario.rejoined
  /\ connectedUsers Scenario.rejoined
     = [("sb"%string, User.mk "bob" "abcde" "sb"); ("sa2"%string, User.mk "alice" "abcde" "sa2")]
  /\ RoomState.connectedUsers <$> heap Scenario.rejoined !! 0%nat
     = Some [Seat.mk "bob" "sb"; Seat.mk "alice" "sa2"]
  /\ RoomState.scores <$> heap Scenario.rejoined !! 0%nat
     = Some {[ "alice" := Num 0; "bob" := Num 0 ]}.
Proof. repeat split; vm_compute; reflexivity. Qed.

Lemma pending_app {C} (t : nat) (ts ts' : list (nat * C)) (cb : C) :
  pending t ts = Some cb -> pending t (ts ++ ts') = Some cb.
Proof.
  unfold pending. induction ts as [|p ts IH]; simpl; [done |].
  destruct (fst p =? t)%nat; [done | exact IH].
Qed.

(** Handling a disconnect cancels no timer at all: whatever was pending
    before [handleDisconnecting] is pending after it. *)
Lemma handleDisconnecting_keeps_timers (socket : string) (t : nat) (cb : Callback) :
  preserves (fun w => pending t (timers w) = Some cb) (handleDisconnecting socket).
Proof.
  unfold handleDisconnecting. intros w a w' Hp. unfold bind at 1, get.
  apply (preserves_forEach (fun w => pending t (timers w) = Some cb)); [| exact Hp].
  intros room. unfold disconnectingFrom.
  intros w1 a1 w1' Hp1. unfold bind at 1, get.
  destruct (Obj.get socket (connectedUsers w1)) as [user|]; [| by intros [= _ <-]].
  revert Hp1. revert w1 a1 w1'.
  change (preserves (fun w => pending t (timers w) = Some cb)
            (emit (ToRoom room "room-event:disconnect"
                     (Text (User.username user +:+ " disconnected from " +:+ room)));;
             markUserForReconnection (User.username user) room)).
  apply preserves_bind; [apply preserves_modify; by intros | intros _].
  unfold markUserForReconnection.
  intros w2 a2 w2' Hp2. unfold bind at 1, get. revert Hp2. revert w2 a2 w2'.
  intros w2. 
  change (forall a2 w2', pending t (timers w2) = Some cb ->
            (match roomStates w2 !! room with
             | Some l =>
                 updRoom l
                   (RoomState.set_connectedUsers
                      (List.filter (fun user0 =>
                         negb (Seat.username user0 =? User.username user)%string)))
             | None => ret ()
             end;;
             let! _ := setTimeout (GraceExpiry (User.username user) room) in ret ()) w2
            = Ok a2 w2' -> pending t (timers w2') = Some cb).
  intros a2 w2' Hp2.
  apply (preserves_bind (fun w => pending t (timers w) = Some cb)); [| | exact Hp2].
  - destruct (roomStates w2 !! room); [| apply preserves_ret].
    apply preserves_modify. by intros.
  - intros _. apply preserves_bind; [| intros ?; apply preserves_ret].
    intros w3 a3 w3' Hp3 [= _ <-]. cbn [timers]. by apply pending_app.
Qed.

(** C6 (failing input). When bob disconnects, the round timer of the
    room stays pending; when it fires during bob's grace period it
    records rock for alice and for the missing second seat, resolves
    round 1 as a tie, raises alice's score and starts round 2. *)
Theorem disconnect_keeps_round_timer :
  step (Disconnecting "sb") Scenario.seated = Ok tt Scenario.bobLeft
  /\ pending 0 (timers Scenario.bobLeft) = Some (RoundExpiry 0 Scenario.room)
  /\ RoomState.connectedUsers <$> heap Scenario.bobLeft !! 0%nat
     = Some [Seat.mk "alice" "sa"]
  /\ step (Fire 0) Scenario.bobLeft = Ok tt Scenario.resolvedAlone
  /\ emitted Scenario.resolvedAlone
     = emitted Scenario.bobLeft
       ++ [ToRoom Scenario.room "round-result"
             (RoundResult 1 {[ "alice" := Str "rock"; "undefined" := Str "rock" ]} tie
                {[ "alice" := Num 1; "bob" := Num 0; "undefined" := NaN ]});
           ToRoom Scenario.room "start-round" (StartRound 2 20)].
Proof. repeat split; vm_compute; reflexivity. Qed.

End GameClaims.

(** ** The module with the pause flag: what it does on the same inputs *)

Module PausedFacts.
Import Paused PausedInv.

Lemma readRoom_Ok' w l rs : heap w !! l = Some rs -> readRoom l w = Ok rs w.
Proof. unfold readRoom. by intros ->. Qed.

Lemma updRoom_Ok' w l rs f :
  heap w !! l = Some rs -> updRoom l f w = Ok tt (set_heap (<[l := f rs]>) w).
Proof.
  intros H. unfold updRoom, modify, set_heap. do 2 f_equal.
  by apply alter_lookup_insert.
Qed.

Ltac wnorm :=
  cbv beta delta [set_heap set_roomStates set_timers set_connectedUsers set_rooms
       RoomState.set_connectedUsers RoomState.set_scores RoomState.set_round
       RoomState.set_choices RoomState.set_roundTimeout RoomState.set_paused];
  cbn [heap roomStates timers emitted nextTimer nextObject connectedUsers rooms
       RoomState.connectedUsers RoomState.scores RoomState.round RoomState.choices
       RoomState.roundTimeout RoomState.paused];
  rewrite ?insert_insert_eq.

Ltac side :=
  wnorm; rewrite ?lookup_insert_eq; first [eassumption | reflexivity].

Ltac mstep :=
  first
    [ rewrite bind_assoc
    | rewrite bind_when_true
    | rewrite bind_when_false
    | erewrite (bind_Ok (readRoom _)) by (apply readRoom_Ok'; side)
    | erewrite (bind_Ok (updRoom _ _)) by (apply updRoom_Ok'; side)
    | erewrite (bind_Ok get) by reflexivity
    | erewrite (bind_Ok (emit _)) by reflexivity
    | erewrite (bind_Ok (modify _)) by reflexivity
    | erewrite (bind_Ok (clearInterval _)) by reflexivity
    | erewrite (bind_Ok (setTimer _)) by reflexivity
    | erewrite (bind_Ok (ret _)) by reflexivity ];
  cbv beta.

(** On a disconnect from an existing room the module pauses the room and
    clears its countdown before it starts the grace timer. *)
Lemma disconnectingFrom_clears_countdown (w : World) (socket R : string) (user : User.t)
    (l : nat) (rs : RoomState.t) :
  Obj.get socket (connectedUsers w) = Some user ->
  roomStates w !! R = Some l ->
  heap w !! l = Some rs ->
  disconnectingFrom socket R w
  = Ok tt
      (mkWorld (connectedUsers w) (roomStates w)
         (<[l := RoomState.mk
                   (List.filter (fun seat => negb (Seat.username seat =? User.username user)%string)
                                (RoomState.connectedUsers rs))
                   (RoomState.scores rs) (RoomState.round rs) (RoomState.choices rs)
                   (RoomState.roundTimeout rs) true]> (heap w))
         (nextObject w)
         (clearTimer (RoomState.roundTimeout rs) (timers w)
            ++ [(nextTimer w, GraceExpiry (User.username user) R)])
         (S (nextTimer w)) (rooms w)
         (emitted w
            ++ [ToRoom R "room-event:disconnect"
                  (Text (User.username user +:+ " disconnected from " +:+ R))])).
Proof.
  intros Hu Hr Hl. unfold disconnectingFrom. mstep. rewrite Hu, Hr.
  repeat mstep. unfold markUserForReconnection. mstep. wnorm. rewrite Hr.
  repeat mstep. unfold ret. wnorm. reflexivity.
Qed.

Lemma pending_cleared_countdown {C} (t n : nat) (ts : list (nat * C)) (cb : C) :
  (t < n)%nat -> pending t (clearTimer (Some t) ts ++ [(n, cb)]) = None.
Proof.
  intros Hlt. pose proof (pending_clearTimer t ts) as Hc. revert Hc.
  generalize (clearTimer (Some t) ts). intros ts0. unfold pending.
  induction ts0 as [|p ts0 IH]; simpl.
  - intros _. destruct (Nat.eqb_spec n t); [lia | done].
  - destruct (fst p =? t)%nat; [done | exact IH].
Qed.

Section Keeps.
Variables (R : string) (l : nat) (sc : gmap string num).
Abbreviation P := (keeps R l sc).

Lemma keeps_get {B} (k : World -> M World B) :
  (forall w, P w -> preserves P (k w)) -> preserves P (bind get k).
Proof. intros H w b w' HP Hk. exact (H w HP w b w' HP Hk). Qed.

Lemma keeps_emit (e : Emit) : preserves P (emit e).
Proof. apply preserves_modify. intros w H. exact H. Qed.

Lemma keeps_join (socket room : string) : preserves P (join socket room).
Proof. apply preserves_modify. intros w H. exact H. Qed.

Lemma keeps_registry f : preserves P (modify (set_connectedUsers f)).
Proof. apply preserves_modify. intros w H. exact H. Qed.

Lemma keeps_clearInterval h : preserves P (clearInterval h).
Proof. apply preserves_modify. intros w H. exact H. Qed.

Lemma keeps_setTimer cb : preserves P (setTimer cb).
Proof. intros w a w' H [= _ <-]. exact H. Qed.

Lemma keeps_readRoom l' : preserves P (readRoom l').
Proof.
  intros w a w' H. unfold readRoom. destruct (heap w !! l'); [| done].
  by intros [= _ <-].
Qed.

Lemma keeps_updRoom l' f :
  (forall rs, RoomState.scores (f rs) = RoomState.scores rs) ->
  preserves P (updRoom l' f).
Proof.
  intros Hf. apply preserves_modify. intros w [Hr (rs & Hl & Hs)].
  split; [exact Hr |]. unfold set_heap. cbn [heap].
  destruct (decide (l' = l)) as [->|Hne].
  - exists (f rs). rewrite lookup_alter_eq, Hl. split; [done |]. by rewrite Hf.
  - exists rs. by rewrite lookup_alter_ne.
Qed.

(** [if (!scores[username]) scores[username] = 0] on the room itself. *)
Lemma keeps_initScore (username : string) (z : Z) :
  sc !! username = Some (Num z) ->
  preserves P
    (let! rs := readRoom l in
     when (score_falsy (RoomState.scores rs !! username))
          (updRoom l (RoomState.set_scores (<[username := Num 0]>)))).
Proof.
  intros Hz w a w' HP. pose proof HP as [Hr (rs & Hl & Hs)].
  rewrite (bind_Ok _ _ _ _ _ (readRoom_Ok' w l rs Hl)).
  rewrite Hs, Hz. cbn [score_falsy]. destruct (Z.eqb_spec z 0) as [->|Hne].
  - cbn [when]. intros [= _ <-]. split; [exact Hr |].
    exists (RoomState.set_scores (<[username := Num 0]>) rs).
    unfold set_heap. cbn [heap]. rewrite lookup_alter_eq, Hl. split; [done |].
    cbn. rewrite Hs. by apply insert_id.
  - cbn [when]. by intros [= _ <-].
Qed.

Lemma keeps_startNextRound : preserves P (startNextRound R).
Proof.
  unfold startNextRound. apply keeps_get. intros w [Hr _]. rewrite Hr.
  apply preserves_bind; [apply keeps_readRoom | intros rs].
  destruct (RoomState.paused rs); [apply preserves_ret |].
  apply preserves_bind; [apply keeps_clearInterval | intros _].
  apply preserves_bind; [apply keeps_setTimer | intros h].
  by apply keeps_updRoom.
Qed.
End Keeps.

(** A join into an existing room leaves the scoreboard as it is when the
    joiner already has a score: [scores[username]] is only initialised
    when it is falsy. *)
Lemma join_keeps_scores (socket username room : string) (l : nat)
    (sc : gmap string num) (z : Z) :
  sc !! username = Some (Num z) ->
  preserves (keeps ("room:" +:+ room) l sc)
            (handleConnectToRoom socket (Str username) (Str room)).
Proof.
  intros Hz. unfold handleConnectToRoom. cbn [key].
  set (R := ("room:" +:+ room)%string).
  destruct (_ || _); [apply keeps_emit |].
  assert (Hrest : preserves (keeps R l sc)
    (let! w := get in
      (if existsb (fun user => (User.username user =? username)%string
                               && (User.room user =? room)%string)
                  (Obj.values (connectedUsers w))
       then
         match List.find (fun id => match Obj.get id (connectedUsers w) with
                                    | Some user => (User.username user =? username)%string
                                    | None => false
                                    end)
                         (Obj.keys (connectedUsers w)) with
         | Some id => when (negb (id =? "")%string)
                           (modify (set_connectedUsers (Obj.del id)))
         | None => ret tt
         end ;;
         modify (set_connectedUsers (Obj.set socket (User.mk username room socket))) ;;
         emit (ToSocket socket "room-event:reconnect"
                 (Text (username +:+ " rejoined " +:+ R))) ;;
         let! w := get in
         match roomStates w !! R with
         | Some l => updRoom l (RoomState.set_paused false)
         | None => throw
         end
       else
         modify (set_connectedUsers (Obj.set socket (User.mk username room socket)))) ;;
      let! w := get in
      match roomStates w !! R with
      | None =>
          let! l := newRoom (RoomState.mk [Seat.mk username socket] {[ username := Num 0 ]}
                                          1 ∅ None false) in
          modify (set_roomStates (<[R := l]>))
      | Some l =>
          updRoom l (RoomState.set_connectedUsers
                       (fun us => us ++ [Seat.mk username socket])) ;;
          let! rs := readRoom l in
          when (score_falsy (RoomState.scores rs !! username))
               (updRoom l (RoomState.set_scores (<[username := Num 0]>)))
      end ;;
      emit (ToRoom R "room-event:join" (Text (username +:+ " joined " +:+ R))) ;;
      let! w := get in
      match roomStates w !! R with
      | Some l =>
          let! rs := readRoom l in
          when (Nat.eqb (length (RoomState.connectedUsers rs)) 2)
               (emit (ToRoom R "room-event:ready"
                        (Text "players are ready, waiting for choice")) ;;
                startNextRound R)
      | None => throw
      end)).
  { apply keeps_get. intros w0 _.
    apply preserves_bind; [| intros _].
    { destruct (existsb _ _).
      - apply preserves_bind; [| intros _].
        { destruct (List.find _ _); [| apply preserves_ret].
          apply preserves_when, keeps_registry. }
        apply preserves_bind; [apply keeps_registry | intros _].
        apply preserves_bind; [apply keeps_emit | intros _].
        apply keeps_get. intros w1 [Hr _]. rewrite Hr. by apply keeps_updRoom.
      - apply keeps_registry. }
    apply keeps_get. intros w1 [Hr _]. rewrite Hr.
    apply preserves_bind; [| intros _].
    { apply preserves_bind; [by apply keeps_updRoom | intros _].
      by apply (keeps_initScore R l sc username z). }
    apply preserves_bind; [apply keeps_emit | intros _].
    apply keeps_get. intros w2 [Hr2 _]. rewrite Hr2.
    apply preserves_bind; [apply keeps_readRoom | intros rs2].
    apply preserves_when.
    apply preserves_bind; [apply keeps_emit | intros _].
    apply keeps_startNextRound. }
  apply preserves_bind; [apply keeps_join | intros _].
  apply keeps_get. intros w [Hr _]. rewrite Hr.
  apply preserves_bind; [apply keeps_readRoom | intros rs].
  destruct (RoomState.connectedUsers rs) as [|first rest]; [exact Hrest |].
  destruct (_ =? _)%string; [apply preserves_ret | exact Hrest].
Qed.

(** The scoreboard after alice's return is the one she left. *)
Lemma rejoin_keeps_score :
  run (PausedScenario.aliceWins ++ [Disconnecting "sa"]) PausedScenario.seated
  = Ok tt PausedScenario.aliceLeft
  /\ RoomState.scores <$> heap PausedScenario.aliceLeft !! 0%nat
     = Some {[ "alice" := Num 1; "bob" := Num 0 ]}
  /\ step PausedScenario.rejoin PausedScenario.aliceLeft = Ok tt PausedScenario.rejoined
  /\ RoomState.connectedUsers <$> heap PausedScenario.rejoined !! 0%nat
     = Some [Seat.mk "bob" "sb"; Seat.mk "alice" "sa2"]
  /\ RoomState.scores <$> heap PausedScenario.rejoined !! 0%nat
     = Some {[ "alice" := Num 1; "bob" := Num 0 ]}.
Proof. repeat split; vm_compute; reflexivity. Qed.

(** A disconnect pauses the room and clears its countdown, so the
    countdown does not tick during the grace period. *)
Lemma disconnect_clears_countdown :
  pending 0 (timers PausedScenario.seated) = Some (Countdown 0 PausedScenario.room 1)
  /\ step (Disconnecting "sb") PausedScenario.seated = Ok tt PausedScenario.bobLeft
  /\ timers PausedScenario.bobLeft = [(1%nat, GraceExpiry "bob" PausedScenario.room)]
  /\ RoomState.paused <$> heap PausedScenario.bobLeft !! 0%nat = Some true
  /\ step (Fire 0) PausedScenario.bobLeft = Ok tt PausedScenario.bobLeft.
Proof. repeat split; vm_compute; reflexivity. Qed.

End PausedFacts.

(** ** The lobby: a full room refuses a third socket *)

Module LobbyFacts.
Import Lobby LobbyInv.

Lemma bounded_insert (w : World) (r : string) (us : list string) :
  bounded w -> (length us <= 2)%nat -> bounded (set_roomStates (<[r := us]>) w).
Proof.
  intros Hb Hl r' us'. unfold set_roomStates. simpl.
  destruct (decide (r = r')) as [->|Hne].
  - rewrite lookup_insert_eq. by intros [= <-].
  - rewrite lookup_insert_ne by done. apply Hb.
Qed.

Lemma bounded_delete (w : World) (r : string) :
  bounded w -> bounded (set_roomStates (delete r) w).
Proof.
  intros Hb r' us'. unfold set_roomStates. simpl.
  destruct (decide (r = r')) as [->|Hne].
  - by rewrite lookup_delete_eq.
  - rewrite lookup_delete_ne by done. apply Hb.
Qed.

Lemma bounded_emit (e : Emit) : preserves bounded (emit e).
Proof. apply preserves_modify. intros s H. exact H. Qed.

Lemma filter_length_le {A} (f : A -> bool) (l : list A) :
  (length (List.filter f l) <= length l)%nat.
Proof. induction l as [|x l IH]; simpl; [lia |]. destruct (f x); simpl; lia. Qed.

Lemma removeUserFromRoom_bounded (socketId room : string) :
  preserves bounded (removeUserFromRoom socketId room).
Proof.
  intros w a w' Hb. unfold removeUserFromRoom, bind, get.
  destruct (roomStates w !! room) as [us|] eqn:E.
  - cbn [modify]. unfold when.
    set (us' := List.filter _ us).
    assert (length us' <= 2)%nat.
    { pose proof (filter_length_le (fun id => negb (String.eqb id socketId)) us).
      pose proof (Hb _ _ E). unfold us'. lia. }
    destruct (length us' =? 0)%nat; intros [= _ <-].
    + by apply bounded_delete, bounded_insert.
    + by apply bounded_insert.
  - intros [= _ <-]. exact Hb.
Qed.

Lemma handleDisconnecting_bounded (socket : string) :
  preserves bounded (handleDisconnecting socket).
Proof.
  unfold handleDisconnecting. intros w a w' Hb. unfold bind at 1 2, get.
  destruct (forEach _ _ w) as [[] w1|] eqn:E; [| done].
  intros [= _ <-].
  assert (Hbody : forall room, preserves bounded (disconnectingFrom socket room)).
  { intros room w2 a2 w3 Hb2. unfold disconnectingFrom, bind at 1, get.
    destruct (connectedUsers w2 !! socket).
    - intros Hrun.
      eapply (preserves_bind bounded);
        [apply bounded_emit | intros ?; apply removeUserFromRoom_bounded
        | exact Hb2 | exact Hrun].
    - intros [= _ <-]. exact Hb2. }
  pose proof (preserves_forEach bounded _ _ Hbody w tt w1 Hb E) as H.
  intros r us. apply H.
Qed.

Lemma handleConnectToRoom_bounded (socket : string) (username room : value) :
  preserves bounded (handleConnectToRoom socket username room).
Proof.
  intros w a w' Hb. unfold handleConnectToRoom.
  destruct (negb (truthy username)); [by apply bounded_emit |].
  destruct room as [| |s]; [done | done |].
  destruct (Z.of_nat (String.length s) <=? 4); [by apply bounded_emit |].
  unfold bind at 1, get. cbn [key].
  destruct (bool_decide _); [by apply bounded_emit |].
  destruct (2 <=? length (default [] (roomStates w !! ("room:" +:+ s))))%nat eqn:E;
    [by apply bounded_emit |].
  apply Nat.leb_gt in E.
  unfold bind, join, modify, emit, get, when. cbn.
  match goal with
  | |- context [Nat.eqb ?n 2] => destruct (Nat.eqb n 2)
  end.
  all: intros [= _ <-]; intros r us; cbn.
  all: rewrite insert_insert_eq, lookup_insert_eq; cbn.
  all: destruct (decide (("room:" +:+ s)%string = r)) as [<-|Hne];
    [ rewrite lookup_insert_eq; intros [= <-]; rewrite length_app; simpl; lia
    | rewrite lookup_insert_ne by done; apply Hb ].
Qed.

Lemma step_bounded (e : Event) : preserves bounded (step e).
Proof.
  destruct e as [socket username room | socket]; simpl.
  - apply handleConnectToRoom_bounded.
  - apply preserves_bind; [apply handleDisconnecting_bounded | intros _].
    apply preserves_modify. intros s H. exact H.
Qed.

Lemma init_bounded : bounded init.
Proof. intros r us. cbn. by rewrite lookup_empty. Qed.

(** In the lobby of [socket.js] no room ever lists more than two sockets. *)
Lemma lobby_rooms_bounded (es : list Event) (w : World) :
  run es init = Ok tt w -> bounded w.
Proof.
  intros H. exact (preserves_forEach bounded _ _ step_bounded init tt w init_bounded H).
Qed.

(** X23. A join into a room that already lists two sockets is refused
    with an exception sent to the joining socket, and nothing else
    changes. *)
Lemma lobby_full_room_rejects (w : World) (socket username room : string) (us : list string) :
  username <> ""%string ->
  (4 < String.length room)%nat ->
  connectedUsers w !! socket = None ->
  roomStates w !! ("room:" +:+ room)%string = Some us ->
  (2 <= length us)%nat ->
  handleConnectToRoom socket (Str username) (Str room) w
  = Ok tt (mkWorld (connectedUsers w) (roomStates w) (rooms w)
                   (emitted w ++ [ToSocket socket "exception" (Text "room full")])).
Proof.
  intros Hu Hlen Hc Hr Hfull. unfold handleConnectToRoom. cbn [truthy negb key].
  destruct (String.eqb_spec username ""); [done |]. cbn [negb].
  destruct (Z.leb_spec (Z.of_nat (String.length room)) 4); [lia |].
  unfold bind at 1, get. rewrite Hc, Hr. cbn [default from_option id].
  rewrite bool_decide_eq_false_2 by (by intros [? ?]).
  destruct (Nat.leb_spec 2 (length us)); [| lia]. reflexivity.
Qed.


(** The third join of the scenario is refused by the lobby. *)
Lemma third_join_is_refused :
  run LobbyScenario.joins init = Ok tt LobbyScenario.seated
  /\ handleConnectToRoom "sc" (Str "carol") (Str "abcde") LobbyScenario.seated
     = Ok tt (mkWorld (connectedUsers LobbyScenario.seated)
                      (roomStates LobbyScenario.seated) (rooms LobbyScenario.seated)
                      (emitted LobbyScenario.seated
                         ++ [ToSocket "sc" "exception" (Text "room full")])).
Proof. split; vm_compute; reflexivity. Qed.

End LobbyFacts.

(** ** Insertion-ordered objects: reading after writing *)

Module ObjFacts.

Lemma get_replace {V} (k : string) (v : V) (o : list (string * V)) :
  is_Some (Obj.get k o) -> Obj.get k (Obj.replace k v o) = Some v.
Proof.
  unfold Obj.get. induction o as [|p o IH]; simpl.
  - by intros [? ?].
  - destruct (fst p =? k)%string eqn:E; simpl.
    + by rewrite String.eqb_refl.
    + by rewrite E.
Qed.

Lemma get_app_new {V} (k : string) (v : V) (o : list (string * V)) :
  Obj.get k o = None -> Obj.get k (o ++ [(k, v)]) = Some v.
Proof.
  unfold Obj.get. induction o as [|p o IH]; simpl.
  - by rewrite String.eqb_refl.
  - destruct (fst p =? k)%string eqn:E; simpl; [done | exact IH].
Qed.

Lemma get_set {V} (k : string) (v : V) (o : list (string * V)) :
  Obj.get k (Obj.set k v o) = Some v.
Proof.
  unfold Obj.set. destruct (Obj.get k o) eqn:E.
  - apply get_replace. rewrite E. eauto.
  - by apply get_app_new.
Qed.

Lemma get_del {V} (k k' : string) (o : list (string * V)) :
  Obj.get k (Obj.del k' o) = if String.eqb k k' then None else Obj.get k o.
Proof.
  unfold Obj.get, Obj.del. induction o as [|p o IH]; simpl.
  - by destruct (k =? k')%string.
  - destruct (String.eqb_spec (fst p) k') as [E|E]; simpl.
    + rewrite IH. destruct (String.eqb_spec k k') as [->|Hne]; [done |].
      destruct (String.eqb_spec (fst p) k); [congruence | done].
    + destruct (String.eqb_spec (fst p) k) as [E'|E']; simpl.
      * destruct (String.eqb_spec k k'); [congruence | done].
      * exact IH.
Qed.

End ObjFacts.

Module GameJoinFacts.
Import Game GameRound GameFacts GameJoin.

Ltac jstep :=
  first
    [ mstep
    | erewrite (bind_Ok (join _ _)) by reflexivity
    | erewrite (bind_Ok (newRoom _)) by reflexivity ];
  cbv beta.

Lemma valid_join (u room : string) :
  u <> ""%string -> (4 < String.length room)%nat ->
  negb (truthy (Str u)) || negb (truthy (Str room))
    || (Z.of_nat (String.length (key (Str room))) <=? 4) = false.
Proof.
  intros Hu Hr. rewrite (str_truthy _ Hu).
  assert (room <> ""%string) as Hne by (intros ->; simpl in Hr; lia).
  rewrite (str_truthy _ Hne). cbn [negb orb key].
  apply Z.leb_gt. lia.
Qed.

(** The part of [handleConnectToRoom] after the duplicate test, on a room
    that does not exist. *)

Ltac jsteps := repeat (jstep; wnorm).

(** The four ways through the registry update of a join. *)
Ltac registry_cases w :=
  unfold registered, greeting, isReconnecting, oldSocketId;
  destruct (existsb _ (Obj.values (connectedUsers w)));
  [ destruct (List.find _ (Obj.keys (connectedUsers w))) as [id|];
    [ destruct (negb (id =? "")%string) |] |].

Lemma join_opens (socket u room : string) (w : World) :
  u <> ""%string -> (4 < String.length room)%nat ->
  roomStates w !! ("room:" +:+ room) = None ->
  handleConnectToRoom socket (Str u) (Str room) w = Ok tt (opened socket u room w).
Proof.
  intros Hu Hlen Hr. unfold handleConnectToRoom. rewrite (valid_join _ _ Hu Hlen).
  cbn [key]. jsteps. rewrite Hr. jsteps. unfold opened. registry_cases w.
  all: jsteps; rewrite ?Hr; jsteps; rewrite ?lookup_insert_eq; jsteps.
  all: unfold joinNotice, joinedRooms; rewrite <- ?app_assoc; reflexivity.
Qed.

Lemma join_seats (socket u room : string) (l : nat) (rs : RoomState.t) (first : Seat.t)
    (others : list Seat.t) (w : World) :
  u <> ""%string -> (4 < String.length room)%nat ->
  roomStates w !! ("room:" +:+ room) = Some l ->
  heap w !! l = Some rs ->
  RoomState.connectedUsers rs = first :: others ->
  Seat.socketId first <> socket ->
  handleConnectToRoom socket (Str u) (Str room) w = Ok tt (seatedIn socket u room l rs w).
Proof.
  intros Hu Hlen Hr Hl Hcu Hne. unfold handleConnectToRoom.
  rewrite (valid_join _ _ Hu Hlen). cbn [key]. jsteps. rewrite Hr. jsteps. rewrite Hcu.
  apply String.eqb_neq in Hne. rewrite Hne. jsteps.
  unfold seatedIn, seatAdded. cbn [RoomState.connectedUsers]. registry_cases w.
  all: jsteps; rewrite ?Hr; jsteps; rewrite ?Hr; jsteps.
  all: destruct (Nat.eqb (length (RoomState.connectedUsers rs ++ _)) 2);
    cbv beta iota delta [when]; jsteps.
  all: try (erewrite startNextRound_eq by side; wnorm).
  all: unfold joinNotice, joinedRooms, ret; rewrite <- ?app_assoc; reflexivity.
Qed.

Lemma join_again (socket u room : string) (l : nat) (rs : RoomState.t) (first : Seat.t)
    (others : list Seat.t) (w : World) :
  u <> ""%string -> (4 < String.length room)%nat ->
  roomStates w !! ("room:" +:+ room) = Some l ->
  heap w !! l = Some rs ->
  RoomState.connectedUsers rs = first :: others ->
  Seat.socketId first = socket ->
  handleConnectToRoom socket (Str u) (Str room) w
  = Ok tt (set_rooms (joinedRooms socket ("room:" +:+ room)) w).
Proof.
  intros Hu Hlen Hr Hl Hcu He. unfold handleConnectToRoom.
  rewrite (valid_join _ _ Hu Hlen). cbn [key]. jsteps. rewrite Hr. jsteps. rewrite Hcu.
  apply String.eqb_eq in He. rewrite He. reflexivity.
Qed.

Lemma join_vacated (socket u room : string) (l : nat) (rs : RoomState.t) (w : World) :
  u <> ""%string -> (4 < String.length room)%nat ->
  roomStates w !! ("room:" +:+ room) = Some l ->
  heap w !! l = Some rs ->
  RoomState.connectedUsers rs = [] ->
  handleConnectToRoom socket (Str u) (Str room) w = TypeError.
Proof.
  intros Hu Hlen Hr Hl Hcu. unfold handleConnectToRoom.
  rewrite (valid_join _ _ Hu Hlen). cbn [key]. jsteps. rewrite Hr. jsteps. rewrite Hcu.
  reflexivity.
Qed.

Lemma join_refused (socket : string) (username room : value) (w : World) :
  truthy username = false \/ truthy room = false
    \/ (String.length (key room) <= 4)%nat ->
  handleConnectToRoom socket username room w
  = Ok tt (mkWorld (connectedUsers w) (roomStates w) (heap w) (nextObject w) (timers w)
             (nextTimer w) (rooms w)
             (emitted w ++ [ToSocket socket "exception" (Text "invalid room or username")])).
Proof.
  intros H. unfold handleConnectToRoom.
  replace (negb (truthy username) || negb (truthy room)
           || (Z.of_nat (String.length (key room)) <=? 4)) with true; [reflexivity |].
  symmetry. rewrite !orb_true_iff, !negb_true_iff, Z.leb_le.
  destruct H as [H | [H | H]]; auto. right. lia.
Qed.

End GameJoinFacts.

(** ** The game module: well-formed worlds *)

Module GameInvFacts.
Import Game GameRound GameFacts GameJoin GameLeave GameInv GameJoinFacts.

Lemma clearTimer_In {C} (h : option nat) (ts : list (nat * C)) (p : nat * C) :
  In p (clearTimer h ts) <-> In p ts /\ h <> Some (fst p).
Proof.
  destruct h as [t|]; simpl.
  - rewrite filter_In, negb_true_iff, Nat.eqb_neq. split; intros [? ?]; split; congruence.
  - split; [intros ?; split; [done | congruence] | tauto].
Qed.

Lemma clearTimer_NoDup {C} (h : option nat) (ts : list (nat * C)) :
  NoDup (map fst ts) -> NoDup (map fst (clearTimer h ts)).
Proof.
  destruct h as [t|]; simpl; [| done].
  induction ts as [|p ts IH]; simpl; [done |].
  rewrite NoDup_cons. intros [Hp Hts].
  destruct (negb (fst p =? t)%nat); simpl; [| auto].
  apply NoDup_cons. split; [| auto].
  intros Hin. apply Hp. apply list_elem_of_In, in_map_iff in Hin as (q & Hq & Hin).
  apply filter_In in Hin as [Hin _]. apply list_elem_of_In, in_map_iff. eauto.
Qed.

Lemma pending_In {C} (t : nat) (ts : list (nat * C)) (cb : C) :
  pending t ts = Some cb -> In (t, cb) ts.
Proof.
  unfold pending. destruct (List.find _ ts) as [[t' cb']|] eqn:E; [| done].
  simpl. intros [= ->]. apply find_some in E as [Hin Ht]. simpl in Ht.
  apply Nat.eqb_eq in Ht. by subst.
Qed.

Lemma In_pending {C} (t : nat) (ts : list (nat * C)) (cb : C) :
  NoDup (map fst ts) -> In (t, cb) ts -> pending t ts = Some cb.
Proof.
  unfold pending. induction ts as [|[t' cb'] ts IH]; simpl; [done |].
  rewrite NoDup_cons. intros [Hp Hts] [[= -> ->] | Hin].
  - by rewrite Nat.eqb_refl.
  - destruct (Nat.eqb_spec t' t) as [->|Hne]; [| auto].
    exfalso. apply Hp. apply list_elem_of_In, in_map_iff. by exists (t, cb).
Qed.

Lemma init_wf : wf init.
Proof.
  split; simpl; try done.
  all: try apply NoDup_nil_2.
  all: try (intros l [rs Hl]; by rewrite lookup_empty in Hl).
  all: try (intros l rs t Hl; by rewrite lookup_empty in Hl).
Qed.

Section Frames.
Variables w w' : World.
Hypothesis Hwf : wf w.

(** The registry, [socket.rooms] and the emissions do not matter. *)
Lemma wf_frame :
  roomStates w' = roomStates w -> heap w' = heap w -> nextObject w' = nextObject w ->
  timers w' = timers w -> nextTimer w' = nextTimer w ->
  evolves w w'.
Proof.
  intros Er Eh Eo Et En. destruct Hwf. split; [split |]; rewrite ?Er, ?Eh, ?Eo, ?Et, ?En; auto.
Qed.


(** Replacing a room state by one with the same timer handle. *)
Lemma wf_update (l : nat) (rs rs' : RoomState.t) :
  heap w !! l = Some rs ->
  RoomState.roundTimeout rs' = RoomState.roundTimeout rs ->
  roomStates w' = roomStates w -> heap w' = <[l := rs']> (heap w) ->
  nextObject w' = nextObject w -> timers w' = timers w -> nextTimer w' = nextTimer w ->
  evolves w w'.
Proof.
  intros Hl Ht Er Eh Eo Et En. destruct Hwf.
  split; [split |]; rewrite ?Er, ?Eh, ?Eo, ?Et, ?En; auto.
  - intros r l0 Hr. destruct (decide (l = l0)) as [->|Hne].
    + rewrite lookup_insert_eq. eauto.
    + rewrite lookup_insert_ne by done. eauto.
  - intros l0. destruct (decide (l = l0)) as [->|Hne].
    + intros _. apply wf_alloc0. eauto.
    + rewrite lookup_insert_ne by done. auto.
  - intros t l0 r Hin. destruct (wf_round0 _ _ _ Hin) as (Hr & rs0 & Hl0 & Ht0).
    split; [done |]. destruct (decide (l = l0)) as [->|Hne].
    + rewrite lookup_insert_eq. exists rs'. split; [done |]. congruence.
    + rewrite lookup_insert_ne by done. eauto.
  - intros l0 rs0 t. destruct (decide (l = l0)) as [->|Hne].
    + rewrite lookup_insert_eq. intros [= <-] Ht0. apply (wf_stored0 l0 rs); congruence.
    + rewrite lookup_insert_ne by done. apply wf_stored0.
Qed.

(** Tearing a room down: its timer is cancelled and its name removed. *)
Lemma wf_teardown (r : string) (l : nat) (rs : RoomState.t) :
  roomStates w !! r = Some l -> heap w !! l = Some rs ->
  roomStates w' = delete r (roomStates w) -> heap w' = heap w ->
  nextObject w' = nextObject w ->
  timers w' = clearTimer (RoomState.roundTimeout rs) (timers w) ->
  nextTimer w' = nextTimer w ->
  evolves w w'.
Proof.
  intros Hr Hl Er Eh Eo Et En. destruct Hwf.
  split; [split |]; rewrite ?Er, ?Eh, ?Eo, ?Et, ?En; auto.
  - intros r0 l0 H0. apply lookup_delete_Some in H0 as [_ H0]. eauto.
  - intros t cb Hin. apply clearTimer_In in Hin as [Hin _]. eauto.
  - by apply clearTimer_NoDup.
  - intros t l0 r0 Hin. apply clearTimer_In in Hin as [Hin Hne]. simpl in Hne.
    destruct (wf_round0 _ _ _ Hin) as (Hr0 & rs0 & Hl0 & Ht0).
    split; [| eauto]. apply lookup_delete_Some. split; [| done].
    intros <-. assert (l0 = l) as -> by congruence. congruence.
  - intros l0 rs0 t Hl0 Ht0. destruct (wf_stored0 _ _ _ Hl0 Ht0) as [Hlt Hno].
    split; [done |]. intros u room Hin. apply clearTimer_In in Hin as [Hin _].
    by apply (Hno u room).
  - intros t u room Hin. apply clearTimer_In. split; [done |]. simpl.
    intros Ht. by apply (proj2 (wf_stored0 _ _ _ Hl Ht) u room).
Qed.

(** Starting a round: the old timer of the room is replaced. *)
Lemma wf_restart (r : string) (l : nat) (rs rs' : RoomState.t) :
  roomStates w !! r = Some l -> heap w !! l = Some rs ->
  RoomState.roundTimeout rs' = Some (nextTimer w) ->
  roomStates w' = roomStates w -> heap w' = <[l := rs']> (heap w) ->
  nextObject w' = nextObject w ->
  timers w' = clearTimer (RoomState.roundTimeout rs) (timers w)
                ++ [(nextTimer w, RoundExpiry l r)] ->
  nextTimer w' = S (nextTimer w) ->
  evolves w w'.
Proof.
  intros Hr Hl Ht Er Eh Eo Et En. destruct Hwf.
  split; [split |]; rewrite ?Er, ?Eh, ?Eo, ?Et, ?En; auto.
  - intros r0 l0 H0. destruct (decide (l = l0)) as [->|Hne].
    + rewrite lookup_insert_eq. eauto.
    + rewrite lookup_insert_ne by done. eauto.
  - intros l0. destruct (decide (l = l0)) as [->|Hne].
    + intros _. apply wf_alloc0. eauto.
    + rewrite lookup_insert_ne by done. auto.
  - intros t cb Hin. apply in_app_iff in Hin as [Hin | [[= <- <-] | []]]; [| lia].
    apply clearTimer_In in Hin as [Hin _]. apply wf_handles0 in Hin. lia.
  - rewrite map_app. apply NoDup_app. split; [by apply clearTimer_NoDup |]. split.
    + intros t Hin ->%list_elem_of_singleton.
      apply list_elem_of_In, in_map_iff in Hin as ([t cb] & Ht' & Hin).
      apply clearTimer_In in Hin as [Hin _]. apply wf_handles0 in Hin. simpl in *. lia.
    + apply NoDup_singleton.
  - intros t l0 r0 Hin. apply in_app_iff in Hin as [Hin | [[= <- <- <-] | []]].
    + apply clearTimer_In in Hin as [Hin Hne]. simpl in Hne.
      destruct (wf_round0 _ _ _ Hin) as (Hr0 & rs0 & Hl0 & Ht0).
      split; [done |]. destruct (decide (l = l0)) as [->|Hne'].
      * congruence.
      * rewrite lookup_insert_ne by done. eauto.
    + split; [done |]. rewrite lookup_insert_eq. eauto.
  - intros l0 rs0 t H0 Ht0. assert ((t < S (nextTimer w))%nat
      /\ forall u room, (t, GraceExpiry u room) <> (nextTimer w, RoundExpiry l r)) as [Hlt _].
    { split; [| done]. destruct (decide (l = l0)) as [->|Hne].
      - rewrite lookup_insert_eq in H0. injection H0 as <-. rewrite Ht in Ht0.
        injection Ht0 as <-. lia.
      - rewrite lookup_insert_ne in H0 by done.
        destruct (wf_stored0 _ _ _ H0 Ht0). lia. }
    split; [done |]. intros u room Hin.
    apply in_app_iff in Hin as [Hin | [[=] | []]].
    apply clearTimer_In in Hin as [Hin _].
    destruct (decide (l = l0)) as [->|Hne].
    + rewrite lookup_insert_eq in H0. injection H0 as <-. rewrite Ht in Ht0.
      injection Ht0 as <-. apply wf_handles0 in Hin. lia.
    + rewrite lookup_insert_ne in H0 by done.
      by apply (proj2 (wf_stored0 _ _ _ H0 Ht0) u room).
  - intros t u room Hin. apply in_app_iff. left. apply clearTimer_In. split; [done |]. simpl.
    intros Ht'. by apply (proj2 (wf_stored0 _ _ _ Hl Ht') u room).
Qed.

(** Starting a grace timer. *)
Lemma wf_grace (username room : string) :
  roomStates w' = roomStates w -> heap w' = heap w -> nextObject w' = nextObject w ->
  timers w' = timers w ++ [(nextTimer w, GraceExpiry username room)] ->
  nextTimer w' = S (nextTimer w) ->
  evolves w w'.
Proof.
  intros Er Eh Eo Et En. destruct Hwf.
  split; [split |]; rewrite ?Er, ?Eh, ?Eo, ?Et, ?En; auto.
  - intros t cb Hin. apply in_app_iff in Hin as [Hin | [[= <- <-] | []]]; [| lia].
    apply wf_handles0 in Hin. lia.
  - rewrite map_app. apply NoDup_app. split; [done |]. split.
    + intros t Hin ->%list_elem_of_singleton.
      apply list_elem_of_In, in_map_iff in Hin as ([t cb] & Ht' & Hin).
      apply wf_handles0 in Hin. simpl in *. lia.
    + apply NoDup_singleton.
  - intros t l0 r0 Hin. apply in_app_iff in Hin as [Hin | [[=] | []]]. auto.
  - intros l0 rs0 t H0 Ht0. destruct (wf_stored0 _ _ _ H0 Ht0) as [Hlt Hno].
    split; [lia |]. intros u room' Hin.
    apply in_app_iff in Hin as [Hin | [[= E _ _] | []]]; [by apply (Hno u room') | lia].
  - intros t u room' Hin. apply in_app_iff. by left.
Qed.

(** Allocating the state of a room that is not listed. *)
Lemma wf_open (r : string) (rs : RoomState.t) :
  roomStates w !! r = None -> RoomState.roundTimeout rs = None ->
  roomStates w' = <[r := nextObject w]> (roomStates w) ->
  heap w' = <[nextObject w := rs]> (heap w) ->
  nextObject w' = S (nextObject w) -> timers w' = timers w -> nextTimer w' = nextTimer w ->
  evolves w w'.
Proof.
  intros Hr Ht Er Eh Eo Et En. destruct Hwf.
  assert (Hfresh : heap w !! nextObject w = None).
  { destruct (heap w !! nextObject w) eqn:E; [| done].
    assert (nextObject w < nextObject w)%nat by eauto. lia. }
  split; [split |]; rewrite ?Er, ?Eh, ?Eo, ?Et, ?En; auto.
  - intros r0 l0 H0. destruct (decide (r = r0)) as [->|Hne].
    + rewrite lookup_insert_eq in H0. injection H0 as <-. rewrite lookup_insert_eq. eauto.
    + rewrite lookup_insert_ne in H0 by done.
      destruct (decide (nextObject w = l0)) as [<-|Hne'].
      * rewrite lookup_insert_eq. eauto.
      * rewrite lookup_insert_ne by done. eauto.
  - intros l0. destruct (decide (nextObject w = l0)) as [<-|Hne].
    + intros _. lia.
    + rewrite lookup_insert_ne by done. intros H0. apply wf_alloc0 in H0. lia.
  - intros t l0 r0 Hin. destruct (wf_round0 _ _ _ Hin) as (Hr0 & rs0 & Hl0 & Ht0).
    split.
    + rewrite lookup_insert_ne by congruence. done.
    + rewrite lookup_insert_ne by congruence. eauto.
  - intros l0 rs0 t. destruct (decide (nextObject w = l0)) as [<-|Hne].
    + rewrite lookup_insert_eq. intros [= <-]. congruence.
    + rewrite lookup_insert_ne by done. apply wf_stored0.
Qed.

End Frames.

Lemma evolves_refl (w : World) : wf w -> evolves w w.
Proof. intros H. by split. Qed.

Lemma evolves_trans (w1 w2 w3 : World) : evolves w1 w2 -> evolves w2 w3 -> evolves w1 w3.
Proof. intros [_ H12] [H3 H23]. split; auto. Qed.

End GameInvFacts.

Module GameStepFacts.
Import Game GameRound GameFacts GameJoin GameLeave GameInv GameJoinFacts GameInvFacts.

Lemma graceExpiry_eq (w : World) (username room : string) (l : nat) (rs : RoomState.t) :
  roomStates w !! room = Some l ->
  heap w !! l = Some rs ->
  graceExpiry username room w
  = if seatedAs username rs then Ok tt w
    else Ok tt (mkWorld (purge username (connectedUsers w)) (delete room (roomStates w))
                  (heap w) (nextObject w)
                  (clearTimer (RoomState.roundTimeout rs) (timers w)) (nextTimer w)
                  (rooms w) (emitted w ++ forfeit room rs)).
Proof.
  intros Hr Hl. unfold graceExpiry. mstep. rewrite Hr. cbn [from_option]. rewrite Hl.
  unfold seatedAs.
  destruct (existsb _ (RoomState.connectedUsers rs)); [reflexivity |].
  cbn [negb]. repeat mstep. unfold forfeit.
  destruct (RoomState.connectedUsers rs) as [|first rest]; repeat mstep.
  all: erewrite !cleanupGame_eq by side.
  all: wnorm; rewrite ?app_nil_r; reflexivity.
Qed.

Lemma choice_refused (socket : string) (u c : value) (r : string) (w : World) :
  (roomStates w !! r = None /\ existsb (String.eqb r) inherited = false)
  \/ validChoice c = false ->
  handlePlayerChoice (Some socket) u r c w
  = Ok tt (mkWorld (connectedUsers w) (roomStates w) (heap w) (nextObject w) (timers w)
             (nextTimer w) (rooms w)
             (emitted w ++ [ToSocket socket "exception" (Text "invalid choice or room")])).
Proof.
  intros H. unfold handlePlayerChoice. mstep. cbv zeta.
  replace (negb (bool_decide (is_Some (roomStates w !! r))
                 || existsb (String.eqb r) inherited)
           || negb (validChoice c))
    with true; [reflexivity |].
  symmetry. apply orb_true_iff. destruct H as [[-> ->] | ->]; [left | right]; [| done].
  rewrite bool_decide_eq_false_2; [done |]. by intros [? ?].
Qed.

(** A valid choice for a name that [roomStates] only inherits passes the
    validation and dereferences the missing [choices]. *)
Lemma choice_throws (socket : option string) (u c : value) (r : string) (w : World) :
  roomStates w !! r = None ->
  existsb (String.eqb r) inherited = true ->
  validChoice c = true ->
  handlePlayerChoice socket u r c w = TypeError.
Proof.
  intros Hr Hi Hc. unfold handlePlayerChoice. mstep. cbv zeta.
  rewrite Hr, Hi, Hc, orb_true_r. reflexivity.
Qed.

Lemma disconnectingFrom_eq (socket room : string) (w : World) :
  disconnectingFrom socket room w
  = Ok tt match Obj.get socket (connectedUsers w) with
          | Some user => departed (User.username user) room w
          | None => w
          end.
Proof.
  unfold disconnectingFrom. mstep.
  destruct (Obj.get socket (connectedUsers w)) as [user|]; [| reflexivity].
  unfold markUserForReconnection, departed. repeat mstep. wnorm.
  destruct (roomStates w !! room) as [l|]; repeat mstep; reflexivity.
Qed.

Lemma departed_registry (username room : string) (w : World) :
  connectedUsers (departed username room w) = connectedUsers w.
Proof. reflexivity. Qed.

Lemma handleDisconnecting_eq (socket : string) (w : World) :
  handleDisconnecting socket w
  = Ok tt match Obj.get socket (connectedUsers w) with
          | Some user =>
              fold_left (fun w room => departed (User.username user) room w)
                        (socket_rooms socket w) w
          | None => w
          end.
Proof.
  unfold handleDisconnecting. mstep.
  generalize (socket_rooms socket w) as js. intros js.
  destruct (Obj.get socket (connectedUsers w)) as [user|] eqn:E.
  - revert w E. induction js as [|j js IH]; intros w E; cbn [forEach fold_left];
      [reflexivity |].
    erewrite bind_Ok by apply disconnectingFrom_eq. rewrite E. apply IH.
    by rewrite departed_registry.
  - induction js as [|j js IH]; cbn [forEach]; [reflexivity |].
    erewrite bind_Ok by apply disconnectingFrom_eq. by rewrite E.
Qed.

Lemma departed_evolves (username room : string) (w : World) :
  wf w -> evolves w (departed username room w).
Proof.
  intros Hwf.
  set (w1 := set_heap (fun h => match roomStates w !! room with
                                | Some l => alter (unseat username) l h
                                | None => h
                                end) w).
  assert (H1 : evolves w w1).
  { destruct (roomStates w !! room) as [l|] eqn:Hr.
    - destruct (wf_table _ Hwf _ _ Hr) as [rs Hl].
      apply (wf_update _ _ Hwf l rs (unseat username rs)); try done.
      subst w1. cbn. by apply alter_lookup_insert.
    - by apply wf_frame. }
  eapply evolves_trans; [exact H1 |].
  apply (wf_grace _ _ (proj1 H1) username room); reflexivity.
Qed.

Lemma departures_evolve (username : string) (js : list string) (w : World) :
  wf w -> evolves w (fold_left (fun w room => departed username room w) js w).
Proof.
  revert w. induction js as [|j js IH]; intros w Hwf; cbn [fold_left].
  - by apply evolves_refl.
  - eapply evolves_trans; [by apply departed_evolves |].
    apply IH. by apply departed_evolves.
Qed.

Lemma roundOutcome_evolves (r : string) (l : nat) (rs : RoomState.t) (w : World) :
  wf w -> roomStates w !! r = Some l -> heap w !! l = Some rs ->
  evolves w (roundOutcome r l rs w).
Proof.
  intros Hwf Hr Hl. unfold roundOutcome.
  set (sc := scoresAfter _ _ _ _).
  set (rs' := RoomState.mk _ sc _ _ _).
  destruct (is5 _ || is5 _).
  - assert (H1 : evolves w (set_heap (<[l := rs']>) w)).
    { by apply (wf_update _ _ Hwf l rs rs'). }
    eapply evolves_trans; [exact H1 |].
    apply (wf_teardown _ _ (proj1 H1) r l rs'); try done.
    cbn. apply lookup_insert_eq.
  - apply (wf_restart _ _ Hwf r l rs (RoomState.set_roundTimeout (Some (nextTimer w)) rs'));
      done.
Qed.

(** One event from a well-formed world: either the handler returns in a
    well-formed world that still holds the grace timers other than the
    one fired, or the event is a valid join of a listed room without
    seats, and the handler throws. *)
Lemma step_cases (e : Event) (w : World) :
  wf w ->
  (exists w',
     step e w = Ok tt w' /\ wf w'
     /\ forall t username room,
          In (t, GraceExpiry username room) (timers w) -> e <> Fire t ->
          In (t, GraceExpiry username room) (timers w'))
  \/ (step e w = TypeError
      /\ ((exists socket u room l rs,
             e = ConnectToRoom socket (Str u) (Str room)
             /\ u <> ""%string /\ (4 < String.length room)%nat
             /\ roomStates w !! ("room:" +:+ room) = Some l
             /\ heap w !! l = Some rs
             /\ RoomState.connectedUsers rs = [])
          \/ (exists socket u room c,
                e = PlayerChoice socket u room c
                /\ roomStates w !! room = None
                /\ existsb (String.eqb room) inherited = true
                /\ validChoice c = true))).
Proof.
  intros Hwf.
  assert (Hev : forall (o : Outcome World unit) w', o = Ok tt w' -> evolves w w' ->
            exists w', o = Ok tt w' /\ wf w'
              /\ forall t username room,
                   In (t, GraceExpiry username room) (timers w) -> e <> Fire t ->
                   In (t, GraceExpiry username room) (timers w')).
  { intros o w' Hs [Hw' Hg]. exists w'. split; [done |]. split; [done |]. auto. }
  destruct e as [socket username room | socket username room choice | socket | t].
  - (* connect-to-room *)
    cbn [step].
    destruct (negb (truthy username) || negb (truthy room)
              || (Z.of_nat (String.length (key room)) <=? 4)) eqn:V.
    + left. eapply Hev.
      * apply join_refused. rewrite !orb_true_iff, !negb_true_iff, Z.leb_le in V.
        destruct V as [[V | V] | V]; auto. right. right. lia.
      * by apply wf_frame.
    + rewrite !orb_false_iff, !negb_false_iff, Z.leb_gt in V. destruct V as [[Vu Vr] Vl].
      destruct username as [| |u]; try done. destruct room as [| |room]; try done.
      cbn [key] in Vl.
      assert (Hu : u <> ""%string).
      { intros ->. done. }
      assert (Hlen : (4 < String.length room)%nat) by lia.
      destruct (roomStates w !! ("room:" +:+ room)) as [l|] eqn:Hr.
      * destruct (wf_table _ Hwf _ _ Hr) as [rs Hl].
        destruct (RoomState.connectedUsers rs) as [|first others] eqn:Hcu.
        { right. split; [by eapply join_vacated |].
          left. by exists socket, u, room, l, rs. }
        left. destruct (decide (Seat.socketId first = socket)) as [He|Hne].
        { eapply Hev; [by eapply join_again | by apply wf_frame]. }
        eapply Hev; [by eapply join_seats |].
        unfold seatedIn.
        assert (H1 : evolves w (set_heap (<[l := seatAdded socket u rs]>) w)).
        { by apply (wf_update _ _ Hwf l rs (seatAdded socket u rs)). }
        eapply evolves_trans; [exact H1 |].
        destruct (Nat.eqb _ 2).
        { apply (wf_restart _ _ (proj1 H1) ("room:" +:+ room) l (seatAdded socket u rs)
                   (RoomState.set_roundTimeout (Some (nextTimer w)) (seatAdded socket u rs)));
            try done.
          - cbn. apply lookup_insert_eq.
          - cbn. by rewrite insert_insert_eq. }
        apply wf_frame; try done. exact (proj1 H1).
      * left. eapply Hev; [by apply join_opens |].
        by apply (wf_open _ _ Hwf ("room:" +:+ room)
                    (RoomState.mk [Seat.mk u socket] {[ u := Num 0 ]} 1 ∅ None)).
  - (* player-choice *)
    cbn [step].
    destruct (validChoice choice) eqn:Hc.
    2:{ left. eapply Hev; [apply choice_refused; by right | by apply wf_frame]. }
    destruct (roomStates w !! room) as [l|] eqn:Hr.
    2:{ destruct (existsb (String.eqb room) inherited) eqn:Hi.
        - right. split; [by apply choice_throws |].
          right. by exists socket, username, room, choice.
        - left. eapply Hev; [apply choice_refused; by left | by apply wf_frame]. }
    left.
    destruct (wf_table _ Hwf _ _ Hr) as [rs Hl].
    assert (H1 : evolves w (set_heap (<[l := recorded username choice rs]>) w)).
    { apply (wf_update _ _ Hwf l rs (recorded username choice rs)); try done.
      apply recorded_roundTimeout. }
    rewrite (handlePlayerChoice_eq _ _ _ _ _ _ _ Hr Hl (or_intror Hc)). cbv zeta.
    destruct (Nat.eqb _ 2).
    + eapply Hev; [reflexivity |]. eapply evolves_trans; [exact H1 |].
      apply roundOutcome_evolves; [exact (proj1 H1) | done |]. cbn. apply lookup_insert_eq.
    + eapply Hev; [reflexivity | exact H1].
  - (* disconnecting *)
    left. cbn [step]. erewrite bind_Ok by apply handleDisconnecting_eq.
    eapply Hev; [reflexivity |].
    destruct (Obj.get socket (connectedUsers w)) as [user|].
    + eapply evolves_trans; [by apply departures_evolve |].
      apply wf_frame; try done. by apply departures_evolve.
    + by apply wf_frame.
  - (* a timer fires *)
    left. cbn [step]. mstep.
    destruct (pending t (timers w)) as [cb|] eqn:Hp.
    2:{ exists w. split; [done |]. split; [done |]. auto. }
    apply pending_In in Hp. mstep.
    set (w0 := set_timers (clearTimer (Some t)) w).
    assert (Hw0 : wf w0).
    { destruct Hwf. split; subst w0; cbn [roomStates heap nextObject timers nextTimer set_timers];
        auto.
      - intros t' cb' Hin. apply clearTimer_In in Hin as [Hin _]. eauto.
      - by apply clearTimer_NoDup.
      - intros t' l r Hin. apply clearTimer_In in Hin as [Hin _]. eauto.
      - intros l rs t' Hl Ht'. destruct (wf_stored0 _ _ _ Hl Ht') as [Hlt Hno].
        split; [done |]. intros u room Hin. apply clearTimer_In in Hin as [Hin _].
        by apply (Hno u room). }
    assert (Hkeep : forall w', evolves w0 w' ->
              wf w' /\ forall t' username room,
                In (t', GraceExpiry username room) (timers w) -> Fire t <> Fire t' ->
                In (t', GraceExpiry username room) (timers w')).
    { intros w' [Hw' Hg]. split; [done |]. intros t' u room Hin Hne. apply Hg.
      subst w0. cbn. apply filter_In. split; [done |]. cbn.
      apply negb_true_iff, Nat.eqb_neq. congruence. }
    assert (Hfin : forall (o : Outcome World unit) w', o = Ok tt w' -> evolves w0 w' ->
              exists w', o = Ok tt w' /\ wf w'
                /\ forall t' username room,
                     In (t', GraceExpiry username room) (timers w) -> Fire t <> Fire t' ->
                     In (t', GraceExpiry username room) (timers w')).
    { intros o w' Hs Hevo. exists w'. split; [done |]. by apply Hkeep. }
    destruct cb as [l r | username room]; cbn [runCallback].
    + destruct (wf_round _ Hwf _ _ _ Hp) as (Hr & rs & Hl & Ht).
      set (rs1 := RoomState.set_choices (fun _ => withDefaults rs) rs).
      assert (H1 : evolves w0 (set_heap (<[l := rs1]>) w0)).
      { by apply (wf_update _ _ Hw0 l rs rs1). }
      rewrite (roundExpiry_eq r l rs w0 Hr Hl). cbv zeta.
      destruct (Nat.eqb _ 2).
      * eapply Hfin; [reflexivity |]. eapply evolves_trans; [exact H1 |].
        apply roundOutcome_evolves; [exact (proj1 H1) | done |]. cbn. apply lookup_insert_eq.
      * eapply Hfin; [reflexivity | exact H1].
    + destruct (roomStates w !! room) as [l|] eqn:Hr.
      * destruct (wf_table _ Hwf _ _ Hr) as [rs Hl].
        rewrite (graceExpiry_eq w0 username room l rs Hr Hl).
        destruct (seatedAs username rs).
        { eapply Hfin; [reflexivity | by apply evolves_refl]. }
        eapply Hfin; [reflexivity |].
        by apply (wf_teardown _ _ Hw0 room l rs).
      * rewrite (graceExpiry_absent w0 username room Hr).
        eapply Hfin; [reflexivity | by apply wf_frame].
Qed.

End GameStepFacts.

(** ** The game module: what holds in every reachable world *)

Module GameReach.
Import Game GameRound GameFacts GameJoin GameLeave GameInv.
Import GameJoinFacts GameInvFacts GameStepFacts.

Lemma run_wf (es : list Event) (w w' : World) : wf w -> run es w = Ok tt w' -> wf w'.
Proof.
  revert w. induction es as [|e es IH]; intros w Hwf; unfold run; cbn [forEach].
  - intros H. apply Ok_inj in H. by subst.
  - destruct (step_cases e w Hwf) as [(w1 & Hs & Hw1 & _) | [Hs _]].
    + rewrite (bind_Ok _ _ _ _ _ Hs). by apply IH.
    + unfold bind. by rewrite Hs.
Qed.

Lemma reachable_wf (w : World) : reachable w -> wf w.
Proof. intros [es Hes]. exact (run_wf es init w init_wf Hes). Qed.

(** X13. A pending round timer is the timer its room holds: the room is
    listed under the name the timer carries and stores the timer's
    handle.  So no room has two pending round timers, and no two rooms
    share one. *)
Theorem round_timer_belongs_to_its_room (w : World) (t l : nat) (r : string) :
  reachable w ->
  pending t (timers w) = Some (RoundExpiry l r) ->
  roomStates w !! r = Some l
  /\ (exists rs, heap w !! l = Some rs /\ RoomState.roundTimeout rs = Some t)
  /\ (forall t' l' r',
        pending t' (timers w) = Some (RoundExpiry l' r') ->
        r' = r \/ l' = l -> t' = t /\ l' = l /\ r' = r).
Proof.
  intros Hreach Hp. pose proof (reachable_wf w Hreach) as Hwf.
  destruct (wf_round _ Hwf _ _ _ (pending_In _ _ _ Hp)) as (Hr & rs & Hl & Ht).
  split; [done |]. split; [eauto |].
  intros t' l' r' Hp' Hsame.
  destruct (wf_round _ Hwf _ _ _ (pending_In _ _ _ Hp')) as (Hr' & rs' & Hl' & Ht').
  assert (l' = l) as ->.
  { destruct Hsame as [-> | ->]; [congruence | done]. }
  assert (t' = t) as -> by congruence.
  split; [done |]. split; [done |]. congruence.
Qed.

Lemma round_timer_belongs_to_its_room_witness :
  roomStates Scenario.seated !! Scenario.room = Some 0%nat
  /\ exists rs, heap Scenario.seated !! 0%nat = Some rs
                /\ RoomState.roundTimeout rs = Some 0%nat.
Proof.
  destruct (round_timer_belongs_to_its_room Scenario.seated 0 0 Scenario.room)
    as (Hr & Hrs & _).
  - exists Scenario.joins. vm_compute. reflexivity.
  - vm_compute. reflexivity.
  - split; [exact Hr | exact Hrs].
Defined.

(** X5. From a reachable world a handler throws in two cases only.
    One is a valid [connect-to-room] for a room that is listed but has
    lost all its seats (line 255 reads [connectedUsers[0].socketId]).
    The other is a [player-choice] with a valid choice whose room is the
    name of a member that [roomStates] inherits from [Object.prototype],
    such as [toString]: the member is truthy, passes the validation, and
    its missing [choices] are dereferenced (lines 314 to 327).  Every
    other event, the firing of any timer included, returns. *)
Theorem handler_throws_in_two_cases (w : World) (e : Event) :
  reachable w ->
  (step e w = TypeError
   <-> (exists socket u room l rs,
          e = ConnectToRoom socket (Str u) (Str room)
          /\ u <> ""%string /\ (4 < String.length room)%nat
          /\ roomStates w !! ("room:" +:+ room) = Some l
          /\ heap w !! l = Some rs
          /\ RoomState.connectedUsers rs = [])
       \/ (exists socket u room c,
             e = PlayerChoice socket u room c
             /\ roomStates w !! room = None
             /\ existsb (String.eqb room) inherited = true
             /\ validChoice c = true)).
Proof.
  intros Hreach. pose proof (reachable_wf w Hreach) as Hwf. split.
  - intros Hs. destruct (step_cases e w Hwf) as [(w1 & Hs1 & _) | [_ H]]; [| exact H].
    rewrite Hs in Hs1. discriminate.
  - intros [(socket & u & room & l & rs & -> & Hu & Hlen & Hr & Hl & Hcu)
           | (socket & u & room & c & -> & Hr & Hi & Hc)]; cbn [step].
    + by eapply join_vacated.
    + by apply choice_throws.
Qed.

Lemma handler_throws_in_two_cases_witness :
  step Edge.comeback Edge.vacated = TypeError
  /\ step Edge.foreignChoice Edge.vacated = TypeError.
Proof.
  split.
  - apply (handler_throws_in_two_cases Edge.vacated Edge.comeback).
    + exists Edge.aloneLeaves. vm_compute. reflexivity.
    + left. exists "sa2"%string, "alice"%string, "abcde"%string, 0%nat,
        (RoomState.mk [] {[ "alice"%string := Num 0 ]} 1 ∅ None).
      split; [reflexivity |]. split; [done |]. split; [simpl; lia |].
      split; [vm_compute; reflexivity |]. split; [vm_compute; reflexivity |]. reflexivity.
  - apply (handler_throws_in_two_cases Edge.vacated Edge.foreignChoice).
    + exists Edge.aloneLeaves. vm_compute. reflexivity.
    + right. exists "sa"%string, (Str "alice"), "toString"%string, (Str "rock").
      split; [reflexivity |]. split; [vm_compute; reflexivity |].
      split; reflexivity.
Defined.

(** X14. No handler cancels a grace timer: once a disconnect has started it,
    it stays pending through every event except its own firing, also
    through the teardown of its room and through the user's return. *)
Theorem grace_timer_is_never_cancelled (w w' : World) (e : Event) (t : nat)
    (username room : string) :
  reachable w ->
  pending t (timers w) = Some (GraceExpiry username room) ->
  e <> Fire t ->
  step e w = Ok tt w' ->
  pending t (timers w') = Some (GraceExpiry username room).
Proof.
  intros Hreach Hp Hne Hs. pose proof (reachable_wf w Hreach) as Hwf.
  destruct (step_cases e w Hwf) as [(w1 & Hs1 & Hw1 & Hg) | [Hs1 _]].
  - rewrite Hs in Hs1. apply Ok_inj in Hs1. subst w1.
    apply In_pending; [exact (wf_distinct _ Hw1) |].
    apply Hg; [by apply pending_In | done].
  - rewrite Hs in Hs1. discriminate.
Qed.

Lemma grace_timer_is_never_cancelled_witness :
  pending 2 (timers Scenario.resolvedAlone) = Some (GraceExpiry "bob" Scenario.room).
Proof.
  apply (grace_timer_is_never_cancelled Scenario.bobLeft Scenario.resolvedAlone (Fire 0)).
  - exists Edge.bobLeaves. vm_compute. reflexivity.
  - vm_compute. reflexivity.
  - discriminate.
  - vm_compute. reflexivity.
Defined.

End GameReach.

(** ** The game module: joins, submissions and disconnects *)

Module GameHandlers.
Import Game GameRound GameFacts GameJoin GameLeave GameInv.
Import ObjFacts GameJoinFacts GameInvFacts GameStepFacts.

Lemma get_registered (socket u room : string) (reg : list (string * User.t)) :
  Obj.get socket (registered socket u room reg) = Some (User.mk u room socket).
Proof. unfold registered. destruct (isReconnecting u room reg); apply get_set. Qed.

(** X1. The first valid join of a room that is not listed creates it with
    the joiner as its only seat, score 0, round 1, no choices and no
    round timer; the joiner is registered under the socket, the room
    hears of the join, and no round starts. *)
Theorem first_join_opens_room (w : World) (socket u room : string) :
  u <> ""%string -> (4 < String.length room)%nat ->
  roomStates w !! ("room:" +:+ room) = None ->
  exists w',
    step (ConnectToRoom socket (Str u) (Str room)) w = Ok tt w'
    /\ roomStates w' = <["room:" +:+ room := nextObject w]> (roomStates w)
    /\ heap w' = <[nextObject w := RoomState.mk [Seat.mk u socket] {[ u := Num 0 ]} 1 ∅ None]>
                   (heap w)
    /\ timers w' = timers w
    /\ Obj.get socket (connectedUsers w') = Some (User.mk u room socket)
    /\ emitted w'
       = emitted w ++ greeting socket u room (connectedUsers w) ++ [joinNotice u room].
Proof.
  intros Hu Hlen Hr. exists (opened socket u room w).
  split; [by apply join_opens |]. repeat split. apply get_registered.
Qed.

Lemma first_join_opens_room_witness :
  exists w',
    step (ConnectToRoom "sa" (Str "alice") (Str "abcde")) init = Ok tt w'
    /\ heap w' = {[ 0%nat := RoomState.mk [Seat.mk "alice" "sa"] {[ "alice"%string := Num 0 ]}
                                          1 ∅ None ]}
    /\ timers w' = [].
Proof.
  destruct (first_join_opens_room init "sa" "alice" "abcde")
    as (w' & Hs & _ & Hh & Ht & _).
  - done.
  - simpl. lia.
  - reflexivity.
  - exists w'. split; [exact Hs |]. split; [exact Hh | exact Ht].
Defined.

(** X2. A valid join of a listed room whose first seat belongs to another
    socket is never refused: the joiner gets the next seat, whatever the
    number of seats, and the joiner's score is set to 0.  The round
    starts (old timer cancelled, new timer, ready and start-round sent)
    exactly when the new seat is the second one.  The username is not
    the name of a member inherited from [Object.prototype]: the
    assignment [scores[username] = 0] of line 288 does nothing for
    [__proto__]. *)
Theorem join_takes_next_seat (w : World) (socket u room : string) (l : nat)
    (rs : RoomState.t) (first : Seat.t) (others : list Seat.t) :
  u <> ""%string -> (4 < String.length room)%nat ->
  existsb (String.eqb u) inherited = false ->
  roomStates w !! ("room:" +:+ room) = Some l ->
  heap w !! l = Some rs ->
  RoomState.connectedUsers rs = first :: others ->
  Seat.socketId first <> socket ->
  exists w' rs',
    step (ConnectToRoom socket (Str u) (Str room)) w = Ok tt w'
    /\ roomStates w' = roomStates w
    /\ heap w' = <[l := rs']> (heap w)
    /\ RoomState.connectedUsers rs' = first :: others ++ [Seat.mk u socket]
    /\ RoomState.scores rs' = <[u := Num 0]> (RoomState.scores rs)
    /\ RoomState.round rs' = RoomState.round rs
    /\ RoomState.choices rs' = RoomState.choices rs
    /\ Obj.get socket (connectedUsers w') = Some (User.mk u room socket)
    /\ match others with
       | [] =>
           RoomState.roundTimeout rs' = Some (nextTimer w)
           /\ timers w' = clearTimer (RoomState.roundTimeout rs) (timers w)
                            ++ [(nextTimer w, RoundExpiry l ("room:" +:+ room))]
           /\ emitted w'
              = emitted w ++ greeting socket u room (connectedUsers w)
                  ++ [joinNotice u room;
                      ToRoom ("room:" +:+ room) "room-event:ready"
                        (Text "players are ready, waiting for choice");
                      ToRoom ("room:" +:+ room) "start-round"
                        (StartRound (RoomState.round rs) 20)]
       | _ :: _ =>
           RoomState.roundTimeout rs' = RoomState.roundTimeout rs
           /\ timers w' = timers w
           /\ emitted w'
              = emitted w ++ greeting socket u room (connectedUsers w) ++ [joinNotice u room]
       end.
Proof.
  intros Hu Hlen _ Hr Hl Hcu Hne. cbn [step].
  rewrite (join_seats _ _ _ _ _ _ _ _ Hu Hlen Hr Hl Hcu Hne).
  unfold seatedIn, seatAdded. cbn [RoomState.connectedUsers]. rewrite Hcu.
  destruct others as [|second others]; cbn [length app Nat.eqb].
  - eexists; eexists. split; [reflexivity |].
    cbn [roomStates heap timers emitted connectedUsers RoomState.set_roundTimeout
         RoomState.connectedUsers RoomState.scores RoomState.round RoomState.choices
         RoomState.roundTimeout].
    repeat split; [apply get_registered |].
    by rewrite <- !app_assoc.
  - replace (length (others ++ [Seat.mk u socket]) =? 0)%nat with false.
    2:{ symmetry. apply Nat.eqb_neq. rewrite length_app. simpl. lia. }
    eexists; eexists. split; [reflexivity |].
    cbn [roomStates heap timers emitted connectedUsers
         RoomState.connectedUsers RoomState.scores RoomState.round RoomState.choices
         RoomState.roundTimeout].
    repeat split. apply get_registered.
Qed.

Lemma join_takes_next_seat_witness :
  exists w' rs',
    step Scenario.thirdJoin Scenario.seated = Ok tt w'
    /\ heap w' = <[0%nat := rs']> (heap Scenario.seated)
    /\ RoomState.connectedUsers rs'
       = [Seat.mk "alice" "sa"; Seat.mk "bob" "sb"; Seat.mk "carol" "sc"]
    /\ RoomState.scores rs' = <["carol"%string := Num 0]> (RoomState.scores Scenario.seatedRoom).
Proof.
  destruct (join_takes_next_seat Scenario.seated "sc" "carol" "abcde" 0 Scenario.seatedRoom
              (Seat.mk "alice" "sa") [Seat.mk "bob" "sb"])
    as (w' & rs' & Hs & _ & Hh & Hcu & Hsc & _).
  - done.
  - simpl. lia.
  - reflexivity.
  - vm_compute. reflexivity.
  - vm_compute. reflexivity.
  - reflexivity.
  - done.
  - exists w', rs'. split; [exact Hs |]. split; [exact Hh |]. split; [exact Hcu | exact Hsc].
Defined.

(** X3. A valid [connect-to-room] from the socket that holds the first seat
    of the room is dropped: apart from [socket.join] nothing changes and
    nothing is sent, whatever username the message carries. *)
Theorem join_by_first_seat_is_dropped (w : World) (socket u room : string) (l : nat)
    (rs : RoomState.t) (first : Seat.t) (others : list Seat.t) :
  u <> ""%string -> (4 < String.length room)%nat ->
  roomStates w !! ("room:" +:+ room) = Some l ->
  heap w !! l = Some rs ->
  RoomState.connectedUsers rs = first :: others ->
  Seat.socketId first = socket ->
  exists w',
    step (ConnectToRoom socket (Str u) (Str room)) w = Ok tt w'
    /\ connectedUsers w' = connectedUsers w
    /\ roomStates w' = roomStates w
    /\ heap w' = heap w
    /\ timers w' = timers w
    /\ emitted w' = emitted w.
Proof.
  intros Hu Hlen Hr Hl Hcu He. cbn [step].
  rewrite (join_again _ _ _ _ _ _ _ _ Hu Hlen Hr Hl Hcu He).
  eexists. split; [reflexivity |]. done.
Qed.

Lemma join_by_first_seat_is_dropped_witness :
  exists w',
    step (ConnectToRoom "sa" (Str "mallory") (Str "abcde")) Scenario.seated = Ok tt w'
    /\ connectedUsers w' = connectedUsers Scenario.seated
    /\ heap w' = heap Scenario.seated
    /\ emitted w' = emitted Scenario.seated.
Proof.
  destruct (join_by_first_seat_is_dropped Scenario.seated "sa" "mallory" "abcde" 0
              Scenario.seatedRoom (Seat.mk "alice" "sa") [Seat.mk "bob" "sb"])
    as (w' & Hs & Hreg & _ & Hh & _ & Hem).
  - done.
  - simpl. lia.
  - vm_compute. reflexivity.
  - vm_compute. reflexivity.
  - reflexivity.
  - reflexivity.
  - exists w'. split; [exact Hs |]. split; [exact Hreg |]. split; [exact Hh | exact Hem].
Defined.

(** X4. A [connect-to-room] whose username or room is missing or empty, or
    whose room has at most 4 characters, only sends the exception to the
    sender: the socket joins no room and no state changes. *)
Theorem invalid_join_is_refused (w : World) (socket : string) (username room : value) :
  truthy username = false \/ truthy room = false
    \/ (String.length (key room) <= 4)%nat ->
  step (ConnectToRoom socket username room) w
  = Ok tt (mkWorld (connectedUsers w) (roomStates w) (heap w) (nextObject w) (timers w)
             (nextTimer w) (rooms w)
             (emitted w ++ [ToSocket socket "exception" (Text "invalid room or username")])).
Proof. intros H. cbn [step]. by apply join_refused. Qed.

Lemma invalid_join_is_refused_witness :
  step (ConnectToRoom "sa" (Str "alice") (Str "abcd")) init
  = Ok tt (mkWorld [] ∅ ∅ 0 [] 0 ∅
             [ToSocket "sa" "exception" (Text "invalid room or username")]).
Proof.
  apply (invalid_join_is_refused init "sa" (Str "alice") (Str "abcd")).
  right. right. simpl. lia.
Defined.

(** X6. A [player-choice] with a choice other than rock, paper and
    scissors, or for a room that is neither listed under the given name
    nor the name of a member that [roomStates] inherits from
    [Object.prototype], only sends the exception to the sender. *)
Theorem invalid_choice_is_refused (w : World) (socket : string) (u c : value) (r : string) :
  (roomStates w !! r = None /\ existsb (String.eqb r) inherited = false)
  \/ validChoice c = false ->
  step (PlayerChoice socket u r c) w
  = Ok tt (mkWorld (connectedUsers w) (roomStates w) (heap w) (nextObject w) (timers w)
             (nextTimer w) (rooms w)
             (emitted w ++ [ToSocket socket "exception" (Text "invalid choice or room")])).
Proof. intros H. cbn [step]. by apply choice_refused. Qed.

Lemma invalid_choice_is_refused_witness :
  step (PlayerChoice "sa" (Str "alice") "abcde" (Str "rock")) Scenario.seated
  = Ok tt (mkWorld (connectedUsers Scenario.seated) (roomStates Scenario.seated)
             (heap Scenario.seated) (nextObject Scenario.seated) (timers Scenario.seated)
             (nextTimer Scenario.seated) (rooms Scenario.seated)
             (emitted Scenario.seated
                ++ [ToSocket "sa" "exception" (Text "invalid choice or room")])).
Proof.
  apply (invalid_choice_is_refused Scenario.seated "sa" (Str "alice") (Str "rock") "abcde").
  left. split; [vm_compute; reflexivity | reflexivity].
Defined.

End GameHandlers.

Module GameRounds.
Import Game GameRound GameFacts GameJoin GameLeave GameInv.
Import GameJoinFacts GameInvFacts GameStepFacts.

Lemma recorded_again (u : string) (c1 c2 : value) (rs : RoomState.t) :
  u <> ""%string ->
  recorded (Str u) c2 (recorded (Str u) c1 rs) = recorded (Str u) c2 rs.
Proof.
  intros Hu. rewrite !(recorded_str _ _ _ Hu).
  unfold withChoices. cbn. by rewrite insert_insert_eq.
Qed.

(** X7. Until the round resolves a player may change the choice: a second
    valid submission under the same username replaces the first, and
    what follows is what the second submission alone would have given. *)
Theorem resubmission_overwrites (w : World) (s1 s2 u r : string) (c1 c2 : value) (l : nat)
    (rs : RoomState.t) :
  roomStates w !! r = Some l ->
  heap w !! l = Some rs ->
  u <> ""%string ->
  validChoice c1 = true -> validChoice c2 = true ->
  size (<[u := c1]> (RoomState.choices rs)) <> 2%nat ->
  run [PlayerChoice s1 (Str u) r c1; PlayerChoice s2 (Str u) r c2] w
  = run [PlayerChoice s2 (Str u) r c2] w.
Proof.
  intros Hr Hl Hu Hc1 Hc2 Hs. unfold run. cbn [forEach step].
  erewrite bind_Ok.
  2:{ apply (choice_held _ _ _ _ _ _ _ Hr Hl (or_intror Hc1)).
      by rewrite (recorded_str _ _ _ Hu). }
  rewrite !bind_ret_r.
  erewrite handlePlayerChoice_eq; [| exact Hr | side | by right].
  rewrite (handlePlayerChoice_eq _ _ _ _ _ _ _ Hr Hl (or_intror Hc2)). cbv zeta.
  by rewrite (recorded_again _ _ _ _ Hu), set_heap_twice.
Qed.

Lemma resubmission_overwrites_witness :
  run [PlayerChoice "sa" (Str "alice") Scenario.room (Str "rock");
       PlayerChoice "sa" (Str "alice") Scenario.room (Str "paper")] Scenario.seated
  = run [PlayerChoice "sa" (Str "alice") Scenario.room (Str "paper")] Scenario.seated.
Proof.
  apply (resubmission_overwrites Scenario.seated "sa" "sa" "alice" Scenario.room
           (Str "rock") (Str "paper") 0 Scenario.seatedRoom).
  - vm_compute. reflexivity.
  - vm_compute. reflexivity.
  - done.
  - reflexivity.
  - reflexivity.
  - vm_compute. discriminate.
Defined.

Lemma missing_second_choice (c : value) :
  validChoice c = true -> determineRoundWinner c Undefined = player2.
Proof.
  unfold validChoice. cbn [existsb]. rewrite !orb_true_iff, !value_eqb_eq.
  intros [-> | [-> | [-> | ?]]]; done.
Qed.

Lemma missing_first_choice (v : value) :
  v <> Undefined -> determineRoundWinner Undefined v = player2.
Proof. intros H. by destruct v. Qed.

(** X8. The username of a submission is not checked against the seats.  In a
    room of two where one seated player has chosen, a valid submission
    under another name is the second key of the pending choices: the
    round resolves at once, the choice of the silent seat reads
    [undefined], and the point goes to the second seat, whichever of the
    two seats had chosen.  None of the three names is the name of a
    member inherited from [Object.prototype] (the assignment of line 323
    does nothing for [__proto__]). *)
Theorem stranger_completes_round (w : World) (socket u r k : string) (c c0 : value)
    (l : nat) (rs : RoomState.t) (s1 s2 : Seat.t) :
  roomStates w !! r = Some l ->
  heap w !! l = Some rs ->
  RoomState.connectedUsers rs = [s1; s2] ->
  Seat.username s1 <> Seat.username s2 ->
  existsb (String.eqb (Seat.username s1)) inherited = false ->
  existsb (String.eqb (Seat.username s2)) inherited = false ->
  existsb (String.eqb u) inherited = false ->
  k = Seat.username s1 \/ k = Seat.username s2 ->
  RoomState.choices rs = {[ k := c0 ]} ->
  validChoice c0 = true ->
  u <> ""%string -> u <> Seat.username s1 -> u <> Seat.username s2 ->
  validChoice c = true ->
  let sc := <[Seat.username s2 := incr (RoomState.scores rs !! Seat.username s2)]>
              (RoomState.scores rs) in
  exists w' rs' tail,
    step (PlayerChoice socket (Str u) r c) w = Ok tt w'
    /\ heap w' !! l = Some rs'
    /\ RoomState.scores rs' = sc
    /\ emitted w'
       = emitted w
         ++ ToRoom r "round-result"
              (RoundResult (RoomState.round rs) (<[u := c]> {[ k := c0 ]}) player2 sc)
            :: tail.
Proof.
  intros Hr Hl Hcu Hne _ _ _ Hk Hch Hc0 Hu Hu1 Hu2 Hc sc. cbn [step].
  assert (Hku : k <> u) by (destruct Hk; congruence).
  set (rs1 := recorded (Str u) c rs).
  assert (Hch1 : RoomState.choices rs1 = <[u := c]> {[ k := c0 ]}).
  { subst rs1. rewrite (recorded_str _ _ _ Hu). cbn. by rewrite Hch. }
  assert (Hsize : size (RoomState.choices rs1) = 2%nat).
  { rewrite Hch1, map_size_insert_None by (by rewrite lookup_singleton_ne).
    by rewrite map_size_singleton. }
  assert (Hp0 : playerAt 0 rs1 = Str (Seat.username s1)).
  { unfold playerAt. subst rs1. by rewrite recorded_connectedUsers, Hcu. }
  assert (Hp1 : playerAt 1 rs1 = Str (Seat.username s2)).
  { unfold playerAt. subst rs1. by rewrite recorded_connectedUsers, Hcu. }
  assert (Hres : roundResult rs1 = player2).
  { unfold roundResult, prop. rewrite Hp0, Hp1, Hch1. cbn [key].
    rewrite !lookup_insert_ne by congruence.
    destruct Hk as [-> | ->].
    - rewrite lookup_singleton_eq. rewrite lookup_singleton_ne by done.
      by apply missing_second_choice.
    - rewrite lookup_singleton_eq. rewrite lookup_singleton_ne by done.
      cbn [default from_option id]. apply missing_first_choice. intros ->. discriminate. }
  rewrite (choice_resolves _ _ _ _ _ _ _ Hr Hl (or_intror Hc) Hsize). fold rs1.
  destruct (roundOutcome_facts r l rs1 (set_heap (<[l := rs1]>) w)) as (rs' & tail & H1 & H2 & H3).
  exists (roundOutcome r l rs1 (set_heap (<[l := rs1]>) w)), rs', tail.
  split; [reflexivity |]. split; [exact H1 |].
  assert (Hsc : scoresAfter (roundResult rs1) (playerAt 0 rs1) (playerAt 1 rs1)
                  (RoomState.scores rs1) = sc).
  { rewrite Hres, Hp1. unfold scoresAfter, bump. cbn [key]. subst rs1.
    by rewrite recorded_scores. }
  split; [by rewrite H2 |].
  rewrite H3. cbn [emitted set_heap]. unfold announced.
  rewrite Hsc, Hres, Hch1. subst rs1. by rewrite recorded_round.
Qed.

Lemma stranger_completes_round_witness :
  exists w' rs' tail,
    step (PlayerChoice "sx" (Str "zed") Scenario.room (Str "scissors")) Scenario.aliceChose
    = Ok tt w'
    /\ heap w' !! 0%nat = Some rs'
    /\ RoomState.scores rs'
       = <["bob"%string := incr (RoomState.scores Scenario.aliceChoseRoom !! "bob"%string)]>
           (RoomState.scores Scenario.aliceChoseRoom)
    /\ emitted w'
       = emitted Scenario.aliceChose
         ++ ToRoom Scenario.room "round-result"
              (RoundResult 1 (<["zed"%string := Str "scissors"]> {[ "alice"%string := Str "rock" ]})
                 player2
                 (<["bob"%string
                    := incr (RoomState.scores Scenario.aliceChoseRoom !! "bob"%string)]>
                    (RoomState.scores Scenario.aliceChoseRoom)))
            :: tail.
Proof.
  apply (stranger_completes_round Scenario.aliceChose "sx" "zed" Scenario.room "alice"
           (Str "scissors") (Str "rock") 0 Scenario.aliceChoseRoom
           (Seat.mk "alice" "sa") (Seat.mk "bob" "sb")).
  - vm_compute. reflexivity.
  - vm_compute. reflexivity.
  - reflexivity.
  - done.
  - reflexivity.
  - reflexivity.
  - reflexivity.
  - by left.
  - reflexivity.
  - reflexivity.
  - done.
  - done.
  - done.
  - reflexivity.
Defined.

Lemma size_insert_ge (k : string) (v : value) (m : gmap string value) :
  (size m <= size (<[k := v]> m))%nat.
Proof. rewrite map_size_insert. destruct (m !! k); simpl; lia. Qed.

Lemma withDefaults_size_ge (rs : RoomState.t) :
  (size (RoomState.choices rs) <= size (withDefaults rs))%nat.
Proof.
  unfold withDefaults. cbv zeta.
  destruct (truthy (prop (RoomState.choices rs) (playerAt 0 rs))).
  - destruct (truthy _); [done | apply size_insert_ge].
  - destruct (truthy _).
    + apply size_insert_ge.
    + etransitivity; [| apply size_insert_ge]. apply size_insert_ge.
Qed.

(** X9. A round resolves only at exactly two pending choices.  Once three or
    more names have a pending choice the room is stuck: a valid
    submission only records the choice, and the round timer, when it
    fires, only fills in the defaults; neither resolves the round,
    broadcasts, or starts a timer. *)
Theorem crowded_choices_never_resolve (w : World) (r : string) (l : nat)
    (rs : RoomState.t) :
  roomStates w !! r = Some l ->
  heap w !! l = Some rs ->
  (3 <= size (RoomState.choices rs))%nat ->
  (forall socket u c,
     validChoice c = true ->
     step (PlayerChoice socket u r c) w = Ok tt (set_heap (<[l := recorded u c rs]>) w)
     /\ (3 <= size (RoomState.choices (recorded u c rs)))%nat)
  /\ (forall t,
        pending t (timers w) = Some (RoundExpiry l r) ->
        step (Fire t) w
        = Ok tt (set_heap (<[l := withChoices (withDefaults rs) rs]>)
                   (set_timers (clearTimer (Some t)) w))
        /\ (3 <= size (withDefaults rs))%nat).
Proof.
  intros Hr Hl Hs. split.
  - intros socket u c Hc.
    assert (Hs' : (3 <= size (RoomState.choices (recorded u c rs)))%nat).
    { unfold recorded. destruct (truthy u); [| done]. cbn.
      etransitivity; [exact Hs | apply size_insert_ge]. }
    split; [| exact Hs']. cbn [step].
    apply (choice_held _ _ _ _ _ _ _ Hr Hl (or_intror Hc)). lia.
  - intros t Hp. pose proof (withDefaults_size_ge rs) as Hge.
    split; [| lia]. rewrite (fire_round_eq _ _ _ _ Hp).
    erewrite roundExpiry_eq by side. cbv zeta.
    destruct (Nat.eqb_spec (size (withDefaults rs)) 2) as [E|_]; [lia | reflexivity].
Qed.

Lemma crowded_choices_never_resolve_witness :
  run Edge.strangerThenTimer init = Ok tt Edge.stalled
  /\ timers Edge.stalled = []
  /\ step (PlayerChoice "sa" (Str "alice") Scenario.room (Str "paper")) Edge.stalled
     = Ok tt (set_heap (<[0%nat := recorded (Str "alice") (Str "paper") Edge.stalledRoom]>)
                Edge.stalled).
Proof.
  split; [vm_compute; reflexivity |]. split; [vm_compute; reflexivity |].
  destruct (crowded_choices_never_resolve Edge.stalled Scenario.room 0 Edge.stalledRoom)
    as [Hsub _].
  - vm_compute. reflexivity.
  - vm_compute. reflexivity.
  - vm_compute. lia.
  - exact (proj1 (Hsub "sa"%string (Str "alice") (Str "paper") eq_refl)).
Defined.


(** X10. The resolver outside the rules.  A first choice that is none of
    rock, paper and scissors (a missing one included) never wins against
    a choice that is there: equal values tie, otherwise the second side
    wins.  A valid first choice loses to a missing second choice, while
    an unknown string on the first side beats a missing second choice. *)
Theorem resolver_outside_the_rules :
  (forall v v',
     validChoice v = false -> v' <> Undefined ->
     determineRoundWinner v v' = if value_eqb v v' then tie else player2)
  /\ (forall c : Choice, determineRoundWinner (choice_value c) Undefined = player2)
  /\ (forall a,
        validChoice (Str a) = false -> existsb (String.eqb a) inherited = false ->
        determineRoundWinner (Str a) Undefined = player1).
Proof.
  split; [| split].
  - intros v v' Hv Hv'. unfold determineRoundWinner.
    destruct (value_eqb v v'); [done |].
    destruct v as [| |a]; cbn [key].
    + by destruct v'.
    + by destruct v'.
    + revert Hv. unfold validChoice, winMap. cbn [existsb value_eqb].
      rewrite !orb_false_iff. intros (E1 & E2 & E3 & _). rewrite E1, E2, E3.
      destruct (existsb _ inherited); [done |]. by destruct v'.
  - by intros [].
  - intros a. unfold validChoice, determineRoundWinner, winMap. cbn [existsb value_eqb key].
    rewrite !orb_false_iff. intros (E1 & E2 & E3 & _) E4. by rewrite E1, E2, E3, E4.
Qed.

Lemma resolver_outside_the_rules_witness :
  determineRoundWinner (Str "lizard") (Str "scissors") = player2
  /\ determineRoundWinner (Str "rock") Undefined = player2
  /\ determineRoundWinner (Str "lizard") Undefined = player1.
Proof.
  destruct resolver_outside_the_rules as (H1 & H2 & H3).
  split; [exact (H1 (Str "lizard") (Str "scissors") eq_refl ltac:(discriminate)) |].
  split; [exact (H2 rock) | exact (H3 "lizard"%string eq_refl eq_refl)].
Defined.

End GameRounds.

Module GameDisconnect.
Import Game GameRound GameFacts GameJoin GameLeave GameInv.
Import GameJoinFacts GameInvFacts GameStepFacts.

Lemma onlyUnseats_refl (w : World) : onlyUnseats w w.
Proof.
  split; [done |]. split; [done |]. split.
  - exists []. by rewrite app_nil_r.
  - intros l rs Hl. exists rs. by repeat split.
Qed.

Lemma onlyUnseats_trans (w1 w2 w3 : World) :
  onlyUnseats w1 w2 -> onlyUnseats w2 w3 -> onlyUnseats w1 w3.
Proof.
  intros (Hreg & Hrooms & (ts & Hts & Hg) & Hheap) (Hreg' & Hrooms' & (ts' & Hts' & Hg') & Hheap').
  split; [congruence |]. split; [congruence |]. split.
  - exists (ts ++ ts'). split; [by rewrite Hts', Hts, app_assoc |]. by apply Forall_app.
  - intros l rs Hl. destruct (Hheap _ _ Hl) as (rs2 & Hl2 & E1 & E2 & E3 & E4 & E5).
    destruct (Hheap' _ _ Hl2) as (rs3 & Hl3 & F1 & F2 & F3 & F4 & F5).
    exists rs3. repeat split; try congruence. auto.
Qed.

Lemma departed_onlyUnseats (username room : string) (w : World) :
  onlyUnseats w (departed username room w).
Proof.
  split; [done |]. split; [done |]. split.
  - eexists. split; [reflexivity |]. apply Forall_singleton. by eexists; eexists.
  - intros l rs Hl. unfold departed. cbn [heap].
    destruct (roomStates w !! room) as [l'|]; [| exists rs; by repeat split].
    destruct (decide (l' = l)) as [->|Hne].
    + rewrite lookup_alter_eq, Hl. eexists. split; [reflexivity |].
      repeat split. cbn. intros s Hin. by apply filter_In in Hin as [? _].
    + rewrite lookup_alter_ne by done. exists rs. by repeat split.
Qed.

Lemma departures_onlyUnseat (username : string) (js : list string) (w : World) :
  onlyUnseats w (fold_left (fun w room => departed username room w) js w).
Proof.
  revert w. induction js as [|j js IH]; intros w; cbn [fold_left].
  - apply onlyUnseats_refl.
  - eapply onlyUnseats_trans; [apply departed_onlyUnseats | apply IH].
Qed.

(** X11. [handleDisconnecting] always returns, and all it does is remove
    seats, start grace timers and broadcast: the registry entry of the
    socket stays, no room is unlisted, the scores, round number, pending
    choices and round timer of every room are kept, and no pending timer
    is cancelled.  For a socket without registry entry it does nothing
    at all. *)
Theorem disconnect_only_unseats (w : World) (socket : string) :
  exists w',
    handleDisconnecting socket w = Ok tt w'
    /\ onlyUnseats w w'
    /\ (Obj.get socket (connectedUsers w) = None -> w' = w).
Proof.
  rewrite handleDisconnecting_eq. eexists. split; [reflexivity |].
  destruct (Obj.get socket (connectedUsers w)) as [user|].
  - split; [apply departures_onlyUnseat | done].
  - split; [apply onlyUnseats_refl | done].
Qed.

(** X12. The disconnect of a registered socket that joined one room: every
    seat under the user's name is removed from the room, one grace timer
    is started for the room and one for the room named by the socket's
    own id, each with its own disconnect broadcast; the round timer
    keeps running. *)
Theorem disconnect_leaves_room (w : World) (socket R : string) (user : User.t) (l : nat)
    (rs : RoomState.t) :
  Obj.get socket (connectedUsers w) = Some user ->
  rooms w !! socket = Some [R] ->
  roomStates w !! socket = None ->
  roomStates w !! R = Some l ->
  heap w !! l = Some rs ->
  let u := User.username user in
  handleDisconnecting socket w
  = Ok tt (mkWorld (connectedUsers w) (roomStates w) (<[l := unseat u rs]> (heap w))
             (nextObject w)
             (timers w ++ [(nextTimer w, GraceExpiry u socket);
                           (S (nextTimer w), GraceExpiry u R)])
             (S (S (nextTimer w))) (rooms w)
             (emitted w
                ++ [ToRoom socket "room-event:disconnect"
                      (Text (u +:+ " disconnected from " +:+ socket));
                    ToRoom R "room-event:disconnect"
                      (Text (u +:+ " disconnected from " +:+ R))])).
Proof.
  intros Hu Hrooms Hown Hr Hl u. rewrite handleDisconnecting_eq, Hu.
  unfold socket_rooms. rewrite Hrooms. cbn [default from_option id fold_left].
  unfold departed. cbn [roomStates heap timers nextTimer emitted connectedUsers nextObject rooms].
  rewrite Hown, Hr, <- !app_assoc. cbn [app].
  by rewrite (alter_lookup_insert _ _ _ _ Hl).
Qed.

Lemma disconnect_leaves_room_witness :
  handleDisconnecting "sb" Scenario.seated
  = Ok tt (mkWorld (connectedUsers Scenario.seated) (roomStates Scenario.seated)
             (<[0%nat := unseat "bob" Scenario.seatedRoom]> (heap Scenario.seated))
             (nextObject Scenario.seated)
             (timers Scenario.seated ++ [(nextTimer Scenario.seated, GraceExpiry "bob" "sb");
                                         (S (nextTimer Scenario.seated),
                                          GraceExpiry "bob" Scenario.room)])
             (S (S (nextTimer Scenario.seated))) (rooms Scenario.seated)
             (emitted Scenario.seated
                ++ [ToRoom "sb" "room-event:disconnect"
                      (Text ("bob" +:+ " disconnected from " +:+ "sb"));
                    ToRoom Scenario.room "room-event:disconnect"
                      (Text ("bob" +:+ " disconnected from " +:+ Scenario.room))])).
Proof.
  apply (disconnect_leaves_room Scenario.seated "sb" Scenario.room
           (User.mk "bob" "abcde" "sb") 0 Scenario.seatedRoom).
  - vm_compute. reflexivity.
  - vm_compute. reflexivity.
  - vm_compute. reflexivity.
  - vm_compute. reflexivity.
  - vm_compute. reflexivity.
Defined.

End GameDisconnect.

(** ** The lobby: the registry and the room lists *)

Module LobbyStateFacts.
Import Lobby LobbyState.

Lemma removeUserFromRoom_eq (s r : string) (w : World) :
  removeUserFromRoom s r w = Ok tt (set_roomStates (removed s r) w).
Proof.
  unfold removeUserFromRoom, removed, bind, get, set_roomStates.
  destruct (roomStates w !! r) as [us|]; [| by destruct w].
  cbn [modify roomStates]. destruct (Nat.eqb _ 0); reflexivity.
Qed.

Lemma lobby_disconnectingFrom_eq (s r : string) (w : World) :
  disconnectingFrom s r w
  = Ok tt match connectedUsers w !! s with
          | Some user =>
              mkWorld (connectedUsers w) (removed s r (roomStates w)) (rooms w)
                      (emitted w ++ [ToRoom r "room-event:disconnect"
                                       (Text (User.username user +:+ " left " +:+ r))])
          | None => w
          end.
Proof.
  unfold disconnectingFrom, bind at 1, get.
  destruct (connectedUsers w !! s) as [user|]; [| reflexivity].
  unfold bind, emit, modify. by rewrite removeUserFromRoom_eq.
Qed.

(** The rooms and broadcasts after the loop of [handleDisconnecting]. *)
Lemma forEach_disconnectingFrom (s : string) (user : User.t) (js : list string) (w : World) :
  connectedUsers w !! s = Some user ->
  forEach js (disconnectingFrom s) w
  = Ok tt (mkWorld (connectedUsers w)
             (fold_left (fun m r => removed s r m) js (roomStates w)) (rooms w)
             (emitted w ++ map (fun r => ToRoom r "room-event:disconnect"
                                           (Text (User.username user +:+ " left " +:+ r))) js)).
Proof.
  revert w. induction js as [|j js IH]; intros w Hu; cbn [forEach fold_left map].
  - rewrite app_nil_r. by destruct w.
  - erewrite bind_Ok by apply lobby_disconnectingFrom_eq. rewrite Hu.
    rewrite IH by done. cbn [connectedUsers roomStates rooms emitted].
    by rewrite <- app_assoc.
Qed.

Lemma forEach_disconnectingFrom_unknown (s : string) (js : list string) (w : World) :
  connectedUsers w !! s = None -> forEach js (disconnectingFrom s) w = Ok tt w.
Proof.
  intros Hu. induction js as [|j js IH]; cbn [forEach]; [reflexivity |].
  erewrite bind_Ok by apply lobby_disconnectingFrom_eq. by rewrite Hu.
Qed.

Lemma filter_twice {A} (f : A -> bool) (l : list A) :
  List.filter f (List.filter f l) = List.filter f l.
Proof.
  induction l as [|x l IH]; simpl; [done |].
  destruct (f x) eqn:E; simpl; rewrite ?E, IH; done.
Qed.

Lemma filter_all {A} (f : A -> bool) (l : list A) :
  (forall x, In x l -> f x = true) -> List.filter f l = l.
Proof.
  induction l as [|x l IH]; simpl; [done |]. intros H.
  rewrite (H x) by auto. f_equal. apply IH. auto.
Qed.

Lemma pruned_twice (s : string) (o : option (list string)) :
  pruned s (pruned s o) = pruned s o.
Proof.
  destruct o as [us|]; [| done]. unfold pruned. cbv zeta.
  destruct (Nat.eqb (length (List.filter _ us)) 0) eqn:E; [done |].
  by rewrite filter_twice, E.
Qed.

Lemma pruned_Some (s : string) (o : option (list string)) (us' : list string) :
  pruned s o = Some us' <->
  exists us, o = Some us
             /\ us' = List.filter (fun id => negb (String.eqb id s)) us /\ us' <> [].
Proof.
  destruct o as [us|]; unfold pruned; cbv zeta.
  - destruct (List.filter _ us) as [|x l] eqn:E; cbn [length Nat.eqb]; split.
    + done.
    + intros (us0 & [= <-] & -> & Hne). by rewrite E in Hne.
    + intros [= <-]. exists us. by rewrite E.
    + intros (us0 & [= <-] & -> & Hne). by rewrite E.
  - split; [done | by intros (? & ? & _)].
Qed.

(** A list without the socket is left as it is. *)
Lemma pruned_absent (s : string) (us : list string) :
  ~ In s us -> us <> [] -> pruned s (Some us) = Some us.
Proof.
  intros Hs Hne. unfold pruned. cbv zeta. rewrite filter_all.
  - by destruct us.
  - intros x Hx. apply negb_true_iff, String.eqb_neq. by intros ->.
Qed.

Lemma lookup_removed (s r r' : string) (m : gmap string (list string)) :
  removed s r m !! r' = if decide (r' = r) then pruned s (m !! r) else m !! r'.
Proof.
  unfold removed, pruned. destruct (decide (r' = r)) as [->|Hne].
  - destruct (m !! r) as [us|] eqn:E; [| done]. cbv zeta.
    destruct (Nat.eqb _ 0).
    + by rewrite lookup_delete_eq.
    + by rewrite lookup_insert_eq.
  - destruct (m !! r) as [us|] eqn:E; [| done]. cbv zeta.
    destruct (Nat.eqb _ 0).
    + rewrite lookup_delete_ne by done. by rewrite lookup_insert_ne.
    + by rewrite lookup_insert_ne.
Qed.

Lemma lookup_removed_all (s : string) (js : list string) (m : gmap string (list string))
    (r : string) :
  fold_left (fun m r => removed s r m) js m !! r
  = if decide (r ∈ js) then pruned s (m !! r) else m !! r.
Proof.
  revert m. induction js as [|j js IH]; intros m; cbn [fold_left].
  - rewrite decide_False; [done | apply not_elem_of_nil].
  - rewrite IH, lookup_removed.
    destruct (decide (r ∈ j :: js)) as [Hin|Hnin].
    + destruct (decide (r ∈ js)) as [Hin'|Hnin'].
      * destruct (decide (r = j)) as [->|]; [apply pruned_twice | done].
      * apply elem_of_cons in Hin as [-> | ?]; [| done]. by rewrite decide_True.
    + rewrite decide_False by (intros ?; apply Hnin, elem_of_cons; by right).
      rewrite decide_False; [done |]. intros ->. apply Hnin, elem_of_cons. by left.
Qed.

Section Consistent.
Variables w w' : World.
Hypothesis Hc : consistent w.

Lemma unlisted (s r : string) (us : list string) :
  connectedUsers w !! s = None -> roomStates w !! r = Some us -> ~ In s us.
Proof.
  intros Hs Hr Hin. destruct (c_members _ Hc _ _ _ Hr Hin) as (user & Hu & _). congruence.
Qed.

(** The room lists after the loop over [socket.rooms]. *)
Lemma pruned_everywhere (s r : string) :
  fold_left (fun m r => removed s r m) (socket_rooms s w) (roomStates w) !! r
  = pruned s (roomStates w !! r).
Proof.
  rewrite lookup_removed_all. destruct (decide (r ∈ socket_rooms s w)) as [|Hnin]; [done |].
  destruct (roomStates w !! r) as [us|] eqn:Hr; [| done].
  symmetry. apply pruned_absent; [| by apply (c_nonempty _ Hc r)].
  intros Hin. destruct (c_members _ Hc _ _ _ Hr Hin) as (user & _ & _ & Hj).
  apply Hnin. apply elem_of_cons. right. by apply list_elem_of_In.
Qed.

Lemma consistent_frame :
  connectedUsers w' = connectedUsers w -> roomStates w' = roomStates w ->
  rooms w' = rooms w -> consistent w'.
Proof. intros E1 E2 E3. destruct Hc. split; rewrite ?E1, ?E2, ?E3; auto. Qed.

Lemma consistent_pruned (s : string) :
  (forall r, roomStates w' !! r = pruned s (roomStates w !! r)) ->
  connectedUsers w' = delete s (connectedUsers w) ->
  rooms w' = delete s (rooms w) ->
  consistent w'.
Proof.
  intros Hrooms Hreg Hj.
  assert (Hold : forall r us', roomStates w' !! r = Some us' ->
            exists us, roomStates w !! r = Some us
                       /\ us' = List.filter (fun id => negb (String.eqb id s)) us
                       /\ us' <> []).
  { intros r us'. rewrite Hrooms. apply pruned_Some. }
  split.
  - intros r us' Hr. destruct (Hold _ _ Hr) as (us & Hr0 & -> & _).
    etransitivity; [apply LobbyFacts.filter_length_le | by apply (c_bounded _ Hc r)].
  - intros r us' Hr. by destruct (Hold _ _ Hr) as (us & _ & _ & ?).
  - intros r us' Hr. destruct (Hold _ _ Hr) as (us & Hr0 & -> & _).
    apply NoDup_ListNoDup, List.NoDup_filter, NoDup_ListNoDup. by apply (c_distinct _ Hc r).
  - intros r us' s' Hr Hin. destruct (Hold _ _ Hr) as (us & Hr0 & -> & _).
    apply filter_In in Hin as [Hin Hne]. apply negb_true_iff, String.eqb_neq in Hne.
    destruct (c_members _ Hc _ _ _ Hr0 Hin) as (user & Hu & Hhome & Hjoined).
    exists user. rewrite Hreg, Hj, !lookup_delete_ne by done. done.
  - intros s' user. rewrite Hreg. intros [Hne Hu]%lookup_delete_Some.
    destruct (c_home _ Hc _ _ Hu) as (us & Hr0 & Hin).
    assert (Hin' : In s' (List.filter (fun id => negb (String.eqb id s)) us)).
    { apply filter_In. split; [done |]. apply negb_true_iff, String.eqb_neq. congruence. }
    exists (List.filter (fun id => negb (String.eqb id s)) us). split; [| done].
    rewrite Hrooms, Hr0. apply pruned_Some. exists us. split; [done |]. split; [done |].
    intros E. by rewrite E in Hin'.
Qed.

End Consistent.

Lemma lobby_handleDisconnecting_eq (s : string) (w : World) :
  exists said,
    handleDisconnecting s w
    = Ok tt (mkWorld (delete s (connectedUsers w))
               (match connectedUsers w !! s with
                | Some _ =>
                    fold_left (fun m r => removed s r m) (socket_rooms s w) (roomStates w)
                | None => roomStates w
                end)
               (rooms w) (emitted w ++ said)).
Proof.
  unfold handleDisconnecting. rewrite (bind_Ok get _ _ _ _ eq_refl).
  destruct (connectedUsers w !! s) as [user|] eqn:Hu.
  - eexists. erewrite bind_Ok by (by apply forEach_disconnectingFrom). reflexivity.
  - exists []. erewrite bind_Ok by (by apply forEach_disconnectingFrom_unknown).
    rewrite app_nil_r. reflexivity.
Qed.

(** What a disconnect leaves behind in a consistent lobby. *)
Lemma disconnect_prunes (s : string) (w : World) :
  consistent w ->
  exists w',
    step (Disconnecting s) w = Ok tt w'
    /\ connectedUsers w' = delete s (connectedUsers w)
    /\ rooms w' = delete s (rooms w)
    /\ (forall r, roomStates w' !! r = pruned s (roomStates w !! r))
    /\ consistent w'.
Proof.
  intros Hc. cbn [step]. destruct (lobby_handleDisconnecting_eq s w) as [said Hs].
  rewrite (bind_Ok _ _ _ _ _ Hs). eexists. split; [reflexivity |].
  cbn [set_rooms connectedUsers rooms roomStates].
  assert (Hrooms : forall r,
            match connectedUsers w !! s with
            | Some _ =>
                fold_left (fun m r => removed s r m) (socket_rooms s w) (roomStates w)
            | None => roomStates w
            end !! r = pruned s (roomStates w !! r)).
  { intros r. destruct (connectedUsers w !! s) as [user|] eqn:Hu.
    - by apply pruned_everywhere.
    - destruct (roomStates w !! r) as [us|] eqn:Hr; [| done].
      symmetry. apply pruned_absent; [by eapply unlisted | by apply (c_nonempty _ Hc r)]. }
  split; [done |]. split; [done |]. split; [exact Hrooms |].
  by apply (consistent_pruned w _ Hc s).
Qed.

Lemma valid_room (room : string) :
  (4 < String.length room)%nat -> (Z.of_nat (String.length room) <=? 4) = false.
Proof. intros H. apply Z.leb_gt. lia. Qed.

(** An accepted join. *)
Lemma join_enters (s u room : string) (w : World) :
  u <> ""%string -> (4 < String.length room)%nat ->
  connectedUsers w !! s = None ->
  (length (default [] (roomStates w !! ("room:" +:+ room))) < 2)%nat ->
  handleConnectToRoom s (Str u) (Str room) w = Ok tt (entered s u room w).
Proof.
  intros Hu Hlen Hs Hfree. unfold handleConnectToRoom.
  rewrite (str_truthy _ Hu), (valid_room _ Hlen). cbn [negb key].
  rewrite (bind_Ok get _ _ _ _ eq_refl). rewrite Hs.
  rewrite bool_decide_eq_false_2 by (by intros [? ?]).
  replace (2 <=? length _)%nat with false by (symmetry; apply Nat.leb_gt; lia).
  unfold entered, bind, join, emit, get, when, modify, set_rooms, set_connectedUsers,
    set_roomStates. cbn [connectedUsers roomStates rooms emitted].
  rewrite lookup_insert_eq, insert_insert_eq. cbn [default from_option id].
  rewrite lookup_insert_eq. cbn [default from_option id].
  destruct (Nat.eqb _ 2); cbn [ret connectedUsers roomStates rooms emitted];
    rewrite <- ?app_assoc; reflexivity.
Qed.

Lemma entered_consistent (s u room : string) (w : World) :
  consistent w ->
  connectedUsers w !! s = None ->
  (length (default [] (roomStates w !! ("room:" +:+ room))) < 2)%nat ->
  consistent (entered s u room w).
Proof.
  intros Hc Hs Hfree. set (R := ("room:" +:+ room)%string) in *.
  assert (Hnew : forall us, roomStates w !! R = Some us -> ~ In s us).
  { intros us Hr. by eapply unlisted. }
  assert (Hjoined : In R (default [] (rooms (entered s u room w) !! s))).
  { unfold entered. cbn [rooms]. fold R.
    destruct (existsb (String.eqb R) (default [] (rooms w !! s))) eqn:E.
    - apply existsb_exists in E as (x & Hx & ->%String.eqb_eq). done.
    - rewrite lookup_insert_eq. cbn. apply in_app_iff. right. by left. }
  assert (Hkeep : forall s' r, s' <> s -> In r (default [] (rooms w !! s')) ->
            In r (default [] (rooms (entered s u room w) !! s'))).
  { intros s' r Hne Hin. unfold entered. cbn [rooms]. fold R.
    destruct (existsb _ _); [done |]. by rewrite lookup_insert_ne. }
  split; unfold entered; cbn [roomStates connectedUsers]; fold R.
  - intros r us. destruct (decide (R = r)) as [<-|Hne].
    + rewrite lookup_insert_eq. intros [= <-]. rewrite length_app. simpl. lia.
    + rewrite lookup_insert_ne by done. by apply (c_bounded _ Hc).
  - intros r us. destruct (decide (R = r)) as [<-|Hne].
    + rewrite lookup_insert_eq. intros [= <-]. by destruct (default [] _).
    + rewrite lookup_insert_ne by done. by apply (c_nonempty _ Hc).
  - intros r us. destruct (decide (R = r)) as [<-|Hne].
    + rewrite lookup_insert_eq. intros [= <-].
      apply NoDup_app. split; [| split; [| apply NoDup_singleton]].
      * destruct (roomStates w !! R) as [us|] eqn:Hr; cbn; [| apply NoDup_nil_2].
        by apply (c_distinct _ Hc R).
      * intros x Hx ->%list_elem_of_singleton.
        destruct (roomStates w !! R) as [us|] eqn:Hr; cbn in Hx.
        -- apply (Hnew us eq_refl). by apply list_elem_of_In.
        -- by apply elem_of_nil in Hx.
    + rewrite lookup_insert_ne by done. by apply (c_distinct _ Hc).
  - intros r us s'. destruct (decide (R = r)) as [<-|Hne].
    + rewrite lookup_insert_eq. intros [= <-] Hin.
      apply in_app_iff in Hin as [Hin | [<- | []]].
      * destruct (roomStates w !! R) as [us|] eqn:Hr; cbn in Hin; [| done].
        destruct (c_members _ Hc _ _ _ Hr Hin) as (user & Hu' & Hhome & Hj).
        assert (s' <> s) by congruence.
        exists user. rewrite lookup_insert_ne by done. split; [done |]. split; [done |].
        by apply Hkeep.
      * exists (User.mk u room). rewrite lookup_insert_eq. split; [done |]. split; [done |].
        exact Hjoined.
    + rewrite lookup_insert_ne by done. intros Hr Hin.
      destruct (c_members _ Hc _ _ _ Hr Hin) as (user & Hu' & Hhome & Hj).
      assert (s' <> s) by congruence.
      exists user. rewrite lookup_insert_ne by done. split; [done |]. split; [done |].
      by apply Hkeep.
  - intros s' user. destruct (decide (s = s')) as [<-|Hne].
    + rewrite lookup_insert_eq. intros [= <-]. cbn [User.room]. fold R.
      rewrite lookup_insert_eq. eexists. split; [reflexivity |].
      apply in_app_iff. right. by left.
    + rewrite lookup_insert_ne by done. intros Hu'.
      destruct (c_home _ Hc _ _ Hu') as (us & Hr & Hin).
      destruct (decide (R = "room:" +:+ User.room user)) as [E|Hne'].
      * rewrite <- E in *. rewrite lookup_insert_eq. eexists. split; [reflexivity |].
        rewrite Hr. cbn. apply in_app_iff. by left.
      * rewrite lookup_insert_ne by done. eauto.
Qed.

Lemma init_consistent : consistent init.
Proof. split; cbn; intros *; by rewrite lookup_empty. Qed.

Lemma refusal_consistent (w : World) (e : Emit) :
  consistent w ->
  consistent (mkWorld (connectedUsers w) (roomStates w) (rooms w) (emitted w ++ [e])).
Proof. intros Hc. by apply (consistent_frame w). Qed.

(** One event keeps the lobby consistent. *)
Lemma step_consistent (e : Event) (w w' : World) :
  consistent w -> step e w = Ok tt w' -> consistent w'.
Proof.
  intros Hc. destruct e as [s username room | s].
  - cbn [step]. unfold handleConnectToRoom.
    destruct (negb (truthy username)) eqn:Vu.
    { intros H%Ok_inj. subst. by apply refusal_consistent. }
    destruct room as [| |room]; [done | done |].
    destruct (Z.of_nat (String.length room) <=? 4) eqn:Vl.
    { intros H%Ok_inj. subst. by apply refusal_consistent. }
    rewrite (bind_Ok get _ _ _ _ eq_refl). cbn [key].
    destruct (connectedUsers w !! s) as [user|] eqn:Hs.
    { rewrite bool_decide_eq_true_2 by eauto. intros H%Ok_inj. subst.
      by apply refusal_consistent. }
    rewrite bool_decide_eq_false_2 by (by intros [? ?]).
    destruct (2 <=? length (default [] (roomStates w !! ("room:" +:+ room))))%nat eqn:Hfull.
    { intros H%Ok_inj. subst. by apply refusal_consistent. }
    apply Nat.leb_gt in Hfull. apply negb_false_iff in Vu. apply Z.leb_gt in Vl.
    destruct username as [| |u]; try done.
    assert (Hu : u <> ""%string) by (intros ->; done).
    intros Hrun.
    assert (Hent : handleConnectToRoom s (Str u) (Str room) w = Ok tt w').
    { unfold handleConnectToRoom. cbn [truthy key]. apply negb_true_iff in Vu.
      rewrite Vu. cbn [negb]. apply Z.leb_gt in Vl. rewrite Vl.
      rewrite (bind_Ok get _ _ _ _ eq_refl), Hs.
      rewrite bool_decide_eq_false_2 by (by intros [? ?]).
      apply Nat.leb_gt in Hfull. rewrite Hfull. exact Hrun. }
    rewrite join_enters in Hent by (done || lia).
    apply Ok_inj in Hent. subst. by apply entered_consistent.
  - intros Hs. destruct (disconnect_prunes s w Hc) as (w1 & Hs1 & _ & _ & _ & Hc1).
    rewrite Hs in Hs1. apply Ok_inj in Hs1. by subst.
Qed.

Lemma run_consistent (es : list Event) (w w' : World) :
  consistent w -> run es w = Ok tt w' -> consistent w'.
Proof.
  revert w. induction es as [|e es IH]; intros w Hc; unfold run; cbn [forEach].
  - intros H%Ok_inj. by subst.
  - unfold bind. destruct (step e w) as [[] w1|] eqn:Hs; [| done].
    apply IH. by eapply step_consistent.
Qed.

End LobbyStateFacts.

Module LobbyReach.
Import Lobby LobbyState LobbyStateFacts.

Lemma reachable_consistent (w : World) : reachable w -> consistent w.
Proof. intros [es Hes]. exact (run_consistent es init w init_consistent Hes). Qed.

(** X26. In every reachable state of the lobby the registry and the room
    lists agree: a listed room holds one or two distinct sockets, each of
    them registered for exactly that room and joined to it, and every
    registered socket is listed in the room it registered for. *)
Theorem lobby_registry_agrees_with_rooms (w : World) : reachable w -> consistent w.
Proof. apply reachable_consistent. Qed.

Lemma lobby_registry_agrees_with_rooms_witness : consistent LobbyScenario.seated.
Proof.
  apply (lobby_registry_agrees_with_rooms LobbyScenario.seated).
  exists LobbyScenario.joins. vm_compute. reflexivity.
Defined.

(** X24. A disconnect in a reachable lobby always returns; it deletes the
    registry entry of the socket, filters the socket out of every room
    list and deletes the lists that become empty; the other sockets stay
    where they are. *)
Theorem lobby_disconnect_forgets_socket (w : World) (s : string) :
  reachable w ->
  exists w',
    step (Disconnecting s) w = Ok tt w'
    /\ connectedUsers w' = delete s (connectedUsers w)
    /\ (forall r, roomStates w' !! r = pruned s (roomStates w !! r))
    /\ (forall r us, roomStates w' !! r = Some us -> ~ In s us /\ us <> []).
Proof.
  intros Hreach. pose proof (reachable_consistent w Hreach) as Hc.
  destruct (disconnect_prunes s w Hc) as (w' & Hs & Hreg & _ & Hrooms & Hc').
  exists w'. split; [exact Hs |]. split; [exact Hreg |]. split; [exact Hrooms |].
  intros r us Hr. split; [| by apply (c_nonempty _ Hc' r)].
  intros Hin. destruct (c_members _ Hc' _ _ _ Hr Hin) as (user & Hu & _).
  rewrite Hreg, lookup_delete_eq in Hu. discriminate.
Qed.

Lemma lobby_disconnect_forgets_socket_witness :
  exists w',
    step (Disconnecting "sb") LobbyScenario.seated = Ok tt w'
    /\ connectedUsers w' = delete "sb"%string (connectedUsers LobbyScenario.seated)
    /\ roomStates w' !! "room:abcde"%string = Some ["sa"%string].
Proof.
  destruct (lobby_disconnect_forgets_socket LobbyScenario.seated "sb")
    as (w' & Hs & Hreg & Hrooms & _).
  - exists LobbyScenario.joins. vm_compute. reflexivity.
  - exists w'. split; [exact Hs |]. split; [exact Hreg |].
    rewrite Hrooms. vm_compute. reflexivity.
Defined.

(** X20. An accepted join: a socket without registry entry that sends a valid
    message for a room listing fewer than two sockets is registered,
    appended to the list of the room (created if needed) and announced;
    ready is broadcast exactly when the list then holds two sockets. *)
Theorem lobby_join_enters_room (w : World) (s u room : string) :
  u <> ""%string -> (4 < String.length room)%nat ->
  connectedUsers w !! s = None ->
  (length (default [] (roomStates w !! ("room:" +:+ room))) < 2)%nat ->
  let R := "room:" +:+ room in
  let us := default [] (roomStates w !! R) ++ [s] in
  exists w',
    step (ConnectToRoom s (Str u) (Str room)) w = Ok tt w'
    /\ connectedUsers w' = <[s := User.mk u room]> (connectedUsers w)
    /\ roomStates w' = <[R := us]> (roomStates w)
    /\ In R (default [] (rooms w' !! s))
    /\ emitted w'
       = emitted w
         ++ ToRoom R "room-event:join" (Text (u +:+ " joined " +:+ R))
         :: (if Nat.eqb (length us) 2
             then [ToRoom R "room-event:ready" (Text "players are ready, waiting for choice")]
             else []).
Proof.
  intros Hu Hlen Hs Hfree R us. cbn [step]. rewrite join_enters by done.
  eexists. split; [reflexivity |]. unfold entered.
  cbn [connectedUsers roomStates rooms emitted]. fold R. repeat split.
  destruct (existsb (String.eqb R) (default [] (rooms w !! s))) eqn:E.
  - apply existsb_exists in E as (x & Hx & ->%String.eqb_eq). done.
  - rewrite lookup_insert_eq. cbn. apply in_app_iff. right. by left.
Qed.

Lemma lobby_join_enters_room_witness :
  exists w',
    step (ConnectToRoom "sa" (Str "alice") (Str "abcde")) init = Ok tt w'
    /\ connectedUsers w' = <["sa"%string := User.mk "alice" "abcde"]> (connectedUsers init)
    /\ roomStates w' = <["room:abcde"%string := ["sa"%string]]> (roomStates init).
Proof.
  destruct (lobby_join_enters_room init "sa" "alice" "abcde")
    as (w' & Hs & Hreg & Hrooms & _).
  - done.
  - simpl. lia.
  - reflexivity.
  - vm_compute. lia.
  - exists w'. split; [exact Hs |]. split; [exact Hreg | exact Hrooms].
Defined.


(** X25. Joining and leaving again is a round trip.  A socket that is new to a
    reachable lobby sends a valid join and then disconnects: both
    handlers return, and the registry, the room lists and [socket.rooms]
    are what they were before, whether the join was accepted or refused
    because the room was full. *)
Theorem lobby_join_then_leave (w : World) (s u room : string) :
  reachable w ->
  u <> ""%string -> (4 < String.length room)%nat ->
  connectedUsers w !! s = None ->
  rooms w !! s = None ->
  exists w',
    run [ConnectToRoom s (Str u) (Str room); Disconnecting s] w = Ok tt w'
    /\ connectedUsers w' = connectedUsers w
    /\ roomStates w' = roomStates w
    /\ rooms w' = rooms w.
Proof.
  intros Hreach Hu Hlen Hs Hj. pose proof (reachable_consistent w Hreach) as Hc.
  set (R := ("room:" +:+ room)%string).
  assert (Hsame : forall r, pruned s (roomStates w !! r) = roomStates w !! r).
  { intros r. destruct (roomStates w !! r) as [us|] eqn:Hr; [| done].
    apply pruned_absent; [by eapply unlisted | by apply (c_nonempty _ Hc r)]. }
  unfold run. cbn [forEach].
  destruct (le_lt_dec 2 (length (default [] (roomStates w !! R)))) as [Hfull|Hfree].
  - (* the room is full: the join is refused *)
    assert (Hjoin : step (ConnectToRoom s (Str u) (Str room)) w
              = Ok tt (mkWorld (connectedUsers w) (roomStates w) (rooms w)
                         (emitted w ++ [ToSocket s "exception" (Text "room full")]))).
    { cbn [step]. unfold handleConnectToRoom.
      rewrite (str_truthy _ Hu), (valid_room _ Hlen). cbn [negb key].
      rewrite (bind_Ok get _ _ _ _ eq_refl), Hs.
      rewrite bool_decide_eq_false_2 by (by intros [? ?]). fold R.
      by replace (2 <=? length _)%nat with true by (symmetry; by apply Nat.leb_le). }
    rewrite (bind_Ok _ _ _ _ _ Hjoin), bind_ret_r.
    assert (Hc1 : consistent (mkWorld (connectedUsers w) (roomStates w) (rooms w)
                                (emitted w ++ [ToSocket s "exception" (Text "room full")]))).
    { by apply refusal_consistent. }
    destruct (disconnect_prunes s _ Hc1) as (w' & Hs' & Hreg & Hrm & Hrooms & _).
    exists w'. split; [exact Hs' |]. cbn [connectedUsers roomStates rooms] in *.
    split; [by rewrite Hreg, delete_id |]. split; [| by rewrite Hrm, delete_id].
    apply map_eq. intros r. by rewrite Hrooms.
  - (* the join is accepted *)
    assert (Hjoin : step (ConnectToRoom s (Str u) (Str room)) w = Ok tt (entered s u room w)).
    { cbn [step]. by apply join_enters. }
    rewrite (bind_Ok _ _ _ _ _ Hjoin), bind_ret_r.
    assert (Hc1 : consistent (entered s u room w)) by (by apply entered_consistent).
    destruct (disconnect_prunes s _ Hc1) as (w' & Hs' & Hreg & Hrm & Hrooms & _).
    exists w'. split; [exact Hs' |].
    unfold entered in Hreg, Hrm, Hrooms. cbn [connectedUsers roomStates rooms] in *.
    fold R in Hrm, Hrooms. rewrite Hj in Hrm. cbn [default from_option id existsb app] in Hrm.
    split; [by rewrite Hreg, delete_insert_id |].
    split; [| by rewrite Hrm, delete_insert_id].
    apply map_eq. intros r. rewrite Hrooms.
    destruct (decide (R = r)) as [<-|Hne].
    + rewrite lookup_insert_eq. unfold pruned. cbv zeta.
      rewrite List.filter_app. cbn [List.filter]. rewrite String.eqb_refl. cbn [negb].
      rewrite app_nil_r.
      destruct (roomStates w !! R) as [us|] eqn:Hr; cbn [default from_option id].
      * rewrite filter_all.
        -- pose proof (c_nonempty _ Hc _ _ Hr). by destruct us.
        -- intros x Hx. apply negb_true_iff, String.eqb_neq. intros ->.
           by apply (unlisted w Hc s R us).
      * reflexivity.
    + rewrite lookup_insert_ne by done. apply Hsame.
Qed.

Lemma lobby_join_then_leave_witness :
  exists w',
    run [ConnectToRoom "sc" (Str "carol") (Str "abcde"); Disconnecting "sc"]
        LobbyScenario.seated = Ok tt w'
    /\ connectedUsers w' = connectedUsers LobbyScenario.seated
    /\ roomStates w' = roomStates LobbyScenario.seated
    /\ rooms w' = rooms LobbyScenario.seated.
Proof.
  apply (lobby_join_then_leave LobbyScenario.seated "sc" "carol" "abcde").
  - exists LobbyScenario.joins. vm_compute. reflexivity.
  - done.
  - simpl. lia.
  - vm_compute. reflexivity.
  - vm_compute. reflexivity.
Defined.

(** X22. A socket that has a registry entry cannot join again: a valid
    [connect-to-room] is answered with "already in a room" and changes
    nothing, whatever room it names. *)
Theorem lobby_registered_socket_is_refused (w : World) (s u room : string) (user : User.t) :
  u <> ""%string -> (4 < String.length room)%nat ->
  connectedUsers w !! s = Some user ->
  step (ConnectToRoom s (Str u) (Str room)) w
  = Ok tt (mkWorld (connectedUsers w) (roomStates w) (rooms w)
             (emitted w ++ [ToSocket s "exception" (Text "already in a room")])).
Proof.
  intros Hu Hlen Hs. cbn [step]. unfold handleConnectToRoom.
  rewrite (str_truthy _ Hu), (valid_room _ Hlen). cbn [negb key].
  rewrite (bind_Ok get _ _ _ _ eq_refl), Hs.
  by rewrite bool_decide_eq_true_2 by eauto.
Qed.

Lemma lobby_registered_socket_is_refused_witness :
  step (ConnectToRoom "sa" (Str "alice") (Str "other")) LobbyScenario.seated
  = Ok tt (mkWorld (connectedUsers LobbyScenario.seated) (roomStates LobbyScenario.seated)
             (rooms LobbyScenario.seated)
             (emitted LobbyScenario.seated
                ++ [ToSocket "sa" "exception" (Text "already in a room")])).
Proof.
  apply (lobby_registered_socket_is_refused LobbyScenario.seated "sa" "alice" "other"
           (User.mk "alice" "abcde")).
  - done.
  - simpl. lia.
  - vm_compute. reflexivity.
Defined.

(** X21. The validation of the lobby.  A missing or empty username is
    answered with "something went wrong" even when the room is missing;
    so is a room of at most 4 characters; but with a username and no
    room the handler throws on [msg.room.length]. *)
Theorem lobby_join_validation (w : World) (s : string) :
  let refusal := Ok tt (mkWorld (connectedUsers w) (roomStates w) (rooms w)
                          (emitted w ++ [ToSocket s "exception"
                                           (Text "something went wrong")])) in
  (forall username room,
     truthy username = false -> handleConnectToRoom s username room w = refusal)
  /\ (forall username room,
        truthy username = true -> (String.length room <= 4)%nat ->
        handleConnectToRoom s username (Str room) w = refusal)
  /\ (forall username room,
        truthy username = true -> room = Undefined \/ room = Null ->
        handleConnectToRoom s username room w = TypeError).
Proof.
  cbv zeta. split; [| split].
  - intros username room Hu. unfold handleConnectToRoom. by rewrite Hu.
  - intros username room Hu Hlen. unfold handleConnectToRoom. rewrite Hu. cbn [negb].
    by replace (Z.of_nat (String.length room) <=? 4) with true
      by (symmetry; apply Z.leb_le; lia).
  - intros username room Hu [-> | ->]; unfold handleConnectToRoom; by rewrite Hu.
Qed.

Lemma lobby_join_validation_witness :
  handleConnectToRoom "sa" (Str "") Undefined init
  = Ok tt (mkWorld ∅ ∅ ∅ [ToSocket "sa" "exception" (Text "something went wrong")])
  /\ handleConnectToRoom "sa" (Str "alice") Undefined init = TypeError.
Proof.
  destruct (lobby_join_validation init "sa") as (H1 & _ & H3).
  split; [exact (H1 (Str "") Undefined eq_refl) |].
  exact (H3 (Str "alice") Undefined eq_refl (or_introl eq_refl)).
Defined.

(** The witness of [lobby_full_room_rejects]: carol is refused by the
    room of alice and bob. *)
Lemma lobby_full_room_rejects_witness :
  handleConnectToRoom "sc" (Str "carol") (Str "abcde") LobbyScenario.seated
  = Ok tt (mkWorld (connectedUsers LobbyScenario.seated) (roomStates LobbyScenario.seated)
             (rooms LobbyScenario.seated)
             (emitted LobbyScenario.seated ++ [ToSocket "sc" "exception" (Text "room full")])).
Proof.
  apply (LobbyFacts.lobby_full_room_rejects LobbyScenario.seated "sc" "carol" "abcde"
           ["sa"%string; "sb"%string]).
  - done.
  - simpl. lia.
  - vm_compute. reflexivity.
  - vm_compute. reflexivity.
  - simpl. lia.
Defined.

End LobbyReach.

(** ** The module with the pause flag: joins, teardown and the countdown *)

Module PausedHandlers.
Import Paused PausedFacts PausedJoin ObjFacts.

Ltac pstep :=
  first
    [ mstep
    | erewrite (bind_Ok (join _ _)) by reflexivity
    | erewrite (bind_Ok (newRoom _)) by reflexivity ];
  cbv beta.

Ltac psteps := repeat (pstep; wnorm).

Ltac paused_registry_cases w :=
  unfold registered, greeting, isReconnecting, oldSocketId;
  destruct (existsb _ (Obj.values (connectedUsers w)));
  [ destruct (List.find _ (Obj.keys (connectedUsers w))) as [id|];
    [ destruct (negb (id =? "")%string) |] |].

Lemma paused_valid_join (u room : string) :
  u <> ""%string -> (4 < String.length room)%nat ->
  negb (truthy (Str u)) || negb (truthy (Str room))
    || (Z.of_nat (String.length (key (Str room))) <=? 4) = false.
Proof.
  intros Hu Hr. rewrite (str_truthy _ Hu).
  assert (room <> ""%string) as Hne by (intros ->; simpl in Hr; lia).
  rewrite (str_truthy _ Hne). cbn [negb orb key].
  apply Z.leb_gt. lia.
Qed.

Lemma paused_startNextRound_eq (r : string) (l : nat) (rs : RoomState.t) (w : World) :
  roomStates w !! r = Some l ->
  heap w !! l = Some rs ->
  startNextRound r w
  = if RoomState.paused rs then Ok tt w
    else Ok tt (mkWorld (connectedUsers w) (roomStates w)
                  (<[l := RoomState.set_roundTimeout (Some (nextTimer w)) rs]> (heap w))
                  (nextObject w)
                  (clearTimer (RoomState.roundTimeout rs) (timers w)
                     ++ [(nextTimer w, Countdown l r 1)])
                  (S (nextTimer w)) (rooms w) (emitted w)).
Proof.
  intros Hr Hl. unfold startNextRound. mstep. rewrite Hr. mstep.
  destruct (RoomState.paused rs); [reflexivity |].
  repeat mstep. erewrite updRoom_Ok' by side. wnorm. reflexivity.
Qed.

(** A valid join of a listed room, unless it comes from the socket of the
    first seat. *)
Lemma paused_join_seats (socket u room : string) (l : nat) (rs : RoomState.t) (w : World) :
  u <> ""%string -> (4 < String.length room)%nat ->
  roomStates w !! ("room:" +:+ room) = Some l ->
  heap w !! l = Some rs ->
  (forall first, head (RoomState.connectedUsers rs) = Some first ->
                 Seat.socketId first <> socket) ->
  handleConnectToRoom socket (Str u) (Str room) w = Ok tt (seatedIn socket u room l rs w).
Proof.
  intros Hu Hlen Hr Hl Hfirst. unfold handleConnectToRoom.
  rewrite (paused_valid_join _ _ Hu Hlen). cbn [key]. psteps. rewrite Hr. psteps.
  assert (Hrest : forall (rest : M World unit),
            match RoomState.connectedUsers rs with
            | [] => rest
            | first :: _ => if (Seat.socketId first =? socket)%string then ret tt else rest
            end = rest).
  { intros rest. destruct (RoomState.connectedUsers rs) as [|first others]; [done |].
    specialize (Hfirst first eq_refl). apply String.eqb_neq in Hfirst. by rewrite Hfirst. }
  rewrite Hrest. psteps.
  unfold seatedIn, seatAdded. cbn [RoomState.connectedUsers RoomState.paused].
  paused_registry_cases w.
  all: psteps; rewrite ?Hr; psteps; rewrite ?Hr; psteps.
  all: destruct (score_falsy (RoomState.scores rs !! u));
    cbv beta iota delta [when]; psteps; rewrite ?Hr; psteps.
  all: destruct (Nat.eqb (length (RoomState.connectedUsers rs ++ _)) 2);
    cbv beta iota delta [when]; psteps.
  all: try (erewrite paused_startNextRound_eq by side; wnorm).
  all: try (destruct (RoomState.paused rs)).
  all: cbn [andb negb app]; unfold joinNotice, joinedRooms, ret; rewrite <- ?app_assoc;
    cbn [app]; rewrite ?app_nil_r; reflexivity.
Qed.

Lemma paused_get_registered (socket u room : string) (reg : list (string * User.t)) :
  Obj.get socket (registered socket u room reg) = Some (User.mk u room socket).
Proof. unfold registered. destruct (isReconnecting u room reg); apply get_set. Qed.

(** X15. A valid join of a listed room is seated unless it comes from the
    socket of the first seat (a room without seats accepts it too).  The
    joiner's score is kept when there is one other than 0; a returning
    user lifts the pause; the countdown is restarted exactly when the
    new seat is the second one and the room is not paused.  The username
    is not the name of a member inherited from [Object.prototype], for
    which the test [!scores[username]] of line 64 reads the inherited
    member. *)
Theorem paused_join_takes_seat (w : World) (socket u room : string) (l : nat)
    (rs : RoomState.t) :
  u <> ""%string -> (4 < String.length room)%nat ->
  existsb (String.eqb u) inherited = false ->
  roomStates w !! ("room:" +:+ room) = Some l ->
  heap w !! l = Some rs ->
  (forall first, head (RoomState.connectedUsers rs) = Some first ->
                 Seat.socketId first <> socket) ->
  exists w' rs',
    step (ConnectToRoom socket (Str u) (Str room)) w = Ok tt w'
    /\ roomStates w' = roomStates w
    /\ heap w' = <[l := rs']> (heap w)
    /\ Obj.get socket (connectedUsers w') = Some (User.mk u room socket)
    /\ RoomState.connectedUsers rs' = RoomState.connectedUsers rs ++ [Seat.mk u socket]
    /\ RoomState.scores rs'
       = (if score_falsy (RoomState.scores rs !! u)
          then <[u := Num 0]> (RoomState.scores rs) else RoomState.scores rs)
    /\ RoomState.round rs' = RoomState.round rs
    /\ RoomState.choices rs' = RoomState.choices rs
    /\ RoomState.paused rs'
       = (if isReconnecting u room (connectedUsers w) then false else RoomState.paused rs)
    /\ if Nat.eqb (length (RoomState.connectedUsers rs)) 1 && negb (RoomState.paused rs')
       then RoomState.roundTimeout rs' = Some (nextTimer w)
            /\ timers w' = clearTimer (RoomState.roundTimeout rs) (timers w)
                             ++ [(nextTimer w, Countdown l ("room:" +:+ room) 1)]
       else RoomState.roundTimeout rs' = RoomState.roundTimeout rs
            /\ timers w' = timers w.
Proof.
  intros Hu Hlen _ Hr Hl Hfirst. cbn [step].
  rewrite (paused_join_seats _ _ _ _ _ _ Hu Hlen Hr Hl Hfirst).
  unfold seatedIn, seatAdded. cbv zeta. cbn [RoomState.connectedUsers RoomState.paused].
  replace (length (RoomState.connectedUsers rs ++ [Seat.mk u socket]) =? 2)%nat
    with (length (RoomState.connectedUsers rs) =? 1)%nat.
  2:{ rewrite length_app. cbn [length]. rewrite Nat.add_1_r. reflexivity. }
  destruct (_ && _) eqn:E.
  - eexists; eexists. split; [reflexivity |]. split; [reflexivity |].
    split; [reflexivity |].
    cbn [roomStates heap timers connectedUsers RoomState.set_roundTimeout
         RoomState.connectedUsers RoomState.scores RoomState.round RoomState.choices
         RoomState.roundTimeout RoomState.paused].
    rewrite E. repeat split. apply paused_get_registered.
  - eexists; eexists. split; [reflexivity |]. split; [reflexivity |].
    split; [reflexivity |].
    cbn [roomStates heap timers connectedUsers
         RoomState.connectedUsers RoomState.scores RoomState.round RoomState.choices
         RoomState.roundTimeout RoomState.paused].
    rewrite E. repeat split. apply paused_get_registered.
Qed.

Lemma paused_join_takes_seat_witness :
  exists w' rs',
    step PausedScenario.rejoin PausedScenario.aliceLeft = Ok tt w'
    /\ heap w' = <[0%nat := rs']> (heap PausedScenario.aliceLeft)
    /\ RoomState.connectedUsers rs' = [Seat.mk "bob" "sb"; Seat.mk "alice" "sa2"]
    /\ RoomState.scores rs' = {[ "alice"%string := Num 1; "bob"%string := Num 0 ]}
    /\ RoomState.paused rs' = false
    /\ RoomState.roundTimeout rs' = Some 3%nat.
Proof.
  destruct (paused_join_takes_seat PausedScenario.aliceLeft "sa2" "alice" "abcde" 0
              PausedEdge.aliceLeftRoom)
    as (w' & rs' & Hs & _ & Hh & _ & Hcu & Hsc & _ & _ & Hp & Ht).
  - done.
  - simpl. lia.
  - reflexivity.
  - vm_compute. reflexivity.
  - vm_compute. reflexivity.
  - intros first [= <-]. done.
  - exists w', rs'. split; [exact Hs |]. split; [exact Hh |]. split; [exact Hcu |].
    split; [exact Hsc |].
    assert (Hp' : RoomState.paused rs' = false).
    { rewrite Hp. vm_compute. reflexivity. }
    split; [exact Hp' |]. rewrite Hp' in Ht. exact (proj1 Ht).
Defined.

(** A user who is still registered for a room that is not listed takes
    the reconnecting branch, which throws on
    [roomStates[ROOM_NAME].paused]. *)
Lemma paused_join_lost (w : World) (socket u room : string) :
  u <> ""%string -> (4 < String.length room)%nat ->
  isReconnecting u room (connectedUsers w) = true ->
  roomStates w !! ("room:" +:+ room) = None ->
  handleConnectToRoom socket (Str u) (Str room) w = TypeError.
Proof.
  intros Hu Hlen Hre Hr. unfold handleConnectToRoom.
  rewrite (paused_valid_join _ _ Hu Hlen). cbn [key]. psteps. rewrite Hr. psteps.
  unfold isReconnecting in Hre. rewrite Hre.
  destruct (List.find _ (Obj.keys (connectedUsers w))) as [id|];
    [destruct (negb (id =? "")%string) |].
  all: psteps; rewrite Hr; reflexivity.
Qed.

Lemma paused_join_opens (socket u room : string) (w : World) :
  u <> ""%string -> (4 < String.length room)%nat ->
  isReconnecting u room (connectedUsers w) = false ->
  roomStates w !! ("room:" +:+ room) = None ->
  handleConnectToRoom socket (Str u) (Str room) w = Ok tt (opened socket u room w).
Proof.
  intros Hu Hlen Hre Hr. unfold handleConnectToRoom.
  rewrite (paused_valid_join _ _ Hu Hlen). cbn [key]. psteps. rewrite Hr. psteps.
  unfold isReconnecting in Hre. rewrite Hre. psteps. rewrite ?Hr. psteps.
  rewrite ?lookup_insert_eq. psteps. unfold opened, joinNotice, joinedRooms.
  rewrite <- ?app_assoc. reflexivity.
Qed.

Lemma paused_join_again (socket u room : string) (l : nat) (rs : RoomState.t)
    (first : Seat.t) (others : list Seat.t) (w : World) :
  u <> ""%string -> (4 < String.length room)%nat ->
  roomStates w !! ("room:" +:+ room) = Some l ->
  heap w !! l = Some rs ->
  RoomState.connectedUsers rs = first :: others ->
  Seat.socketId first = socket ->
  handleConnectToRoom socket (Str u) (Str room) w
  = Ok tt (set_rooms (joinedRooms socket ("room:" +:+ room)) w).
Proof.
  intros Hu Hlen Hr Hl Hcu He. unfold handleConnectToRoom.
  rewrite (paused_valid_join _ _ Hu Hlen). cbn [key]. psteps. rewrite Hr. psteps. rewrite Hcu.
  apply String.eqb_eq in He. rewrite He. reflexivity.
Qed.

Lemma paused_join_refused (socket : string) (username room : value) (w : World) :
  truthy username = false \/ truthy room = false
    \/ (String.length (key room) <= 4)%nat ->
  handleConnectToRoom socket username room w
  = Ok tt (mkWorld (connectedUsers w) (roomStates w) (heap w) (nextObject w) (timers w)
             (nextTimer w) (rooms w)
             (emitted w ++ [ToSocket socket "exception" (Text "invalid room or username")])).
Proof.
  intros H. unfold handleConnectToRoom.
  replace (negb (truthy username) || negb (truthy room)
           || (Z.of_nat (String.length (key room)) <=? 4)) with true; [reflexivity |].
  symmetry. rewrite !orb_true_iff, !negb_true_iff, Z.leb_le.
  destruct H as [H | [H | H]]; auto. right. lia.
Qed.

Lemma forEach_modify {A} (f : A -> World -> World) (l : list A) (w : World) :
  forEach l (fun x => modify (f x)) w = Ok tt (fold_left (fun w x => f x w) l w).
Proof.
  revert w. induction l as [|x l IH]; intros w; cbn [forEach fold_left]; [reflexivity |].
  rewrite (bind_Ok (modify (f x)) _ _ _ _ eq_refl). apply IH.
Qed.

Lemma unregistered_fold (seats : list Seat.t) (w : World) :
  fold_left (fun w user => set_connectedUsers (Obj.del (Seat.socketId user)) w) seats w
  = set_connectedUsers (unregistered seats) w.
Proof.
  unfold unregistered. revert w. induction seats as [|s seats IH]; intros w; cbn [fold_left].
  - by destruct w.
  - rewrite IH. reflexivity.
Qed.

Lemma get_unregistered (k : string) (seats : list Seat.t) (reg : list (string * User.t)) :
  Obj.get k (unregistered seats reg)
  = if existsb (fun user => String.eqb k (Seat.socketId user)) seats then None
    else Obj.get k reg.
Proof.
  unfold unregistered. revert reg. induction seats as [|s seats IH]; intros reg;
    cbn [fold_left existsb]; [done |].
  rewrite IH, get_del. destruct (k =? Seat.socketId s)%string; cbn [orb]; [| done].
  by destruct (existsb _ seats).
Qed.

(** X17. Teardown in this version also forgets the players: besides
    unlisting the room and clearing its countdown, [cleanupGame] deletes
    the registry entry of every socket that holds a seat, and of no other
    socket. *)
Theorem paused_teardown_unregisters_seats (w : World) (r : string) (l : nat)
    (rs : RoomState.t) :
  roomStates w !! r = Some l ->
  heap w !! l = Some rs ->
  exists w',
    cleanupGame r w = Ok tt w'
    /\ roomStates w' = delete r (roomStates w)
    /\ heap w' = heap w
    /\ timers w' = clearTimer (RoomState.roundTimeout rs) (timers w)
    /\ emitted w' = emitted w
    /\ forall k,
         Obj.get k (connectedUsers w')
         = if existsb (fun user => String.eqb k (Seat.socketId user))
                      (RoomState.connectedUsers rs)
           then None else Obj.get k (connectedUsers w).
Proof.
  intros Hr Hl. unfold cleanupGame. mstep. rewrite Hr. repeat mstep.
  erewrite bind_Ok by apply forEach_modify. rewrite unregistered_fold.
  eexists. split; [reflexivity |]. wnorm. repeat split. intros k. apply get_unregistered.
Qed.

Lemma paused_teardown_unregisters_seats_witness :
  exists w',
    cleanupGame PausedScenario.room PausedScenario.bobLeft = Ok tt w'
    /\ roomStates w' = delete PausedScenario.room (roomStates PausedScenario.bobLeft)
    /\ Obj.get "sa" (connectedUsers w') = None
    /\ Obj.get "sb" (connectedUsers w') = Some (User.mk "bob" "abcde" "sb").
Proof.
  destruct (paused_teardown_unregisters_seats PausedScenario.bobLeft PausedScenario.room 0
              PausedEdge.bobLeftRoom)
    as (w' & Hs & Hrooms & _ & _ & _ & Hreg).
  - vm_compute. reflexivity.
  - vm_compute. reflexivity.
  - exists w'. split; [exact Hs |]. split; [exact Hrooms |].
    split; rewrite Hreg; vm_compute; reflexivity.
Defined.

(** X19. The disconnect of a registered socket that joined one room:
    the room is paused and its countdown cleared before the grace timer
    starts, every seat under the user's name is removed, and one grace
    timer is started, for the room only; the room named by the socket's
    own id just gets its disconnect broadcast. *)
Theorem paused_disconnect_pauses_room (w : World) (socket R : string) (user : User.t)
    (l : nat) (rs : RoomState.t) :
  Obj.get socket (connectedUsers w) = Some user ->
  rooms w !! socket = Some [R] ->
  roomStates w !! socket = None ->
  roomStates w !! R = Some l ->
  heap w !! l = Some rs ->
  let u := User.username user in
  handleDisconnecting socket w
  = Ok tt
      (mkWorld (connectedUsers w) (roomStates w)
         (<[l := RoomState.mk
                   (List.filter (fun seat => negb (Seat.username seat =? u)%string)
                                (RoomState.connectedUsers rs))
                   (RoomState.scores rs) (RoomState.round rs) (RoomState.choices rs)
                   (RoomState.roundTimeout rs) true]> (heap w))
         (nextObject w)
         (clearTimer (RoomState.roundTimeout rs) (timers w)
            ++ [(nextTimer w, GraceExpiry u R)])
         (S (nextTimer w)) (rooms w)
         (emitted w
            ++ [ToRoom socket "room-event:disconnect"
                  (Text (u +:+ " disconnected from " +:+ socket));
                ToRoom R "room-event:disconnect"
                  (Text (u +:+ " disconnected from " +:+ R))])).
Proof.
  intros Hu Hrooms Hown Hr Hl u. unfold handleDisconnecting. mstep.
  unfold socket_rooms. rewrite Hrooms. cbn [default from_option id forEach].
  erewrite bind_Ok.
  2:{ unfold disconnectingFrom. mstep. rewrite Hu, Hown. repeat mstep. reflexivity. }
  erewrite bind_Ok.
  2:{ by apply (disconnectingFrom_clears_countdown _ socket R user l rs). }
  unfold ret. cbn [connectedUsers roomStates heap nextObject timers nextTimer rooms emitted].
  by rewrite <- app_assoc.
Qed.

Lemma paused_disconnect_pauses_room_witness :
  handleDisconnecting "sb" PausedScenario.seated
  = Ok tt
      (mkWorld (connectedUsers PausedScenario.seated) (roomStates PausedScenario.seated)
         (<[0%nat := RoomState.mk
                   (List.filter (fun seat => negb (Seat.username seat =? "bob")%string)
                                (RoomState.connectedUsers PausedEdge.seatedRoom))
                   (RoomState.scores PausedEdge.seatedRoom)
                   (RoomState.round PausedEdge.seatedRoom)
                   (RoomState.choices PausedEdge.seatedRoom)
                   (RoomState.roundTimeout PausedEdge.seatedRoom) true]>
            (heap PausedScenario.seated))
         (nextObject PausedScenario.seated)
         (clearTimer (RoomState.roundTimeout PausedEdge.seatedRoom)
                     (timers PausedScenario.seated)
            ++ [(nextTimer PausedScenario.seated, GraceExpiry "bob" PausedScenario.room)])
         (S (nextTimer PausedScenario.seated)) (rooms PausedScenario.seated)
         (emitted PausedScenario.seated
            ++ [ToRoom "sb" "room-event:disconnect"
                  (Text ("bob" +:+ " disconnected from " +:+ "sb"));
                ToRoom PausedScenario.room "room-event:disconnect"
                  (Text ("bob" +:+ " disconnected from " +:+ PausedScenario.room))])).
Proof.
  apply (paused_disconnect_pauses_room PausedScenario.seated "sb" PausedScenario.room
           (User.mk "bob" "abcde" "sb") 0 PausedEdge.seatedRoom).
  - vm_compute. reflexivity.
  - vm_compute. reflexivity.
  - vm_compute. reflexivity.
  - vm_compute. reflexivity.
  - vm_compute. reflexivity.
Defined.

End PausedHandlers.

(** ** The module with the pause flag: closed forms of a round *)

Module PausedRoundFacts.
Import Paused PausedFacts PausedJoin PausedRound ObjFacts PausedHandlers.

Lemma paused_cleanupGame_eq (r : string) (l : nat) (rs : RoomState.t) (w : World) :
  roomStates w !! r = Some l ->
  heap w !! l = Some rs ->
  cleanupGame r w
  = Ok tt (mkWorld (unregistered (RoomState.connectedUsers rs) (connectedUsers w))
             (delete r (roomStates w)) (heap w) (nextObject w)
             (clearTimer (RoomState.roundTimeout rs) (timers w)) (nextTimer w) (rooms w)
             (emitted w)).
Proof.
  intros Hr Hl. unfold cleanupGame. mstep. rewrite Hr. repeat mstep.
  erewrite bind_Ok by apply forEach_modify. rewrite unregistered_fold. reflexivity.
Qed.

Lemma paused_processRound_eq (r : string) (l : nat) (rs : RoomState.t) (w : World) :
  roomStates w !! r = Some l ->
  heap w !! l = Some rs ->
  processRound l r w = Ok tt (roundOutcome r l rs w).
Proof.
  intros Hr Hl.
  unfold processRound, roundOutcome, resolved, announced, roundResult, GameRound.roundWinner.
  mstep. set (p1 := playerAt 0 rs). set (p2 := playerAt 1 rs).
  destruct (determineRoundWinner _ _); unfold GameRound.scoresAfter, GameRound.bump;
    repeat mstep; wnorm.
  all: match goal with
       | |- (if ?c then _ else _) _ = _ => destruct c
       end.
  all: repeat mstep.
  all: first [ erewrite paused_cleanupGame_eq by side
             | erewrite paused_startNextRound_eq by side ].
  all: wnorm; try (destruct (RoomState.paused rs)); wnorm; rewrite <- ?app_assoc; reflexivity.
Qed.

Lemma paused_set_heap_same (l : nat) (rs : RoomState.t) (w : World) :
  heap w !! l = Some rs -> set_heap (<[l := rs]>) w = w.
Proof.
  destruct w. simpl. intros H. unfold set_heap. simpl. f_equal. by apply insert_id.
Qed.

Lemma paused_handlePlayerChoice_eq (socket : option string) (u c : value) (r : string)
    (l : nat) (rs : RoomState.t) (w : World) :
  roomStates w !! r = Some l ->
  heap w !! l = Some rs ->
  socket = None \/ validChoice c = true ->
  handlePlayerChoice socket u r c w = Ok tt (submitted u c r l rs w).
Proof.
  intros Hr Hl Hv. unfold handlePlayerChoice, submitted, recorded. mstep. rewrite Hr.
  replace (bool_decide (is_Some (Some l))) with true
    by (symmetry; by apply bool_decide_eq_true).
  cbn [negb orb].
  assert (Hrest :
    (when (truthy u) (updRoom l (RoomState.set_choices <[key u:=c]>));;
     let! rs0 := readRoom l in
     when (size (RoomState.choices rs0) =? 2)%nat (processRound l r)) w
    = Ok tt (let rs1 := if truthy u then RoomState.set_choices <[key u:=c]> rs else rs in
             let w1 := set_heap <[l:=rs1]> w in
             if (size (RoomState.choices rs1) =? 2)%nat then roundOutcome r l rs1 w1
             else w1)).
  { destruct (truthy u); repeat mstep; cbv zeta.
    - destruct (size _ =? 2)%nat; unfold when; [| reflexivity].
      by erewrite paused_processRound_eq by side.
    - rewrite (paused_set_heap_same _ _ _ Hl).
      destruct (size _ =? 2)%nat; unfold when; [| reflexivity].
      by erewrite paused_processRound_eq by side. }
  destruct Hv as [-> | ->].
  - destruct (negb (validChoice c)); exact Hrest.
  - exact Hrest.
Qed.

Lemma paused_choice_refused (socket : string) (u c : value) (r : string) (w : World) :
  (roomStates w !! r = None /\ existsb (String.eqb r) inherited = false)
  \/ validChoice c = false ->
  handlePlayerChoice (Some socket) u r c w
  = Ok tt (mkWorld (connectedUsers w) (roomStates w) (heap w) (nextObject w) (timers w)
             (nextTimer w) (rooms w)
             (emitted w ++ [ToSocket socket "exception" (Text "invalid choice or room")])).
Proof.
  intros H. unfold handlePlayerChoice. mstep. cbv zeta.
  replace (negb (bool_decide (is_Some (roomStates w !! r))
                 || existsb (String.eqb r) inherited)
           || negb (validChoice c))
    with true; [reflexivity |].
  symmetry. apply orb_true_iff. destruct H as [[-> ->] | ->]; [left | right]; [| done].
  rewrite bool_decide_eq_false_2; [done |]. by intros [? ?].
Qed.

(** A valid choice for a name that [roomStates] only inherits passes the
    validation and dereferences the missing [choices]. *)
Lemma paused_choice_throws (socket : option string) (u c : value) (r : string) (w : World) :
  roomStates w !! r = None ->
  existsb (String.eqb r) inherited = true ->
  validChoice c = true ->
  handlePlayerChoice socket u r c w = TypeError.
Proof.
  intros Hr Hi Hc. unfold handlePlayerChoice. mstep. cbv zeta.
  rewrite Hr, Hi, Hc, orb_true_r. reflexivity.
Qed.

Lemma countdown_eq (t l : nat) (R : string) (n : Z) (rs : RoomState.t) (w : World) :
  roomStates w !! R = Some l ->
  heap w !! l = Some rs ->
  countdown t l R n w = Ok tt (if RoomState.paused rs then w else tick t l R n rs w).
Proof.
  intros Hr Hl. unfold countdown, tick. mstep.
  destruct (RoomState.paused rs); [reflexivity |]. repeat mstep. wnorm.
  destruct (n - 1 <=? 0); cbv beta iota delta [when]; [| reflexivity].
  repeat mstep. unfold withDefaults, withChoices.
  set (p1 := playerAt 0 rs). set (p2 := playerAt 1 rs).
  destruct (truthy (prop (RoomState.choices rs) p1)) eqn:E1; cbn [negb]; repeat mstep.
  - destruct (truthy (prop (RoomState.choices rs) p2)) eqn:E2; cbn [negb]; repeat mstep.
    + erewrite paused_handlePlayerChoice_eq by (side || by left).
      unfold submitted, recorded. cbn [truthy]. wnorm.
      replace (RoomState.mk (RoomState.connectedUsers rs) (RoomState.scores rs)
                 (RoomState.round rs) (RoomState.choices rs) (RoomState.roundTimeout rs)
                 (RoomState.paused rs)) with rs by (by destruct rs).
      rewrite (insert_id (heap w) l rs Hl). reflexivity.
    + erewrite paused_handlePlayerChoice_eq by (side || by left).
      unfold submitted, recorded. cbn [truthy]. wnorm. reflexivity.
  - cbn [RoomState.set_choices RoomState.choices].
    destruct (truthy (prop (<[key p1:=Str "rock"]> (RoomState.choices rs)) p2)) eqn:E2;
      cbn [negb]; repeat mstep.
    + erewrite paused_handlePlayerChoice_eq by (side || by left).
      unfold submitted, recorded. cbn [truthy]. wnorm. reflexivity.
    + erewrite paused_handlePlayerChoice_eq by (side || by left).
      unfold submitted, recorded. cbn [truthy]. wnorm. reflexivity.
Qed.

Lemma paused_graceExpiry_eq (w : World) (username room : string) (l : nat)
    (rs : RoomState.t) :
  roomStates w !! room = Some l ->
  heap w !! l = Some rs ->
  graceExpiry username room w
  = Ok tt (if seatedAs username rs then w else expired username room rs w).
Proof.
  intros Hr Hl. unfold graceExpiry, expired. mstep. rewrite Hr. cbn [from_option].
  rewrite Hl. unfold seatedAs.
  destruct (existsb _ (RoomState.connectedUsers rs)); [reflexivity |].
  cbn [negb]. repeat mstep. unfold forfeit.
  destruct (RoomState.connectedUsers rs) as [|first rest] eqn:Hcu; repeat mstep.
  all: erewrite !paused_cleanupGame_eq by side.
  all: wnorm; rewrite ?Hcu, ?app_nil_r; reflexivity.
Qed.

Lemma paused_graceExpiry_absent (w : World) (username room : string) :
  roomStates w !! room = None ->
  graceExpiry username room w = Ok tt (set_connectedUsers (purge username) w).
Proof.
  intros Hr. unfold graceExpiry. mstep. rewrite Hr. cbn [from_option negb].
  repeat mstep. reflexivity.
Qed.

End PausedRoundFacts.

(** ** The module with the pause flag: well-formed worlds *)

Module PausedInvFacts.
Import Paused PausedFacts PausedJoin PausedRound PausedWf GameInvFacts.

Lemma paused_init_wf : wf init.
Proof.
  split; simpl; try done.
  all: try apply NoDup_nil_2.
  all: try (intros l [rs Hl]; by rewrite lookup_empty in Hl).
  all: try (intros l rs t Hl; by rewrite lookup_empty in Hl).
Qed.

Section PausedFrames.
Variables w w' : World.
Hypothesis Hwf : wf w.

(** The registry, [socket.rooms] and the emissions do not matter. *)
Lemma paused_wf_frame :
  roomStates w' = roomStates w -> heap w' = heap w -> nextObject w' = nextObject w ->
  timers w' = timers w -> nextTimer w' = nextTimer w ->
  evolves w w'.
Proof.
  intros Er Eh Eo Et En. destruct Hwf. split; [split |]; rewrite ?Er, ?Eh, ?Eo, ?Et, ?En; auto.
Qed.


(** Replacing a room state by one with the same timer handle that is not
    newly paused. *)
Lemma paused_wf_update (l : nat) (rs rs' : RoomState.t) :
  heap w !! l = Some rs ->
  RoomState.roundTimeout rs' = RoomState.roundTimeout rs ->
  (RoomState.paused rs = false -> RoomState.paused rs' = false) ->
  roomStates w' = roomStates w -> heap w' = <[l := rs']> (heap w) ->
  nextObject w' = nextObject w -> timers w' = timers w -> nextTimer w' = nextTimer w ->
  evolves w w'.
Proof.
  intros Hl Ht Hp Er Eh Eo Et En. destruct Hwf.
  split; [split |]; rewrite ?Er, ?Eh, ?Eo, ?Et, ?En; auto.
  - intros r l0 Hr. destruct (decide (l = l0)) as [->|Hne].
    + rewrite lookup_insert_eq. eauto.
    + rewrite lookup_insert_ne by done. eauto.
  - intros l0. destruct (decide (l = l0)) as [->|Hne].
    + intros _. apply wf_alloc0. eauto.
    + rewrite lookup_insert_ne by done. auto.
  - intros t l0 r n Hin. destruct (wf_round0 _ _ _ _ Hin) as (Hr & rs0 & Hl0 & Ht0 & Hp0).
    split; [done |]. destruct (decide (l = l0)) as [->|Hne].
    + rewrite lookup_insert_eq. exists rs'. split; [done |].
      split; [congruence |]. apply Hp. congruence.
    + rewrite lookup_insert_ne by done. eauto.
  - intros l0 rs0 t. destruct (decide (l = l0)) as [->|Hne].
    + rewrite lookup_insert_eq. intros [= <-] Ht0. apply (wf_stored0 l0 rs); congruence.
    + rewrite lookup_insert_ne by done. apply wf_stored0.
Qed.

(** Tearing a room down: its timer is cancelled and its name removed. *)
Lemma paused_wf_teardown (r : string) (l : nat) (rs : RoomState.t) :
  roomStates w !! r = Some l -> heap w !! l = Some rs ->
  roomStates w' = delete r (roomStates w) -> heap w' = heap w ->
  nextObject w' = nextObject w ->
  timers w' = clearTimer (RoomState.roundTimeout rs) (timers w) ->
  nextTimer w' = nextTimer w ->
  evolves w w'.
Proof.
  intros Hr Hl Er Eh Eo Et En. destruct Hwf.
  split; [split |]; rewrite ?Er, ?Eh, ?Eo, ?Et, ?En; auto.
  - intros r0 l0 H0. apply lookup_delete_Some in H0 as [_ H0]. eauto.
  - intros t cb Hin. apply clearTimer_In in Hin as [Hin _]. eauto.
  - by apply clearTimer_NoDup.
  - intros t l0 r0 n Hin. apply clearTimer_In in Hin as [Hin Hne]. simpl in Hne.
    destruct (wf_round0 _ _ _ _ Hin) as (Hr0 & rs0 & Hl0 & Ht0 & Hp0).
    split; [| eauto]. apply lookup_delete_Some. split; [| done].
    intros <-. assert (l0 = l) as -> by congruence. congruence.
  - intros l0 rs0 t Hl0 Ht0. destruct (wf_stored0 _ _ _ Hl0 Ht0) as [Hlt Hno].
    split; [done |]. intros u room Hin. apply clearTimer_In in Hin as [Hin _].
    by apply (Hno u room).
  - intros t u room Hin. apply clearTimer_In. split; [done |]. simpl.
    intros Ht. by apply (proj2 (wf_stored0 _ _ _ Hl Ht) u room).
Qed.

(** Starting a round: the old timer of the room is replaced. *)
Lemma paused_wf_restart (r : string) (l : nat) (rs rs' : RoomState.t) :
  roomStates w !! r = Some l -> heap w !! l = Some rs ->
  RoomState.roundTimeout rs' = Some (nextTimer w) ->
  RoomState.paused rs' = false ->
  roomStates w' = roomStates w -> heap w' = <[l := rs']> (heap w) ->
  nextObject w' = nextObject w ->
  timers w' = clearTimer (RoomState.roundTimeout rs) (timers w)
                ++ [(nextTimer w, Countdown l r 1)] ->
  nextTimer w' = S (nextTimer w) ->
  evolves w w'.
Proof.
  intros Hr Hl Ht Hp Er Eh Eo Et En. destruct Hwf.
  split; [split |]; rewrite ?Er, ?Eh, ?Eo, ?Et, ?En; auto.
  - intros r0 l0 H0. destruct (decide (l = l0)) as [->|Hne].
    + rewrite lookup_insert_eq. eauto.
    + rewrite lookup_insert_ne by done. eauto.
  - intros l0. destruct (decide (l = l0)) as [->|Hne].
    + intros _. apply wf_alloc0. eauto.
    + rewrite lookup_insert_ne by done. auto.
  - intros t cb Hin. apply in_app_iff in Hin as [Hin | [[= <- <-] | []]]; [| lia].
    apply clearTimer_In in Hin as [Hin _]. apply wf_handles0 in Hin. lia.
  - rewrite map_app. apply NoDup_app. split; [by apply clearTimer_NoDup |]. split.
    + intros t Hin ->%list_elem_of_singleton.
      apply list_elem_of_In, in_map_iff in Hin as ([t cb] & Ht' & Hin).
      apply clearTimer_In in Hin as [Hin _]. apply wf_handles0 in Hin. simpl in *. lia.
    + apply NoDup_singleton.
  - intros t l0 r0 n Hin. apply in_app_iff in Hin as [Hin | [[= <- <- <- <-] | []]].
    + apply clearTimer_In in Hin as [Hin Hne]. simpl in Hne.
      destruct (wf_round0 _ _ _ _ Hin) as (Hr0 & rs0 & Hl0 & Ht0 & Hp0).
      split; [done |]. destruct (decide (l = l0)) as [->|Hne'].
      * congruence.
      * rewrite lookup_insert_ne by done. eauto.
    + split; [done |]. rewrite lookup_insert_eq. eauto.
  - intros l0 rs0 t H0 Ht0. assert ((t < S (nextTimer w))%nat
      /\ forall u room, (t, GraceExpiry u room) <> (nextTimer w, Countdown l r 1)) as [Hlt _].
    { split; [| done]. destruct (decide (l = l0)) as [->|Hne].
      - rewrite lookup_insert_eq in H0. injection H0 as <-. rewrite Ht in Ht0.
        injection Ht0 as <-. lia.
      - rewrite lookup_insert_ne in H0 by done.
        destruct (wf_stored0 _ _ _ H0 Ht0). lia. }
    split; [done |]. intros u room Hin.
    apply in_app_iff in Hin as [Hin | [[=] | []]].
    apply clearTimer_In in Hin as [Hin _].
    destruct (decide (l = l0)) as [->|Hne].
    + rewrite lookup_insert_eq in H0. injection H0 as <-. rewrite Ht in Ht0.
      injection Ht0 as <-. apply wf_handles0 in Hin. lia.
    + rewrite lookup_insert_ne in H0 by done.
      by apply (proj2 (wf_stored0 _ _ _ H0 Ht0) u room).
  - intros t u room Hin. apply in_app_iff. left. apply clearTimer_In. split; [done |]. simpl.
    intros Ht'. by apply (proj2 (wf_stored0 _ _ _ Hl Ht') u room).
Qed.

(** Starting a grace timer. *)
Lemma paused_wf_grace (username room : string) :
  roomStates w' = roomStates w -> heap w' = heap w -> nextObject w' = nextObject w ->
  timers w' = timers w ++ [(nextTimer w, GraceExpiry username room)] ->
  nextTimer w' = S (nextTimer w) ->
  evolves w w'.
Proof.
  intros Er Eh Eo Et En. destruct Hwf.
  split; [split |]; rewrite ?Er, ?Eh, ?Eo, ?Et, ?En; auto.
  - intros t cb Hin. apply in_app_iff in Hin as [Hin | [[= <- <-] | []]]; [| lia].
    apply wf_handles0 in Hin. lia.
  - rewrite map_app. apply NoDup_app. split; [done |]. split.
    + intros t Hin ->%list_elem_of_singleton.
      apply list_elem_of_In, in_map_iff in Hin as ([t cb] & Ht' & Hin).
      apply wf_handles0 in Hin. simpl in *. lia.
    + apply NoDup_singleton.
  - intros t l0 r0 n Hin. apply in_app_iff in Hin as [Hin | [[=] | []]]. eauto.
  - intros l0 rs0 t H0 Ht0. destruct (wf_stored0 _ _ _ H0 Ht0) as [Hlt Hno].
    split; [lia |]. intros u room' Hin.
    apply in_app_iff in Hin as [Hin | [[= E _ _] | []]]; [by apply (Hno u room') | lia].
  - intros t u room' Hin. apply in_app_iff. by left.
Qed.

(** Allocating the state of a room that is not listed. *)
Lemma paused_wf_open (r : string) (rs : RoomState.t) :
  roomStates w !! r = None -> RoomState.roundTimeout rs = None ->
  roomStates w' = <[r := nextObject w]> (roomStates w) ->
  heap w' = <[nextObject w := rs]> (heap w) ->
  nextObject w' = S (nextObject w) -> timers w' = timers w -> nextTimer w' = nextTimer w ->
  evolves w w'.
Proof.
  intros Hr Ht Er Eh Eo Et En. destruct Hwf.
  assert (Hfresh : heap w !! nextObject w = None).
  { destruct (heap w !! nextObject w) eqn:E; [| done].
    assert (nextObject w < nextObject w)%nat by eauto. lia. }
  split; [split |]; rewrite ?Er, ?Eh, ?Eo, ?Et, ?En; auto.
  - intros r0 l0 H0. destruct (decide (r = r0)) as [->|Hne].
    + rewrite lookup_insert_eq in H0. injection H0 as <-. rewrite lookup_insert_eq. eauto.
    + rewrite lookup_insert_ne in H0 by done.
      destruct (decide (nextObject w = l0)) as [<-|Hne'].
      * rewrite lookup_insert_eq. eauto.
      * rewrite lookup_insert_ne by done. eauto.
  - intros l0. destruct (decide (nextObject w = l0)) as [<-|Hne].
    + intros _. lia.
    + rewrite lookup_insert_ne by done. intros H0. apply wf_alloc0 in H0. lia.
  - intros t l0 r0 n Hin. destruct (wf_round0 _ _ _ _ Hin) as (Hr0 & rs0 & Hl0 & Ht0 & Hp0).
    split.
    + rewrite lookup_insert_ne by congruence. done.
    + rewrite lookup_insert_ne by congruence. eauto.
  - intros l0 rs0 t. destruct (decide (nextObject w = l0)) as [<-|Hne].
    + rewrite lookup_insert_eq. intros [= <-]. congruence.
    + rewrite lookup_insert_ne by done. apply wf_stored0.
Qed.

End PausedFrames.

Section PausedTimers.
Variables w w' : World.
Hypothesis Hwf : wf w.

(** Clearing the interval a room holds. *)
Lemma paused_wf_cancel (l : nat) (rs : RoomState.t) :
  heap w !! l = Some rs ->
  roomStates w' = roomStates w -> heap w' = heap w -> nextObject w' = nextObject w ->
  timers w' = clearTimer (RoomState.roundTimeout rs) (timers w) ->
  nextTimer w' = nextTimer w ->
  evolves w w'.
Proof.
  intros Hl Er Eh Eo Et En. destruct Hwf.
  split; [split |]; rewrite ?Er, ?Eh, ?Eo, ?Et, ?En; auto.
  - intros t cb Hin. apply clearTimer_In in Hin as [Hin _]. eauto.
  - by apply clearTimer_NoDup.
  - intros t l0 r0 n Hin. apply clearTimer_In in Hin as [Hin _]. eauto.
  - intros l0 rs0 t Hl0 Ht0. destruct (wf_stored0 _ _ _ Hl0 Ht0) as [Hlt Hno].
    split; [done |]. intros u room Hin. apply clearTimer_In in Hin as [Hin _].
    by apply (Hno u room).
  - intros t u room Hin. apply clearTimer_In. split; [done |]. simpl.
    intros Ht. by apply (proj2 (wf_stored0 _ _ _ Hl Ht) u room).
Qed.

(** Pausing a room and clearing the interval it holds. *)
Lemma paused_wf_pause (l : nat) (rs rs' : RoomState.t) :
  heap w !! l = Some rs ->
  RoomState.roundTimeout rs' = RoomState.roundTimeout rs ->
  roomStates w' = roomStates w -> heap w' = <[l := rs']> (heap w) ->
  nextObject w' = nextObject w ->
  timers w' = clearTimer (RoomState.roundTimeout rs) (timers w) ->
  nextTimer w' = nextTimer w ->
  evolves w w'.
Proof.
  intros Hl Ht Er Eh Eo Et En. destruct Hwf.
  split; [split |]; rewrite ?Er, ?Eh, ?Eo, ?Et, ?En; auto.
  - intros r l0 Hr. destruct (decide (l = l0)) as [->|Hne].
    + rewrite lookup_insert_eq. eauto.
    + rewrite lookup_insert_ne by done. eauto.
  - intros l0. destruct (decide (l = l0)) as [->|Hne].
    + intros _. apply wf_alloc0. eauto.
    + rewrite lookup_insert_ne by done. auto.
  - intros t cb Hin. apply clearTimer_In in Hin as [Hin _]. eauto.
  - by apply clearTimer_NoDup.
  - intros t l0 r0 n Hin. apply clearTimer_In in Hin as [Hin Hne]. simpl in Hne.
    destruct (wf_round0 _ _ _ _ Hin) as (Hr0 & rs0 & Hl0 & Ht0 & Hp0).
    split; [done |]. destruct (decide (l = l0)) as [->|Hne'].
    + congruence.
    + rewrite lookup_insert_ne by done. eauto.
  - intros l0 rs0 t H0 Ht0.
    assert (exists rs1, heap w !! l0 = Some rs1 /\ RoomState.roundTimeout rs1 = Some t)
      as (rs1 & Hl1 & Ht1).
    { destruct (decide (l = l0)) as [->|Hne].
      - rewrite lookup_insert_eq in H0. injection H0 as <-. exists rs. split; congruence.
      - rewrite lookup_insert_ne in H0 by done. eauto. }
    destruct (wf_stored0 _ _ _ Hl1 Ht1) as [Hlt Hno].
    split; [done |]. intros u room Hin. apply clearTimer_In in Hin as [Hin _].
    by apply (Hno u room).
  - intros t u room Hin. apply clearTimer_In. split; [done |]. simpl.
    intros Ht'. by apply (proj2 (wf_stored0 _ _ _ Hl Ht') u room).
Qed.

(** Writing the remaining time back to a pending countdown. *)
Lemma paused_wf_ticked (t l : nat) (R : string) (n n' : Z) :
  In (t, Countdown l R n) (timers w) ->
  roomStates w' = roomStates w -> heap w' = heap w -> nextObject w' = nextObject w ->
  timers w' = ticked t l R n' (timers w) ->
  nextTimer w' = nextTimer w ->
  evolves w w'.
Proof.
  intros Hin Er Eh Eo Et En. destruct Hwf.
  assert (Hold : forall t0 cb0, In (t0, cb0) (ticked t l R n' (timers w)) ->
            In (t0, cb0) (timers w) \/ (t0 = t /\ cb0 = Countdown l R n')).
  { intros t0 cb0 H0. unfold ticked in H0. apply in_map_iff in H0 as ([t1 cb1] & E & H1).
    cbn [fst] in E. destruct (Nat.eqb t1 t).
    - right. by injection E as <- <-.
    - left. by injection E as <- <-. }
  assert (Hfst : map fst (ticked t l R n' (timers w)) = map fst (timers w)).
  { unfold ticked. rewrite map_map. apply map_ext_in. intros [t1 cb1] _. cbn [fst].
    destruct (Nat.eqb_spec t1 t); [by subst | done]. }
  split; [split |]; rewrite ?Er, ?Eh, ?Eo, ?Et, ?En; auto.
  - intros t0 cb0 H0. destruct (Hold _ _ H0) as [H1 | [-> _]]; eauto.
  - by rewrite Hfst.
  - intros t0 l0 r0 n0 H0. destruct (Hold _ _ H0) as [H1 | [-> [= -> -> ->]]]; eauto.
  - intros l0 rs0 t0 Hl0 Ht0. destruct (wf_stored0 _ _ _ Hl0 Ht0) as [Hlt Hno].
    split; [done |]. intros u room H0. destruct (Hold _ _ H0) as [H1 | [_ [=]]].
    by apply (Hno u room).
  - intros t0 u room H0. unfold ticked. apply in_map_iff.
    exists (t0, GraceExpiry u room). split; [| done]. cbn [fst].
    destruct (Nat.eqb_spec t0 t) as [->|]; [| done].
    exfalso. pose proof (In_pending _ _ _ wf_distinct0 Hin) as E1.
    pose proof (In_pending _ _ _ wf_distinct0 H0) as E2. congruence.
Qed.

End PausedTimers.

Lemma paused_evolves_refl (w : World) : wf w -> evolves w w.
Proof. intros H. by split. Qed.

Lemma paused_evolves_trans (w1 w2 w3 : World) : evolves w1 w2 -> evolves w2 w3 -> evolves w1 w3.
Proof. intros [_ H12] [H3 H23]. split; auto. Qed.

End PausedInvFacts.

Module PausedStepFacts.
Import Paused PausedFacts PausedJoin PausedRound PausedWf.
Import GameInvFacts PausedHandlers PausedRoundFacts PausedInvFacts.

Lemma paused_roundOutcome_evolves (r : string) (l : nat) (rs : RoomState.t) (w : World) :
  wf w -> roomStates w !! r = Some l -> heap w !! l = Some rs ->
  evolves w (roundOutcome r l rs w).
Proof.
  intros Hwf Hr Hl. unfold roundOutcome. cbv zeta.
  assert (H1 : evolves w (set_heap (<[l := resolved rs]>) w)).
  { by apply (paused_wf_update _ _ Hwf l rs (resolved rs)). }
  destruct (is5 _ || is5 _).
  - eapply paused_evolves_trans; [exact H1 |].
    apply (paused_wf_teardown _ _ (proj1 H1) r l (resolved rs)); try done.
    cbn. apply lookup_insert_eq.
  - destruct (RoomState.paused rs) eqn:Hp.
    + eapply paused_evolves_trans; [exact H1 |]. apply paused_wf_frame; try done.
      exact (proj1 H1).
    + apply (paused_wf_restart _ _ Hwf r l rs
               (RoomState.set_roundTimeout (Some (nextTimer w)) (resolved rs))); done.
Qed.

Lemma submitted_evolves (u c : value) (r : string) (l : nat) (rs0 rs : RoomState.t)
    (w : World) :
  wf w -> roomStates w !! r = Some l -> heap w !! l = Some rs0 ->
  RoomState.roundTimeout rs = RoomState.roundTimeout rs0 ->
  (RoomState.paused rs0 = false -> RoomState.paused rs = false) ->
  evolves w (submitted u c r l rs w).
Proof.
  intros Hwf Hr Hl Ht Hp. unfold submitted. cbv zeta.
  assert (H1 : evolves w (set_heap (<[l := recorded u c rs]>) w)).
  { apply (paused_wf_update _ _ Hwf l rs0 (recorded u c rs)); try done.
    - unfold recorded. by destruct (truthy u).
    - unfold recorded. by destruct (truthy u). }
  destruct (Nat.eqb _ 2); [| exact H1].
  eapply paused_evolves_trans; [exact H1 |].
  apply paused_roundOutcome_evolves; [exact (proj1 H1) | done |]. cbn. apply lookup_insert_eq.
Qed.

Lemma tick_evolves (t l : nat) (R : string) (n : Z) (rs : RoomState.t) (w : World) :
  wf w -> In (t, Countdown l R n) (timers w) ->
  roomStates w !! R = Some l -> heap w !! l = Some rs ->
  evolves w (tick t l R n rs w).
Proof.
  intros Hwf Hin Hr Hl. unfold tick. cbv zeta.
  set (w0 := mkWorld _ _ _ _ (ticked _ _ _ _ _) _ _ _).
  assert (H0 : evolves w w0) by (by apply (paused_wf_ticked _ _ Hwf t l R n (n - 1))).
  destruct (n - 1 <=? 0); [| exact H0].
  eapply paused_evolves_trans; [exact H0 |].
  assert (H1 : evolves w0 (set_timers (clearTimer (RoomState.roundTimeout rs)) w0)).
  { by apply (paused_wf_cancel _ _ (proj1 H0) l rs). }
  eapply paused_evolves_trans; [exact H1 |].
  by apply (submitted_evolves _ _ _ _ rs _ _ (proj1 H1)).
Qed.

(** One room of a disconnect, from a well-formed world. *)
Lemma disconnectingFrom_evolves (s room : string) (w : World) :
  wf w -> exists w', disconnectingFrom s room w = Ok tt w' /\ evolves w w'
                     /\ connectedUsers w' = connectedUsers w.
Proof.
  intros Hwf. destruct (Obj.get s (connectedUsers w)) as [user|] eqn:Hu.
  2:{ exists w. unfold disconnectingFrom. mstep. rewrite Hu.
      split; [done |]. split; [by apply paused_evolves_refl | done]. }
  destruct (roomStates w !! room) as [l|] eqn:Hr.
  2:{ eexists. unfold disconnectingFrom. mstep. rewrite Hu, Hr. repeat mstep.
      split; [reflexivity |]. split; [by apply paused_wf_frame | done]. }
  destruct (wf_table _ Hwf _ _ Hr) as [rs Hl].
  rewrite (disconnectingFrom_clears_countdown _ _ _ _ _ _ Hu Hr Hl).
  eexists. split; [reflexivity |]. split; [| done].
  set (rs' := RoomState.mk _ _ _ _ _ true).
  assert (H1 : evolves w (set_timers (clearTimer (RoomState.roundTimeout rs))
                            (set_heap (<[l := rs']>) w))).
  { by apply (paused_wf_pause _ _ Hwf l rs rs'). }
  eapply paused_evolves_trans; [exact H1 |].
  by apply (paused_wf_grace _ _ (proj1 H1) (User.username user) room).
Qed.

Lemma disconnecting_evolves (s : string) (js : list string) (w : World) :
  wf w -> exists w', forEach js (disconnectingFrom s) w = Ok tt w' /\ evolves w w'.
Proof.
  revert w. induction js as [|j js IH]; intros w Hwf; cbn [forEach].
  - exists w. split; [done | by apply paused_evolves_refl].
  - destruct (disconnectingFrom_evolves s j w Hwf) as (w1 & Hs1 & H1 & _).
    destruct (IH w1 (proj1 H1)) as (w2 & Hs2 & H2).
    exists w2. rewrite (bind_Ok _ _ _ _ _ Hs1). split; [exact Hs2 |].
    by eapply paused_evolves_trans.
Qed.

(** One event from a well-formed world: either the handler returns in a
    well-formed world that still holds the grace timers other than the
    one fired, or the event is a valid join by a user who is registered
    for a room that is no longer listed, and the handler throws. *)
Lemma paused_step_cases (e : Event) (w : World) :
  wf w ->
  (exists w',
     step e w = Ok tt w' /\ wf w'
     /\ forall t username room,
          In (t, GraceExpiry username room) (timers w) -> e <> Fire t ->
          In (t, GraceExpiry username room) (timers w'))
  \/ (step e w = TypeError
      /\ ((exists socket u room,
             e = ConnectToRoom socket (Str u) (Str room)
             /\ u <> ""%string /\ (4 < String.length room)%nat
             /\ isReconnecting u room (connectedUsers w) = true
             /\ roomStates w !! ("room:" +:+ room) = None)
          \/ (exists socket u room c,
                e = PlayerChoice socket u room c
                /\ roomStates w !! room = None
                /\ existsb (String.eqb room) inherited = true
                /\ validChoice c = true))).
Proof.
  intros Hwf.
  assert (Hev : forall (o : Outcome World unit) w', o = Ok tt w' -> evolves w w' ->
            exists w', o = Ok tt w' /\ wf w'
              /\ forall t username room,
                   In (t, GraceExpiry username room) (timers w) -> e <> Fire t ->
                   In (t, GraceExpiry username room) (timers w')).
  { intros o w' Hs [Hw' Hg]. exists w'. split; [done |]. split; [done |]. auto. }
  destruct e as [socket username room | socket username room choice | socket | t].
  - (* connect-to-room *)
    cbn [step].
    destruct (negb (truthy username) || negb (truthy room)
              || (Z.of_nat (String.length (key room)) <=? 4)) eqn:V.
    + left. eapply Hev.
      * apply paused_join_refused. rewrite !orb_true_iff, !negb_true_iff, Z.leb_le in V.
        destruct V as [[V | V] | V]; auto. right. right. lia.
      * by apply paused_wf_frame.
    + rewrite !orb_false_iff, !negb_false_iff, Z.leb_gt in V. destruct V as [[Vu Vr] Vl].
      destruct username as [| |u]; try done. destruct room as [| |room]; try done.
      cbn [key] in Vl.
      assert (Hu : u <> ""%string).
      { intros ->. done. }
      assert (Hlen : (4 < String.length room)%nat) by lia.
      destruct (roomStates w !! ("room:" +:+ room)) as [l|] eqn:Hr.
      * left. destruct (wf_table _ Hwf _ _ Hr) as [rs Hl].
        destruct (RoomState.connectedUsers rs) as [|first others] eqn:Hcu.
        2: destruct (decide (Seat.socketId first = socket)) as [He|Hne].
        2:{ eapply Hev; [by eapply paused_join_again | by apply paused_wf_frame]. }
        all: eapply Hev;
          [ apply (paused_join_seats _ _ _ _ _ _ Hu Hlen Hr Hl); rewrite Hcu;
            first [ by intros ? | by intros ? [= <-] ] |].
        all: unfold seatedIn; cbv zeta.
        all: set (rs' := seatAdded socket u _ rs).
        all: assert (H1 : evolves w (set_heap (<[l := rs']>) w))
               by (apply (paused_wf_update _ _ Hwf l rs rs'); try done;
                   subst rs'; unfold seatAdded; cbn;
                   by destruct (isReconnecting _ _ _)).
        all: eapply paused_evolves_trans; [exact H1 |].
        all: destruct (_ && _) eqn:Htwo.
        all: try (apply andb_true_iff in Htwo as [_ Hnp]; apply negb_true_iff in Hnp).
        all: first
          [ apply (paused_wf_restart _ _ (proj1 H1) ("room:" +:+ room) l rs'
                     (RoomState.set_roundTimeout (Some (nextTimer w)) rs'));
              try done; cbn; rewrite ?insert_insert_eq; first [apply lookup_insert_eq | done]
          | apply paused_wf_frame; try done; exact (proj1 H1) ].
      * destruct (isReconnecting u room (connectedUsers w)) eqn:Hre.
        { right. split; [by apply paused_join_lost |]. left. by exists socket, u, room. }
        left. eapply Hev; [by apply paused_join_opens |].
        by apply (paused_wf_open _ _ Hwf ("room:" +:+ room)
                    (RoomState.mk [Seat.mk u socket] {[ u := Num 0 ]} 1 ∅ None false)).
  - (* player-choice *)
    cbn [step].
    destruct (validChoice choice) eqn:Hc.
    2:{ left. eapply Hev; [apply paused_choice_refused; by right | by apply paused_wf_frame]. }
    destruct (roomStates w !! room) as [l|] eqn:Hr.
    2:{ destruct (existsb (String.eqb room) inherited) eqn:Hi.
        - right. split; [by apply paused_choice_throws |].
          right. by exists socket, username, room, choice.
        - left. eapply Hev; [apply paused_choice_refused; by left | by apply paused_wf_frame]. }
    left.
    destruct (wf_table _ Hwf _ _ Hr) as [rs Hl].
    eapply Hev;
      [apply (paused_handlePlayerChoice_eq _ _ _ _ l rs); [done | done | by right] |].
    by apply (submitted_evolves _ _ _ _ rs).
  - (* disconnecting *)
    left. cbn [step].
    destruct (disconnecting_evolves socket (socket_rooms socket w) w Hwf) as (w1 & Hs1 & H1).
    assert (Hd : handleDisconnecting socket w = Ok tt w1).
    { unfold handleDisconnecting. by rewrite (bind_Ok get _ _ _ _ eq_refl). }
    rewrite (bind_Ok _ _ _ _ _ Hd). eapply Hev; [reflexivity |].
    eapply paused_evolves_trans; [exact H1 |].
    apply paused_wf_frame; try done. exact (proj1 H1).
  - (* a timer fires *)
    left. cbn [step]. mstep.
    destruct (pending t (timers w)) as [cb|] eqn:Hp.
    2:{ exists w. split; [done |]. split; [done |]. auto. }
    apply pending_In in Hp.
    destruct cb as [l R n | username room].
    + destruct (wf_round _ Hwf _ _ _ _ Hp) as (Hr & rs & Hl & Ht).
      eapply Hev; [by apply (countdown_eq _ _ _ _ rs) |].
      destruct (RoomState.paused rs); [by apply paused_evolves_refl |].
      by apply tick_evolves.
    + mstep.
      set (w0 := set_timers (clearTimer (Some t)) w).
      assert (Hw0 : wf w0).
      { destruct Hwf.
        split; subst w0; cbn [roomStates heap nextObject timers nextTimer set_timers]; auto.
        - intros t' cb' Hin. apply clearTimer_In in Hin as [Hin _]. eauto.
        - by apply clearTimer_NoDup.
        - intros t' l r n Hin. apply clearTimer_In in Hin as [Hin _]. eauto.
        - intros l rs t' Hl Ht'. destruct (wf_stored0 _ _ _ Hl Ht') as [Hlt Hno].
          split; [done |]. intros u room' Hin. apply clearTimer_In in Hin as [Hin _].
          by apply (Hno u room'). }
      assert (Hfin : forall (o : Outcome World unit) w', o = Ok tt w' -> evolves w0 w' ->
                exists w', o = Ok tt w' /\ wf w'
                  /\ forall t' username room,
                       In (t', GraceExpiry username room) (timers w) -> Fire t <> Fire t' ->
                       In (t', GraceExpiry username room) (timers w')).
      { intros o w' Hs [Hw' Hg]. exists w'. split; [done |]. split; [done |].
        intros t' u room' Hin Hne. apply Hg.
        subst w0. cbn. apply filter_In. split; [done |]. cbn.
        apply negb_true_iff, Nat.eqb_neq. congruence. }
      destruct (roomStates w !! room) as [l|] eqn:Hr.
      * destruct (wf_table _ Hwf _ _ Hr) as [rs Hl].
        eapply Hfin; [by apply (paused_graceExpiry_eq w0 username room l rs) |].
        destruct (seatedAs username rs); [by apply paused_evolves_refl |].
        by apply (paused_wf_teardown _ _ Hw0 room l rs).
      * eapply Hfin; [by apply paused_graceExpiry_absent | by apply paused_wf_frame].
Qed.

End PausedStepFacts.

(** ** The module with the pause flag: rounds, timers and reachable worlds *)

Module PausedReach.
Import Paused PausedFacts PausedJoin PausedRound PausedWf.
Import ObjFacts GameInvFacts PausedHandlers PausedRoundFacts PausedInvFacts PausedStepFacts.

Lemma paused_run_wf (es : list Event) (w w' : World) :
  wf w -> run es w = Ok tt w' -> wf w'.
Proof.
  revert w. induction es as [|e es IH]; intros w Hwf; unfold run; cbn [forEach].
  - intros H. apply Ok_inj in H. by subst.
  - destruct (paused_step_cases e w Hwf) as [(w1 & Hs & Hw1 & _) | [Hs _]].
    + rewrite (bind_Ok _ _ _ _ _ Hs). by apply IH.
    + unfold bind. by rewrite Hs.
Qed.

Lemma paused_reachable_wf (w : World) : reachable w -> wf w.
Proof. intros [es Hes]. exact (paused_run_wf es init w paused_init_wf Hes). Qed.

(** X16. From a reachable world a handler of this version throws in
    two cases only.  One is a valid [connect-to-room] by a user who is
    still registered for the room while the room is no longer listed;
    the reconnecting branch then reads [roomStates[ROOM_NAME].paused]
    (line 48).  The other is a [player-choice] with a valid choice whose
    room is the name of a member that [roomStates] inherits from
    [Object.prototype], such as [valueOf]: the member is truthy, passes
    the validation, and its missing [choices] are dereferenced (lines 90
    to 101).  Every other event returns, the join of a room without
    seats and the ticks of the countdown included. *)
Theorem paused_handler_throws_in_two_cases (w : World) (e : Event) :
  reachable w ->
  (step e w = TypeError
   <-> (exists socket u room,
          e = ConnectToRoom socket (Str u) (Str room)
          /\ u <> ""%string /\ (4 < String.length room)%nat
          /\ isReconnecting u room (connectedUsers w) = true
          /\ roomStates w !! ("room:" +:+ room) = None)
       \/ (exists socket u room c,
             e = PlayerChoice socket u room c
             /\ roomStates w !! room = None
             /\ existsb (String.eqb room) inherited = true
             /\ validChoice c = true)).
Proof.
  intros Hreach. pose proof (paused_reachable_wf w Hreach) as Hwf. split.
  - intros Hs. destruct (paused_step_cases e w Hwf) as [(w1 & Hs1 & _) | [_ H]]; [| exact H].
    rewrite Hs in Hs1. discriminate.
  - intros [(socket & u & room & -> & Hu & Hlen & Hre & Hr)
           | (socket & u & room & c & -> & Hr & Hi & Hc)]; cbn [step].
    + by apply paused_join_lost.
    + by apply paused_choice_throws.
Qed.

Lemma paused_handler_throws_in_two_cases_witness :
  step PausedEdge.comeback PausedEdge.tornDown = TypeError
  /\ step PausedEdge.foreignChoice PausedEdge.tornDown = TypeError.
Proof.
  split.
  - apply (paused_handler_throws_in_two_cases PausedEdge.tornDown PausedEdge.comeback).
    + exists PausedEdge.bothLeave. vm_compute. reflexivity.
    + left. exists "sa2"%string, "alice"%string, "abcde"%string.
      split; [reflexivity |]. split; [done |]. split; [simpl; lia |].
      split; vm_compute; reflexivity.
  - apply (paused_handler_throws_in_two_cases PausedEdge.tornDown PausedEdge.foreignChoice).
    + exists PausedEdge.bothLeave. vm_compute. reflexivity.
    + right. exists "sa"%string, (Str "alice"), "valueOf"%string, (Str "rock").
      split; [reflexivity |]. split; [vm_compute; reflexivity |].
      split; reflexivity.
Defined.

(** X18. In every reachable world a paused room has no pending
    countdown, so the pause test inside the countdown callback is never
    taken; and [startNextRound] on a paused room returns without setting
    a timer. *)
Theorem paused_room_has_no_countdown (w : World) (R : string) (l : nat) (rs : RoomState.t) :
  reachable w ->
  heap w !! l = Some rs ->
  RoomState.paused rs = true ->
  (forall t R' n, pending t (timers w) <> Some (Countdown l R' n))
  /\ (roomStates w !! R = Some l -> startNextRound R w = Ok tt w).
Proof.
  intros Hreach Hl Hp. pose proof (paused_reachable_wf w Hreach) as Hwf. split.
  - intros t R' n Ht.
    destruct (wf_round _ Hwf _ _ _ _ (pending_In _ _ _ Ht)) as (_ & rs' & Hl' & _ & Hp').
    congruence.
  - intros Hr. by rewrite (paused_startNextRound_eq _ _ _ _ Hr Hl), Hp.
Qed.

Lemma paused_room_has_no_countdown_witness :
  pending 0 (timers PausedScenario.bobLeft) <> Some (Countdown 0 PausedScenario.room 1)
  /\ startNextRound PausedScenario.room PausedScenario.bobLeft = Ok tt PausedScenario.bobLeft.
Proof.
  destruct (paused_room_has_no_countdown PausedScenario.bobLeft PausedScenario.room 0
              PausedEdge.bobLeftRoom) as [H1 H2].
  - exists (PausedScenario.joins ++ [Disconnecting "sb"]). vm_compute. reflexivity.
  - vm_compute. reflexivity.
  - reflexivity.
  - split; [apply H1 |]. apply H2. vm_compute. reflexivity.
Defined.

(** X30. In every reachable world a pending countdown is the interval
    its room holds: the room is listed under the name the countdown
    carries, stores its handle and is not paused.  So no room has two
    pending countdowns and none keeps ticking for a room that was torn
    down. *)
Theorem paused_countdown_belongs_to_its_room (w : World) (t l : nat) (r : string) (n : Z) :
  reachable w ->
  pending t (timers w) = Some (Countdown l r n) ->
  roomStates w !! r = Some l
  /\ (exists rs, heap w !! l = Some rs /\ RoomState.roundTimeout rs = Some t
                 /\ RoomState.paused rs = false)
  /\ (forall t' l' r' n',
        pending t' (timers w) = Some (Countdown l' r' n') ->
        r' = r \/ l' = l -> t' = t /\ l' = l /\ r' = r /\ n' = n).
Proof.
  intros Hreach Hp. pose proof (paused_reachable_wf w Hreach) as Hwf.
  destruct (wf_round _ Hwf _ _ _ _ (pending_In _ _ _ Hp)) as (Hr & rs & Hl & Ht & Hpa).
  split; [done |]. split; [eauto |].
  intros t' l' r' n' Hp' Hsame.
  destruct (wf_round _ Hwf _ _ _ _ (pending_In _ _ _ Hp')) as (Hr' & rs' & Hl' & Ht' & _).
  assert (l' = l) as ->.
  { destruct Hsame as [-> | ->]; [congruence | done]. }
  assert (t' = t) as -> by congruence.
  rewrite Hp in Hp'. by injection Hp' as <- <-.
Qed.

Lemma paused_countdown_belongs_to_its_room_witness :
  roomStates PausedScenario.seated !! PausedScenario.room = Some 0%nat
  /\ exists rs, heap PausedScenario.seated !! 0%nat = Some rs
                /\ RoomState.roundTimeout rs = Some 0%nat
                /\ RoomState.paused rs = false.
Proof.
  destruct (paused_countdown_belongs_to_its_room PausedScenario.seated 0 0
              PausedScenario.room 1) as (Hr & Hrs & _).
  - exists PausedScenario.joins. vm_compute. reflexivity.
  - vm_compute. reflexivity.
  - split; [exact Hr | exact Hrs].
Defined.

(** X27. A call of [handlePlayerChoice] that brings the pending choices
    to two resolves the round: the result and the updated scores are
    broadcast, the choices are cleared and the round number goes up.  If
    a seat's score is then 5 the game is over: the winner is broadcast,
    the room is unlisted, its countdown cleared and the seated sockets
    are unregistered.  Otherwise the countdown of the next round starts,
    unless the room is paused; no start of round is announced. *)
Theorem paused_round_resolution (w : World) (socket : option string) (u c : value)
    (r : string) (l : nat) (rs : RoomState.t) :
  roomStates w !! r = Some l ->
  heap w !! l = Some rs ->
  socket = None \/ validChoice c = true ->
  size (RoomState.choices (recorded u c rs)) = 2%nat ->
  let rs1 := recorded u c rs in
  let p1 := playerAt 0 rs in
  let p2 := playerAt 1 rs in
  let sc := GameRound.scoresAfter (roundResult rs1) p1 p2 (RoomState.scores rs) in
  let rs' := RoomState.mk (RoomState.connectedUsers rs) sc (RoomState.round rs + 1) ∅
                          (RoomState.roundTimeout rs) (RoomState.paused rs) in
  let result := ToRoom r "room-event:round-result"
                  (RoundResult (RoomState.round rs) (RoomState.choices rs1)
                               (roundResult rs1) sc) in
  exists w',
    handlePlayerChoice socket u r c w = Ok tt w'
    /\ if is5 (sc !! key p1) || is5 (sc !! key p2) then
         roomStates w' = delete r (roomStates w)
         /\ heap w' = <[l := rs']> (heap w)
         /\ timers w' = clearTimer (RoomState.roundTimeout rs) (timers w)
         /\ connectedUsers w' = unregistered (RoomState.connectedUsers rs) (connectedUsers w)
         /\ emitted w'
            = emitted w
              ++ [result;
                  ToRoom r "room-event:game-over"
                    (GameOver (GameRound.roundWinner (sc !! key p1) (sc !! key p2) p1 p2))]
       else
         roomStates w' = roomStates w
         /\ connectedUsers w' = connectedUsers w
         /\ emitted w' = emitted w ++ [result]
         /\ if RoomState.paused rs then
              heap w' = <[l := rs']> (heap w) /\ timers w' = timers w
            else
              heap w' = <[l := RoomState.set_roundTimeout (Some (nextTimer w)) rs']> (heap w)
              /\ timers w' = clearTimer (RoomState.roundTimeout rs) (timers w)
                               ++ [(nextTimer w, Countdown l r 1)].
Proof.
  intros Hr Hl Hv Hs. cbv zeta.
  rewrite (paused_handlePlayerChoice_eq _ _ _ _ _ _ _ Hr Hl Hv).
  eexists. split; [reflexivity |]. unfold submitted. cbv zeta. rewrite Hs. cbn [Nat.eqb].
  unfold roundOutcome, resolved, announced. cbv zeta.
  assert (E0 : playerAt 0 (recorded u c rs) = playerAt 0 rs).
  { unfold recorded. by destruct (truthy u). }
  assert (E1 : playerAt 1 (recorded u c rs) = playerAt 1 rs).
  { unfold recorded. by destruct (truthy u). }
  assert (E2 : RoomState.scores (recorded u c rs) = RoomState.scores rs).
  { unfold recorded. by destruct (truthy u). }
  assert (E3 : RoomState.connectedUsers (recorded u c rs) = RoomState.connectedUsers rs).
  { unfold recorded. by destruct (truthy u). }
  assert (E4 : RoomState.round (recorded u c rs) = RoomState.round rs).
  { unfold recorded. by destruct (truthy u). }
  assert (E5 : RoomState.roundTimeout (recorded u c rs) = RoomState.roundTimeout rs).
  { unfold recorded. by destruct (truthy u). }
  assert (E6 : RoomState.paused (recorded u c rs) = RoomState.paused rs).
  { unfold recorded. by destruct (truthy u). }
  cbn [RoomState.scores]. rewrite E0, E1, E2, E3, E4, E5, E6.
  destruct (is5 _ || is5 _).
  - cbn [roomStates heap timers connectedUsers emitted set_heap]. rewrite insert_insert_eq.
    done.
  - destruct (RoomState.paused rs);
      cbn [roomStates heap timers connectedUsers emitted set_heap nextTimer
           RoomState.set_roundTimeout RoomState.connectedUsers RoomState.scores
           RoomState.round RoomState.choices RoomState.roundTimeout RoomState.paused];
      rewrite insert_insert_eq; done.
Qed.

Lemma paused_round_resolution_witness :
  exists w',
    handlePlayerChoice (Some "sb") (Str "bob") PausedScenario.room (Str "scissors")
      (PausedScenario.after [PlayerChoice "sa" (Str "alice") PausedScenario.room (Str "rock")]
         PausedScenario.seated)
    = Ok tt w'
    /\ roomStates w' = roomStates PausedScenario.seated
    /\ timers w' = [(1%nat, Countdown 0 PausedScenario.room 1)].
Proof.
  set (w := PausedScenario.after
              [PlayerChoice "sa" (Str "alice") PausedScenario.room (Str "rock")]
              PausedScenario.seated).
  destruct (paused_round_resolution w (Some "sb") (Str "bob") (Str "scissors")
              PausedScenario.room 0
              (RoomState.mk [Seat.mk "alice" "sa"; Seat.mk "bob" "sb"]
                 {[ "alice"%string := Num 0; "bob"%string := Num 0 ]} 1
                 {[ "alice"%string := Str "rock" ]} (Some 0%nat) false))
    as (w' & Hs & Hrest).
  - vm_compute. reflexivity.
  - vm_compute. reflexivity.
  - by right.
  - vm_compute. reflexivity.
  - exists w'. split; [exact Hs |].
    cbv zeta in Hrest.
    match type of Hrest with
    | (if ?b then _ else _) =>
        replace b with false in Hrest by (vm_compute; reflexivity)
    end.
    cbn [RoomState.paused] in Hrest.
    destruct Hrest as (Hrooms & _ & _ & _ & Ht).
    split; [rewrite Hrooms; vm_compute; reflexivity |].
    rewrite Ht. vm_compute. reflexivity.
Defined.

(** X28. A tick of the countdown of a room that is not paused broadcasts
    the remaining time and writes the decremented time back.  Before the
    last tick that is all; the last tick also clears the interval,
    records ["rock"] for the seats without a choice and then runs the
    resolution path of a submission.  The names of the first two seats
    are not names of members inherited from [Object.prototype], for
    which the test [!roomState.choices[player]] of lines 151 and 152
    reads the inherited member. *)
Theorem paused_countdown_tick (w : World) (t l : nat) (R : string) (n : Z)
    (rs : RoomState.t) :
  pending t (timers w) = Some (Countdown l R n) ->
  roomStates w !! R = Some l ->
  heap w !! l = Some rs ->
  RoomState.paused rs = false ->
  existsb (String.eqb (key (playerAt 0 rs))) inherited = false ->
  existsb (String.eqb (key (playerAt 1 rs))) inherited = false ->
  let w0 := mkWorld (connectedUsers w) (roomStates w) (heap w) (nextObject w)
                    (ticked t l R (n - 1) (timers w)) (nextTimer w) (rooms w)
                    (emitted w ++ [ToRoom R "room-event:round-timer" (RoundTimer n)]) in
  (1 < n -> step (Fire t) w = Ok tt w0)
  /\ (n <= 1 ->
      step (Fire t) w
      = handlePlayerChoice None Null R Null
          (set_heap (<[l := withChoices (withDefaults rs) rs]>)
             (set_timers (clearTimer (RoomState.roundTimeout rs)) w0))).
Proof.
  intros Ht Hr Hl Hp _ _. cbv zeta. cbn [step]. rewrite (bind_Ok get _ _ _ _ eq_refl), Ht.
  rewrite (countdown_eq _ _ _ _ _ _ Hr Hl), Hp. unfold tick. cbv zeta. split.
  - intros Hn. by replace (n - 1 <=? 0) with false by (symmetry; apply Z.leb_gt; lia).
  - intros Hn. replace (n - 1 <=? 0) with true by (symmetry; apply Z.leb_le; lia).
    erewrite paused_handlePlayerChoice_eq; [| exact Hr | | by left].
    2:{ cbn. apply lookup_insert_eq. }
    unfold submitted. cbv zeta.
    replace (recorded Null Null (withChoices (withDefaults rs) rs))
      with (withChoices (withDefaults rs) rs) by reflexivity.
    unfold set_heap, set_timers.
    cbn [connectedUsers roomStates heap nextObject timers nextTimer rooms emitted].
    by rewrite insert_insert_eq.
Qed.

Lemma paused_countdown_tick_witness :
  step (Fire 0) PausedScenario.seated
  = handlePlayerChoice None Null PausedScenario.room Null
      (set_heap (<[0%nat := withChoices (withDefaults PausedEdge.seatedRoom)
                                        PausedEdge.seatedRoom]>)
         (set_timers (clearTimer (RoomState.roundTimeout PausedEdge.seatedRoom))
            (mkWorld (connectedUsers PausedScenario.seated) (roomStates PausedScenario.seated)
               (heap PausedScenario.seated) (nextObject PausedScenario.seated)
               (ticked 0 0 PausedScenario.room (1 - 1) (timers PausedScenario.seated))
               (nextTimer PausedScenario.seated) (rooms PausedScenario.seated)
               (emitted PausedScenario.seated
                  ++ [ToRoom PausedScenario.room "room-event:round-timer" (RoundTimer 1)])))).
Proof.
  destruct (paused_countdown_tick PausedScenario.seated 0 0 PausedScenario.room 1
              PausedEdge.seatedRoom) as [_ H].
  - vm_compute. reflexivity.
  - vm_compute. reflexivity.
  - vm_compute. reflexivity.
  - reflexivity.
  - reflexivity.
  - reflexivity.
  - apply H. lia.
Defined.

(** X29. The grace timer of this version.  If the user holds a seat in
    the listed room again, nothing happens.  Otherwise every registry
    entry under the username is purged; if the room is listed, its first
    remaining seat, if any, is broadcast as the winner, and the room is
    torn down, which also unregisters the sockets still seated. *)
Theorem paused_grace_expiry (w : World) (username room : string) :
  (forall l rs,
     roomStates w !! room = Some l -> heap w !! l = Some rs ->
     graceExpiry username room w
     = Ok tt (if seatedAs username rs then w
              else mkWorld (unregistered (RoomState.connectedUsers rs)
                              (purge username (connectedUsers w)))
                           (delete room (roomStates w)) (heap w) (nextObject w)
                           (clearTimer (RoomState.roundTimeout rs) (timers w))
                           (nextTimer w) (rooms w) (emitted w ++ forfeit room rs)))
  /\ (roomStates w !! room = None ->
      graceExpiry username room w = Ok tt (set_connectedUsers (purge username) w)).
Proof.
  split.
  - intros l rs Hr Hl. by rewrite (paused_graceExpiry_eq _ _ _ _ _ Hr Hl).
  - apply paused_graceExpiry_absent.
Qed.

Lemma paused_grace_expiry_witness :
  graceExpiry "bob" PausedScenario.room PausedScenario.bobLeft
  = Ok tt (mkWorld [] (delete PausedScenario.room (roomStates PausedScenario.bobLeft))
             (heap PausedScenario.bobLeft) (nextObject PausedScenario.bobLeft)
             (clearTimer (Some 0%nat) (timers PausedScenario.bobLeft))
             (nextTimer PausedScenario.bobLeft) (rooms PausedScenario.bobLeft)
             (emitted PausedScenario.bobLeft
                ++ [ToRoom PausedScenario.room "room-event:game-over"
                      (GameOver (Str "alice"))])).
Proof.
  rewrite (proj1 (paused_grace_expiry PausedScenario.bobLeft "bob" PausedScenario.room)
             0%nat PausedEdge.bobLeftRoom).
  - vm_compute. reflexivity.
  - vm_compute. reflexivity.
  - vm_compute. reflexivity.
Defined.

End PausedReach.
